(** * Thai Video Downloader: the front end's queue, progress and URL logic

    A shallow embedding of [gui/src/App.tsx].  JavaScript strings are
    modelled as [string] (the UTF-8 bytes of the text), [null]/[undefined]
    as [None], the outcome of an awaited promise as [Js.Promise] (resolved
    with a value, or rejected, which the [try]/[catch] around it handles).
    JavaScript numbers are modelled as [Z] where the source only counts, as
    exact rationals [Q] in the state machine of the download tab, where the
    theorems are about comparisons and control flow, and as binary64
    floating point numbers in [Binary64], where the value that the speed
    arithmetic computes is at stake.

    The Tauri back end ([src-tauri/src/lib.rs]) and the platform functions
    ([URL], [String.prototype.trim]) are not part of the front end source;
    they are either parameters of a section or modelled from the
    specification, and marked as such where they are declared. *)

From Stdlib Require Import List String Ascii Bool ZArith QArith Qround Lia.
From Stdlib Require Import DecimalString Decimal DecimalN DecimalPos Lqa.
From Stdlib Require Floats.
Import ListNotations.

Close Scope Q_scope.
Local Open Scope string_scope.

(** Decimal literals of floating point numbers denote the nearest binary64
    number, as they do in JavaScript. *)
Set Warnings "-inexact-float".

(** ** JavaScript helpers *)

Module Js.

(** [a || b] on strings: the empty string is falsy. *)
Definition or_string (a b : string) : string :=
  if (a =? "") then b else a.

(** [a || b] on [string | null]: [null] and the empty string are falsy. *)
Definition or_nullable (a b : option string) : option string :=
  match a with
  | Some s => if (s =? "") then b else Some s
  | None => b
  end.

(** Truthiness of [string | null]. *)
Definition truthy (a : option string) : bool :=
  match a with
  | Some s => negb (s =? "")
  | None => false
  end.

(** The string of the given bytes. *)
Definition bytes (l : list nat) : string :=
  fold_right (fun n s => String (ascii_of_nat n) s) EmptyString l.

(** The white space and the line terminators that [String.prototype.trim]
    strips, each as the UTF-8 bytes of its code point: TAB, LF, VT, FF, CR,
    SPACE, U+00A0, U+1680, U+2000 to U+200A, U+2028, U+2029, U+202F, U+205F,
    U+3000 and U+FEFF. *)
Definition white_space : list string :=
  map bytes
    [ [9]; [10]; [11]; [12]; [13]; [32];
      [194; 160];
      [225; 154; 128];
      [226; 128; 128]; [226; 128; 129]; [226; 128; 130]; [226; 128; 131];
      [226; 128; 132]; [226; 128; 133]; [226; 128; 134]; [226; 128; 135];
      [226; 128; 136]; [226; 128; 137]; [226; 128; 138];
      [226; 128; 168]; [226; 128; 169]; [226; 128; 175];
      [226; 129; 159];
      [227; 128; 128];
      [239; 187; 191] ].

(** [s] is one white space code point. *)
Definition is_white_space (s : string) : bool := existsb (String.eqb s) white_space.

(** The white space code point [s] starts with, if it starts with one. *)
Definition leading_white_space (s : string) : option string :=
  find (fun w => String.prefix w s) white_space.

(** [s] without its first [n] bytes. *)
Fixpoint drop (n : nat) (s : string) : string :=
  match n, s with
  | S n', String _ s' => drop n' s'
  | _, _ => s
  end.

(** The loop of [trimStart]: at most [fuel] code points are stripped. *)
Fixpoint trimStart_loop (fuel : nat) (s : string) : string :=
  match fuel with
  | O => s
  | S fuel' =>
      match leading_white_space s with
      | Some w => trimStart_loop fuel' (drop (String.length w) s)
      | None => s
      end
  end.

(** [String.prototype.trimStart]; a string has no more white space code
    points than bytes. *)
Definition trimStart (s : string) : string := trimStart_loop (String.length s) s.

(** [String.prototype.trimEnd]: what is left of the rest is kept unless it
    makes, with the byte before it, one white space code point. *)
Fixpoint trimEnd (s : string) : string :=
  match s with
  | EmptyString => EmptyString
  | String c s' =>
      let t := String c (trimEnd s') in
      if is_white_space t then EmptyString else t
  end.

Definition trim (s : string) : string := trimEnd (trimStart s).

(** ASCII case folding, as done by the [i] flag on the characters that occur
    in the patterns of this program (ASCII letters fold, everything else is
    compared as it is). *)
Definition to_lower (c : ascii) : ascii :=
  let n := nat_of_ascii c in
  if (Nat.leb 65 n && Nat.leb n 90)%bool then ascii_of_nat (n + 32) else c.

Definition eqb_ci (a b : ascii) : bool :=
  Ascii.eqb (to_lower a) (to_lower b).

(** [p] matches at the start of [s], ignoring ASCII case. *)
Fixpoint prefix_ci (p s : string) : bool :=
  match p, s with
  | EmptyString, _ => true
  | String _ _, EmptyString => false
  | String a p', String b s' => (eqb_ci a b && prefix_ci p' s')%bool
  end.

(** A regular expression that is a literal with the [i] flag and no anchor:
    [/literal/i], the escaped dot standing for itself. *)
Record RegExp := { literal : string }.

(** [RegExp.prototype.test]: the literal occurs somewhere in [s]. *)
Fixpoint test_from (p s : string) : bool :=
  (prefix_ci p s
   || match s with
      | EmptyString => false
      | String _ s' => test_from p s'
      end)%bool.

Definition test (r : RegExp) (s : string) : bool := test_from (literal r) s.

(** The outcome of [await invoke(...)]. *)
Inductive Promise (A : Type) :=
| Resolved (value : A)
| Rejected (reason : string).
Arguments Resolved {A} value.
Arguments Rejected {A} reason.

(** [Number.prototype.toString] on a non-negative integer. *)
Definition toString (n : N) : string := NilZero.string_of_uint (N.to_uint n).

End Js.

(** ** URL checks ([isSupportedUrl], [isValidUrl]) *)

Module Url.

(** The two components of a parsed [URL] object that the program reads. *)
Record URL := { protocol : string; hostname : string }.

(** Supported site patterns for URL validation. *)
Definition SUPPORTED_SITES : list Js.RegExp :=
  [ {| Js.literal := "xn--12ca1ddhqak6ecxc9b.com" |};
    {| Js.literal := "บ้านจีน.com" |};
    {| Js.literal := "xn--12cg1cxchd0a2a4c5c5b.online" |};
    {| Js.literal := "หนังสั้นจีน.online" |} ].

Section Checks.

(** The platform's [new URL(str)]: [None] when the constructor throws. *)
Variable new_URL : string -> option URL.

(** Check if URL is from a supported site. *)
Definition isSupportedUrl (url : string) : bool :=
  match new_URL url with
  | Some urlObj =>
      existsb (fun pattern => Js.test pattern (hostname urlObj)) SUPPORTED_SITES
  | None => false
  end.

(** Check if string is a valid URL. *)
Definition isValidUrl (str : string) : bool :=
  match new_URL str with
  | Some url => ((protocol url =? "http:") || (protocol url =? "https:"))%bool
  | None => false
  end.

End Checks.

(** A small stand-in for the platform parser, for running the checks on
    examples: it accepts [scheme://host] followed by nothing or by a path
    starting with a slash, and rejects everything else. *)
Fixpoint split_at (stop : ascii) (s : string) : string * option string :=
  match s with
  | EmptyString => (EmptyString, None)
  | String c s' =>
      if Ascii.eqb c stop then (EmptyString, Some s')
      else let '(a, b) := split_at stop s' in (String c a, b)
  end.

Definition example_URL (s : string) : option URL :=
  match split_at ":" s with
  | (scheme, Some (String "/" (String "/" rest))) =>
      if (scheme =? "") then None
      else
        let '(host, _) := split_at "/" rest in
        if (host =? "") then None
        else Some {| protocol := scheme ++ ":"; hostname := host |}
  | _ => None
  end.

End Url.

(** ** The log panel, shared by every tab *)

Module Ui.

Inductive LogType := LogInfo | LogSuccess | LogError | LogProgress.

(** A [LogEntry] without its [timestamp], which nothing reads back. *)
Record LogEntry := { type : LogType; message : string }.

(** [addLog]: [setLogs(prev => [...prev, entry])]. *)
Definition addLog (t : LogType) (m : string) (logs : list LogEntry) : list LogEntry :=
  logs ++ [ {| type := t; message := m |} ].

End Ui.

(** ** The download tab: progress listener and [handleDownload] *)

Module DownloadTab.

Local Open Scope Q_scope.

Definition Qltb (a b : Q) : bool := negb (Qle_bool b a).

(** Payload of a [download-progress] event. *)
Module Event.
Record DownloadProgress := {
  status : string;
  progress : Q;
  message : string;
  filename : option string;
  downloaded_bytes : option Q;
  total_bytes : option Q;
  speed_bps : option Q
}.
End Event.

Record VideoInfo := {
  vi_url : string;
  title : string;
  thumbnail : string;
  duration : string;
  qualities : list string;
  sources : list (string * string * string)
}.

Record HistoryItem := {
  id : string;
  h_url : string;
  h_title : string;
  h_thumbnail : string;
  h_filename : string;
  h_quality : string;
  downloaded_at : string;
  file_path : string;
  file_size : option Q
}.

(** Arguments of the [download_video] command. *)
Record DownloadRequest := {
  r_url : string;
  r_outputDir : string;
  r_outputFilename : option string;
  r_quality : string
}.

(** What the handlers ask of the outside world, in the order they ask it. *)
Inductive Effect :=
| Invoke_download_video (r : DownloadRequest)
| Invoke_add_to_history (item : HistoryItem)
| LoadHistory
| ShowNotification (title body : string).

Inductive Status := idle | downloading | completed | error.

(** The form fields of the download tab. *)
Record Form := {
  url : string;
  outputDir : string;
  filename : string;
  quality : string;
  videoInfo : option VideoInfo
}.

(** Speed and ETA tracking: four state variables and two refs. *)
Record Tracking := {
  downloadSpeed : Q;
  downloadedBytes : Q;
  totalBytes : Q;
  eta : option Q;
  downloadStartTime : option Q;
  lastProgressUpdate : option (Q * Q)   (* time, bytes *)
}.

Record State := {
  form : Form;
  tracking : Tracking;
  progress : Q;
  status : Status;
  isDownloading : bool;
  logs : list Ui.LogEntry;
  effects : list Effect
}.

(** Initial values of the [useState] and [useRef] calls of [App]. *)
Definition initial_tracking : Tracking :=
  {| downloadSpeed := 0; downloadedBytes := 0; totalBytes := 0; eta := None;
     downloadStartTime := None; lastProgressUpdate := None |}.

Definition initial_form : Form :=
  {| url := ""; outputDir := ""; filename := ""; quality := "auto"; videoInfo := None |}.

Definition initial_state : State :=
  {| form := initial_form; tracking := initial_tracking; progress := 0;
     status := idle; isDownloading := false; logs := []; effects := [] |}.

(** Setters of the state variables. *)
Definition setDownloadSpeed (f : Q -> Q) (t : Tracking) : Tracking :=
  {| downloadSpeed := f (downloadSpeed t); downloadedBytes := downloadedBytes t;
     totalBytes := totalBytes t; eta := eta t;
     downloadStartTime := downloadStartTime t;
     lastProgressUpdate := lastProgressUpdate t |}.

Definition setDownloadedBytes (v : Q) (t : Tracking) : Tracking :=
  {| downloadSpeed := downloadSpeed t; downloadedBytes := v;
     totalBytes := totalBytes t; eta := eta t;
     downloadStartTime := downloadStartTime t;
     lastProgressUpdate := lastProgressUpdate t |}.

Definition setTotalBytes (v : Q) (t : Tracking) : Tracking :=
  {| downloadSpeed := downloadSpeed t; downloadedBytes := downloadedBytes t;
     totalBytes := v; eta := eta t;
     downloadStartTime := downloadStartTime t;
     lastProgressUpdate := lastProgressUpdate t |}.

Definition setEta (v : option Q) (t : Tracking) : Tracking :=
  {| downloadSpeed := downloadSpeed t; downloadedBytes := downloadedBytes t;
     totalBytes := totalBytes t; eta := v;
     downloadStartTime := downloadStartTime t;
     lastProgressUpdate := lastProgressUpdate t |}.

Definition setDownloadStartTime (v : option Q) (t : Tracking) : Tracking :=
  {| downloadSpeed := downloadSpeed t; downloadedBytes := downloadedBytes t;
     totalBytes := totalBytes t; eta := eta t;
     downloadStartTime := v;
     lastProgressUpdate := lastProgressUpdate t |}.

Definition setLastProgressUpdate (v : option (Q * Q)) (t : Tracking) : Tracking :=
  {| downloadSpeed := downloadSpeed t; downloadedBytes := downloadedBytes t;
     totalBytes := totalBytes t; eta := eta t;
     downloadStartTime := downloadStartTime t;
     lastProgressUpdate := v |}.

Definition withTracking (f : Tracking -> Tracking) (s : State) : State :=
  {| form := form s; tracking := f (tracking s); progress := progress s;
     status := status s; isDownloading := isDownloading s; logs := logs s;
     effects := effects s |}.

Definition setProgress (v : Q) (s : State) : State :=
  {| form := form s; tracking := tracking s; progress := v;
     status := status s; isDownloading := isDownloading s; logs := logs s;
     effects := effects s |}.

Definition setStatus (v : Status) (s : State) : State :=
  {| form := form s; tracking := tracking s; progress := progress s;
     status := v; isDownloading := isDownloading s; logs := logs s;
     effects := effects s |}.

Definition setIsDownloading (v : bool) (s : State) : State :=
  {| form := form s; tracking := tracking s; progress := progress s;
     status := status s; isDownloading := v; logs := logs s;
     effects := effects s |}.

Definition addLog (t : Ui.LogType) (m : string) (s : State) : State :=
  {| form := form s; tracking := tracking s; progress := progress s;
     status := status s; isDownloading := isDownloading s;
     logs := Ui.addLog t m (logs s); effects := effects s |}.

Definition perform (e : Effect) (s : State) : State :=
  {| form := form s; tracking := tracking s; progress := progress s;
     status := status s; isDownloading := isDownloading s; logs := logs s;
     effects := effects s ++ [e] |}.

(** [x || 0] on an optional number. *)
Definition or_zero (x : option Q) : Q :=
  match x with Some v => v | None => 0 end.

(** Truthiness of an optional number: present and not zero. *)
Definition truthy_number (x : option Q) : bool :=
  match x with Some v => negb (Qeq_bool v 0) | None => false end.

(** The smoothing applied by [setDownloadSpeed]:
    [prev === 0 ? instantSpeed : prev * 0.7 + instantSpeed * 0.3], in exact
    arithmetic; [Binary64.smooth] is the same expression with the rounding
    of the platform. *)
Definition smooth (instantSpeed prev : Q) : Q :=
  if Qeq_bool prev 0 then instantSpeed
  else prev * (7 # 10) + instantSpeed * (3 # 10).

(** The speed block of the listener (lines 354 to 368), run when
    [currentBytes > 0]. *)
Definition update_speed (now currentBytes : Q) (t : Tracking) : Tracking :=
  match lastProgressUpdate t with
  | Some (time, bytes) =>
      let timeDiff := (now - time) / 1000 in
      let bytesDiff := currentBytes - bytes in
      if Qltb (1 # 10) timeDiff then
        let instantSpeed := bytesDiff / timeDiff in
        setLastProgressUpdate (Some (now, currentBytes))
          (setDownloadSpeed (smooth instantSpeed) t)
      else t
  | None => setLastProgressUpdate (Some (now, currentBytes)) t
  end.

(** The ETA block of the listener (lines 370 to 374).  [downloadSpeed] is
    the variable of the render in which the listener was created, not the
    state at the time of the event: it is an argument here. *)
Definition update_eta (downloadSpeed : Q) (total currentBytes : Q) (t : Tracking) : Tracking :=
  if (Qltb 0 downloadSpeed && Qltb 0 total)%bool then
    let remainingBytes := total - currentBytes in
    setEta (Some (remainingBytes / downloadSpeed)) t
  else t.

(** The [download-progress] listener.  [downloadSpeed] is the value the
    closure captured; [now] is [Date.now()]. *)
Definition on_download_progress (downloadSpeed : Q) (now : Q)
    (data : Event.DownloadProgress) (s : State) : State :=
  if (Event.status data =? "downloading")%string then
    let s := setProgress (Event.progress data) s in
    let currentBytes := or_zero (Event.downloaded_bytes data) in
    let total := or_zero (Event.total_bytes data) in
    let s :=
      if Qltb 0 currentBytes then
        let s := withTracking (setDownloadedBytes currentBytes) s in
        let s := withTracking (setTotalBytes total) s in
        let s := withTracking (update_speed now currentBytes) s in
        withTracking (update_eta downloadSpeed total currentBytes) s
      else if truthy_number (Event.speed_bps data) then
        withTracking (setDownloadSpeed (fun _ => or_zero (Event.speed_bps data))) s
      else s in
    if (Z.rem (Qfloor (Event.progress data)) 10 =? 0)%Z then
      addLog Ui.LogProgress (Event.message data) s
    else s
  else if (Event.status data =? "completed")%string then
    let s := setProgress 100 s in
    let s := setStatus completed s in
    let s := setIsDownloading false s in
    let s := withTracking (setDownloadSpeed (fun _ => 0)) s in
    let s := withTracking (setEta None) s in
    let s := withTracking (setDownloadedBytes 0) s in
    let s := withTracking (setTotalBytes 0) s in
    let s := withTracking (setDownloadStartTime None) s in
    let s := withTracking (setLastProgressUpdate None) s in
    let s := addLog Ui.LogSuccess (Event.message data) s in
    let s := perform LoadHistory s in
    perform (ShowNotification "Download Complete"
               (match Js.or_nullable (Event.filename data)
                        (Some "Video downloaded successfully") with
                | Some body => body
                | None => ""
                end)) s
  else if (Event.status data =? "info")%string then
    addLog Ui.LogInfo (Event.message data) s
  else if (Event.status data =? "error")%string then
    let s := setStatus error s in
    let s := setIsDownloading false s in
    let s := withTracking (setDownloadSpeed (fun _ => 0)) s in
    let s := withTracking (setEta None) s in
    addLog Ui.LogError (Event.message data) s
  else s.

(** The listener is created inside [useEffect(() => {...}, [])]: the effect
    runs once, after the first render, so the [downloadSpeed] its closure
    reads is the one of that render, the initial value of
    [useState(0)]. *)
Definition mounted_listener : Q -> Event.DownloadProgress -> State -> State :=
  on_download_progress (downloadSpeed initial_tracking).

(** The listener a render with the current state would create: the same
    code reading the [downloadSpeed] of the state it is applied to.  This is
    not what [App] registers; it is here for comparison. *)
Definition fresh_listener (now : Q) (data : Event.DownloadProgress) (s : State) : State :=
  on_download_progress (downloadSpeed (tracking s)) now data s.

(** [x % m] for [x >= 0] and [m > 0]. *)
Definition remainder (x m : Q) : Q := x - m * inject_Z (Qfloor (x / m)).

(** [n.toString().padStart(2, "0")] for an integer [n >= 0]. *)
Definition pad2 (n : Z) : string :=
  let s := Js.toString (Z.to_N n) in
  if (String.length s <? 2)%nat then ("0" ++ s)%string else s.

(** Format seconds to human readable time.  A [Q] is always finite, which
    is what [isFinite] asks; the divisions of this program that produce an
    ETA are guarded against a zero divisor.  The quotients are exact here;
    those of the platform are rounded, which leaves their integer parts as
    they are for an ETA below 2^53 seconds and not above. *)
Definition formatEta (seconds : option Q) : string :=
  match seconds with
  | None => "--:--"%string
  | Some seconds =>
      if Qle_bool seconds 0 then "--:--"%string
      else
        let hours := Qfloor (seconds / 3600) in
        let minutes := Qfloor (remainder seconds 3600 / 60) in
        let secs := Qfloor (remainder seconds 60) in
        if (0 <? hours)%Z then
          (Js.toString (Z.to_N hours) ++ ":" ++ pad2 minutes ++ ":" ++ pad2 secs)%string
        else
          (Js.toString (Z.to_N minutes) ++ ":" ++ pad2 secs)%string
  end.

(** The ETA label of the progress panel:
    [isDownloading && eta !== null && eta > 0 && <span>...</span>]. *)
Definition progress_eta (s : State) : option string :=
  match eta (tracking s) with
  | Some v =>
      if (isDownloading s && Qltb 0 v)%bool
      then Some (formatEta (Some v) ++ " remaining")%string
      else None
  | None => None
  end.

(** [filename.trim() || null] *)
Definition trimmed_or_null (s : string) : option string :=
  if (Js.trim s =? "")%string then None else Some (Js.trim s).

(** The arguments [handleDownload] passes to [download_video]. *)
Definition download_request (f : Form) : DownloadRequest :=
  {| r_url := Js.trim (url f);
     r_outputDir := outputDir f;
     r_outputFilename := trimmed_or_null (filename f);
     r_quality := quality f |}.

(** The [historyItem] built after [download_video] has resolved.  [now_ms] is
    [Date.now()], [now_iso] is [new Date().toISOString()]. *)
Definition historyItem (f : Form) (now_ms : N) (now_iso : string) : HistoryItem :=
  {| id := Js.toString now_ms;
     h_url := Js.trim (url f);
     h_title :=
       match videoInfo f with
       | Some vi => Js.or_string (title vi) (Js.or_string (filename f) "Unknown")
       | None => Js.or_string (filename f) "Unknown"
       end;
     h_thumbnail :=
       match videoInfo f with
       | Some vi => Js.or_string (thumbnail vi) ""
       | None => ""
       end;
     h_filename := Js.or_string (filename f) "video.mp4";
     h_quality := quality f;
     downloaded_at := now_iso;
     file_path := (outputDir f ++ "/" ++ Js.or_string (filename f) "video.mp4")%string;
     file_size := None |}.

(** [handleDownload] up to its [await invoke("download_video", ...)]. *)
Definition handleDownload_begin (now : Q) (s : State) : State :=
  if (Js.trim (url (form s)) =? "")%string then
    addLog Ui.LogError "Please enter a video URL" s
  else
    let s := setIsDownloading true s in
    let s := setStatus downloading s in
    let s := setProgress 0 s in
    let s := withTracking (setDownloadSpeed (fun _ => 0)) s in
    let s := withTracking (setDownloadedBytes 0) s in
    let s := withTracking (setTotalBytes 0) s in
    let s := withTracking (setEta None) s in
    let s := withTracking (setDownloadStartTime (Some now)) s in
    let s := withTracking (setLastProgressUpdate None) s in
    let s := addLog Ui.LogInfo ("Starting download: " ++ url (form s)) s in
    perform (Invoke_download_video (download_request (form s))) s.

(** [handleDownload] from the point where [download_video] has settled with
    [result]; [f] is the form as the handler's closure holds it, and
    [added] is the outcome of [add_to_history]. *)
Definition handleDownload_end (f : Form) (result : Js.Promise string)
    (added : Js.Promise unit) (now_ms : N) (now_iso : string) (s : State) : State :=
  let s :=
    match result with
    | Js.Resolved message =>
        let s := perform (Invoke_add_to_history (historyItem f now_ms now_iso)) s in
        match added with
        | Js.Resolved _ => addLog Ui.LogSuccess message s
        | Js.Rejected e => addLog Ui.LogError ("Error: " ++ e) (setStatus error s)
        end
    | Js.Rejected e => addLog Ui.LogError ("Error: " ++ e) (setStatus error s)
    end in
  setIsDownloading false s.

(** A whole run of [handleDownload] with no progress event in between. *)
Definition handleDownload (now : Q) (result : Js.Promise string)
    (added : Js.Promise unit) (now_ms : N) (now_iso : string) (s : State) : State :=
  if (Js.trim (url (form s)) =? "")%string then handleDownload_begin now s
  else handleDownload_end (form s) result added now_ms now_iso (handleDownload_begin now s).

(** The history records a run has sent to [add_to_history]. *)
Definition history_records (s : State) : list HistoryItem :=
  flat_map (fun e => match e with Invoke_add_to_history item => [item] | _ => [] end)
           (effects s).

(** The requests a run has sent to [download_video]. *)
Definition download_requests (s : State) : list DownloadRequest :=
  flat_map (fun e => match e with Invoke_download_video r => [r] | _ => [] end)
           (effects s).

End DownloadTab.

(** ** The speed tracking in binary64

    The part of the [download-progress] listener that feeds the download
    speed (lines 339 to 413): the state variable [downloadSpeed] and the ref
    [lastProgressUpdate], on Rocq's primitive floats.  These are the
    binary64 numbers of IEEE 754 with round to nearest, ties to even, which
    is the arithmetic ECMAScript prescribes for its numbers.  The other
    state variables the listener sets do not feed back into the speed and
    are left out. *)

Module Binary64.

Import Floats.
Local Open Scope float_scope.

(** The fields of a [download-progress] payload that the speed depends
    on. *)
Module Event.
Record DownloadProgress := {
  status : string;
  downloaded_bytes : option float;
  speed_bps : option float
}.
End Event.

Record Tracking := {
  downloadSpeed : float;
  lastProgressUpdate : option (float * float)   (* time, bytes *)
}.

(** Initial values of [useState(0)] and [useRef(null)]. *)
Definition initial_tracking : Tracking :=
  {| downloadSpeed := 0; lastProgressUpdate := None |}.

(** Truthiness of a number: neither zero (of either sign) nor NaN. *)
Definition truthy (x : float) : bool := negb ((x =? 0) || is_nan x).

(** [x || 0] on an optional number. *)
Definition or_zero (x : option float) : float :=
  match x with
  | Some v => if truthy v then v else 0
  | None => 0
  end.

(** [prev === 0 ? instantSpeed : prev * 0.7 + instantSpeed * 0.3] *)
Definition smooth (instantSpeed prev : float) : float :=
  if prev =? 0 then instantSpeed else prev * 0.7 + instantSpeed * 0.3.

(** The speed block of the listener (lines 354 to 368), run when
    [currentBytes > 0]. *)
Definition update_speed (now currentBytes : float) (t : Tracking) : Tracking :=
  match lastProgressUpdate t with
  | Some (time, bytes) =>
      let timeDiff := (now - time) / 1000 in
      let bytesDiff := currentBytes - bytes in
      if 0.1 <? timeDiff then
        let instantSpeed := bytesDiff / timeDiff in
        {| downloadSpeed := smooth instantSpeed (downloadSpeed t);
           lastProgressUpdate := Some (now, currentBytes) |}
      else t
  | None =>
      {| downloadSpeed := downloadSpeed t;
         lastProgressUpdate := Some (now, currentBytes) |}
  end.

(** The listener, as far as the speed goes; [now] is [Date.now()]. *)
Definition on_download_progress (now : float) (data : Event.DownloadProgress)
    (t : Tracking) : Tracking :=
  if (Event.status data =? "downloading")%string then
    let currentBytes := or_zero (Event.downloaded_bytes data) in
    if 0 <? currentBytes then update_speed now currentBytes t
    else
      match Event.speed_bps data with
      | Some v =>
          if truthy v
          then {| downloadSpeed := v; lastProgressUpdate := lastProgressUpdate t |}
          else t
      | None => t
      end
  else if (Event.status data =? "completed")%string then
    {| downloadSpeed := 0; lastProgressUpdate := None |}
  else if (Event.status data =? "info")%string then t
  else if (Event.status data =? "error")%string then
    {| downloadSpeed := 0; lastProgressUpdate := lastProgressUpdate t |}
  else t.

(** A progress event that reports [bytes] downloaded. *)
Definition downloading (bytes : float) : Event.DownloadProgress :=
  {| Event.status := "downloading";
     Event.downloaded_bytes := Some bytes;
     Event.speed_bps := None |}.

End Binary64.

(** ** The queue tab *)

Module Queue.

Inductive Status := Pending | Downloading | Paused | Completed | Failed | Cancelled.

Definition Status_eqb (a b : Status) : bool :=
  match a, b with
  | Pending, Pending | Downloading, Downloading | Paused, Paused
  | Completed, Completed | Failed, Failed | Cancelled, Cancelled => true
  | _, _ => false
  end.

Record QueueItem := {
  id : string;
  url : string;
  title : string;
  thumbnail : string;
  quality : string;
  output_dir : string;
  output_filename : string;
  status : Status;
  progress : Q;
  speed : string;
  eta : string;
  error : option string;
  file_path : option string;
  added_at : string
}.

(** Payload of a [queue-progress] event. *)
Module Event.
Record QueueProgress := {
  id : string;
  status : Status;
  progress : Q;
  speed : string;
  eta : string;
  message : string;
  file_path : option string
}.
End Event.

(** Arguments of the [queue_add] command. *)
Module Args.
Record queue_add := {
  url : string;
  title : string;
  thumbnail : string;
  quality : string;
  outputDir : string;
  outputFilename : string
}.
End Args.

Record AppSettings := {
  default_download_dir : string;
  default_quality : string;
  max_concurrent_downloads : Z;
  auto_start_queue : bool;
  show_notifications : bool;
  minimize_to_tray : bool;
  theme : string
}.

(** The initial value of the settings state. *)
Definition initial_settings : AppSettings :=
  {| default_download_dir := ""; default_quality := "auto";
     max_concurrent_downloads := 2; auto_start_queue := true;
     show_notifications := true; minimize_to_tray := false; theme := "dark" |}.

(** *** The [queue-progress] listener (lines 317 to 330)

    [{...item, status, progress, speed, eta, file_path: data.file_path || item.file_path}] *)
Definition merge_progress (data : Event.QueueProgress) (item : QueueItem) : QueueItem :=
  {| id := id item; url := url item; title := title item;
     thumbnail := thumbnail item; quality := quality item;
     output_dir := output_dir item; output_filename := output_filename item;
     status := Event.status data;
     progress := Event.progress data;
     speed := Event.speed data;
     eta := Event.eta data;
     error := error item;
     file_path := Js.or_nullable (Event.file_path data) (file_path item);
     added_at := added_at item |}.

(** [setQueue(prev => prev.map(item => item.id === data.id ? {...} : item))].
    The notification and the history reload that follow for a [Completed]
    event do not touch the queue. *)
Definition on_queue_progress (data : Event.QueueProgress) (prev : list QueueItem)
  : list QueueItem :=
  map (fun item => if (id item =? Event.id data) then merge_progress data item else item)
      prev.

(** *** The buttons of one queue row (lines 1257 to 1337) *)

Inductive Handler :=
| On_moveQueueItem (direction : Z)
| On_pauseQueueItem
| On_resumeQueueItem
| On_handleOpenFile (path : string)
| On_cancelQueueItem
| On_removeFromQueue.

Record Button := { button_title : string; onClick : Handler; disabled : bool }.

Definition when {A : Type} (c : bool) (l : list A) : list A := if c then l else [].

Definition queue_item_actions (item : QueueItem) (index length : nat) : list Button :=
  (* Move buttons *)
  when (Status_eqb (status item) Pending)
    [ {| button_title := "Move up"; onClick := On_moveQueueItem (-1);
         disabled := Nat.eqb index 0 |};
      {| button_title := "Move down"; onClick := On_moveQueueItem 1;
         disabled := (Z.of_nat index =? Z.of_nat length - 1)%Z |} ]
  (* Pause/Resume *)
  ++ when (Status_eqb (status item) Downloading)
    [ {| button_title := "Pause"; onClick := On_pauseQueueItem; disabled := false |} ]
  ++ when (Status_eqb (status item) Paused)
    [ {| button_title := "Resume"; onClick := On_resumeQueueItem; disabled := false |} ]
  (* Retry *)
  ++ when (Status_eqb (status item) Failed)
    [ {| button_title := "Retry"; onClick := On_resumeQueueItem; disabled := false |} ]
  (* Open file *)
  ++ when (Status_eqb (status item) Completed && Js.truthy (file_path item))
    [ {| button_title := "Play";
         onClick := On_handleOpenFile (match file_path item with Some p => p | None => "" end);
         disabled := false |} ]
  (* Cancel/Remove *)
  ++ when (Status_eqb (status item) Pending || Status_eqb (status item) Paused)
    [ {| button_title := "Cancel"; onClick := On_cancelQueueItem; disabled := false |} ]
  ++ when (Status_eqb (status item) Completed || Status_eqb (status item) Failed
           || Status_eqb (status item) Cancelled)
    [ {| button_title := "Remove"; onClick := On_removeFromQueue; disabled := false |} ].

(** A row offers a handler when one of its buttons calls it. *)
Definition is_move (h : Handler) : bool :=
  match h with On_moveQueueItem _ => true | _ => false end.
Definition is_remove (h : Handler) : bool :=
  match h with On_removeFromQueue => true | _ => false end.
Definition is_cancel (h : Handler) : bool :=
  match h with On_cancelQueueItem => true | _ => false end.
Definition is_resume (h : Handler) : bool :=
  match h with On_resumeQueueItem => true | _ => false end.

Definition offers (p : Handler -> bool) (item : QueueItem) (index length : nat) : bool :=
  existsb (fun b => p (onClick b)) (queue_item_actions item index length).

(** *** The [queue_add] request of [addToQueue] (lines 467 to 474) *)

(** The character class of the file name pattern: less-than, greater-than,
    colon, double quote, slash, backslash, bar, question mark, star. *)
Definition is_reserved (c : ascii) : bool :=
  let n := nat_of_ascii c in
  existsb (Nat.eqb n) [60; 62; 58; 34; 47; 92; 124; 63; 42].

(** [title.replace(pattern, underscore)], the pattern having the [g] flag. *)
Fixpoint sanitize (s : string) : string :=
  match s with
  | EmptyString => EmptyString
  | String c s' => String (if is_reserved c then "_"%char else c) (sanitize s')
  end.

Definition queue_add_request (f : DownloadTab.Form) : option Args.queue_add :=
  match DownloadTab.videoInfo f with
  | None => None
  | Some videoInfo =>
      Some {| Args.url := Js.trim (DownloadTab.url f);
              Args.title := Js.or_string (DownloadTab.title videoInfo) "Unknown";
              Args.thumbnail := Js.or_string (DownloadTab.thumbnail videoInfo) "";
              Args.quality := DownloadTab.quality f;
              Args.outputDir := DownloadTab.outputDir f;
              Args.outputFilename :=
                Js.or_string (DownloadTab.filename f)
                  (Js.or_string (sanitize (DownloadTab.title videoInfo) ++ ".mp4")
                                "video.mp4") |}
  end.

(** *** The queue commands of the back end

    The commands live in the Tauri back end, which is not part of the front
    end source.  Each is modelled from the specification's state machine,
    acting on the list of items the back end owns; a command addresses the
    first item that carries the id it is given. *)

Definition is_pending (item : QueueItem) : bool := Status_eqb (status item) Pending.
Definition is_downloading (item : QueueItem) : bool := Status_eqb (status item) Downloading.
Definition is_terminal (item : QueueItem) : bool :=
  (Status_eqb (status item) Completed || Status_eqb (status item) Failed
   || Status_eqb (status item) Cancelled)%bool.

Definition set_status (s : Status) (item : QueueItem) : QueueItem :=
  {| id := id item; url := url item; title := title item;
     thumbnail := thumbnail item; quality := quality item;
     output_dir := output_dir item; output_filename := output_filename item;
     status := s; progress := progress item; speed := speed item;
     eta := eta item; error := error item; file_path := file_path item;
     added_at := added_at item |}.

Definition set_progress (p : Q) (speed' eta' : string) (item : QueueItem) : QueueItem :=
  {| id := id item; url := url item; title := title item;
     thumbnail := thumbnail item; quality := quality item;
     output_dir := output_dir item; output_filename := output_filename item;
     status := status item; progress := p; speed := speed'; eta := eta';
     error := error item; file_path := file_path item;
     added_at := added_at item |}.

Definition set_error (e : option string) (item : QueueItem) : QueueItem :=
  {| id := id item; url := url item; title := title item;
     thumbnail := thumbnail item; quality := quality item;
     output_dir := output_dir item; output_filename := output_filename item;
     status := status item; progress := progress item; speed := speed item;
     eta := eta item; error := e; file_path := file_path item;
     added_at := added_at item |}.

Definition set_file_path (p : option string) (item : QueueItem) : QueueItem :=
  {| id := id item; url := url item; title := title item;
     thumbnail := thumbnail item; quality := quality item;
     output_dir := output_dir item; output_filename := output_filename item;
     status := status item; progress := progress item; speed := speed item;
     eta := eta item; error := error item; file_path := p;
     added_at := added_at item |}.

(** Modelled from the spec: how a back end command keyed by id reaches its
    item.  The missing part is the back end's lookup; [f] is applied to the
    first item whose id is [i], and the command is rejected when there is no
    such item or when [f] rejects it. *)
Fixpoint with_item (i : string) (f : QueueItem -> Js.Promise QueueItem)
    (items : list QueueItem) : Js.Promise (list QueueItem) :=
  match items with
  | [] => Js.Rejected "Item not found"
  | item :: rest =>
      if (id item =? i) then
        match f item with
        | Js.Resolved item' => Js.Resolved (item' :: rest)
        | Js.Rejected e => Js.Rejected e
        end
      else
        match with_item i f rest with
        | Js.Resolved rest' => Js.Resolved (item :: rest')
        | Js.Rejected e => Js.Rejected e
        end
  end.

(** The first item whose id is [i], as [Array.prototype.find] returns it. *)
Definition find_item (i : string) (items : list QueueItem) : option QueueItem :=
  find (fun item => id item =? i) items.

(** Modelled from the spec: the item [queue_add] creates.  The missing part
    is the back end's [queue_add]; the spec gives a created item its request
    fields, the status [Pending], no error and no final file path. *)
Definition new_item (i : string) (args : Args.queue_add) (now : string) : QueueItem :=
  {| id := i; url := Args.url args; title := Args.title args;
     thumbnail := Args.thumbnail args; quality := Args.quality args;
     output_dir := Args.outputDir args; output_filename := Args.outputFilename args;
     status := Pending; progress := 0%Q; speed := ""; eta := "";
     error := None; file_path := None; added_at := now |}.

(** Modelled from the spec: [queue_start_download], the admission of a
    [Pending] item ([Pending -> Downloading]).  The missing part is the back
    end command of that name. *)
Definition queue_start_download (i : string) : list QueueItem -> Js.Promise (list QueueItem) :=
  with_item i (fun item =>
    match status item with
    | Pending => Js.Resolved (set_status Downloading item)
    | _ => Js.Rejected "Item is not pending"
    end).

(** Modelled from the spec: [queue_pause] ([Downloading -> Paused]).  The
    missing part is the back end command of that name. *)
Definition queue_pause (i : string) : list QueueItem -> Js.Promise (list QueueItem) :=
  with_item i (fun item =>
    match status item with
    | Downloading => Js.Resolved (set_status Paused item)
    | _ => Js.Rejected "Item is not downloading"
    end).

(** Modelled from the spec: [queue_resume], the command behind both the
    Resume button of a [Paused] row and the Retry button of a [Failed] row.
    The missing part is the back end command of that name.  The state
    machine of the spec has [Paused -> Downloading] for a resumed item and
    [Failed -> Pending] for the explicit retry, whose progress starts again
    at 0. *)
Definition queue_resume (i : string) : list QueueItem -> Js.Promise (list QueueItem) :=
  with_item i (fun item =>
    match status item with
    | Paused => Js.Resolved (set_status Downloading item)
    | Failed => Js.Resolved (set_progress 0%Q "" "" (set_status Pending item))
    | _ => Js.Rejected "Item is neither paused nor failed"
    end).

(** Modelled from the spec: [queue_cancel] (to [Cancelled] from [Pending],
    [Downloading] or [Paused]; cancellation is not an error and leaves
    [error] alone).  The missing part is the back end command of that
    name. *)
Definition queue_cancel (i : string) : list QueueItem -> Js.Promise (list QueueItem) :=
  with_item i (fun item =>
    match status item with
    | Pending | Downloading | Paused => Js.Resolved (set_status Cancelled item)
    | _ => Js.Rejected "Item is already finished"
    end).

(** Modelled from the spec: [queue_remove], the explicit removal of one
    item.  The missing part is the back end command of that name. *)
Fixpoint queue_remove (i : string) (items : list QueueItem) : Js.Promise (list QueueItem) :=
  match items with
  | [] => Js.Rejected "Item not found"
  | item :: rest =>
      if (id item =? i) then Js.Resolved rest
      else
        match queue_remove i rest with
        | Js.Resolved rest' => Js.Resolved (item :: rest')
        | Js.Rejected e => Js.Rejected e
        end
  end.

(** Modelled from the spec: [queue_clear_completed], which clears the items
    that are terminal for scheduling ([Completed], [Failed], [Cancelled]).
    The missing part is the back end command of that name. *)
Definition queue_clear_completed (items : list QueueItem) : Js.Promise (list QueueItem) :=
  Js.Resolved (filter (fun item => negb (is_terminal item)) items).

(** Modelled from the spec: the errors that fail a running task. *)
Inductive TaskError :=
| SegmentFetchExhausted (index : N)
| MuxError (kind : string).

(** Modelled from the spec: the text recorded as the item's error.  The
    missing part is the back end's rendering of its errors. *)
Definition describe (e : TaskError) : string :=
  match e with
  | SegmentFetchExhausted index => "SegmentFetchExhausted{" ++ Js.toString index ++ "}"
  | MuxError kind => "MuxError{" ++ kind ++ "}"
  end.

(** Modelled from the spec: what a running transfer reports about its item. *)
Inductive Transfer :=
| Progressed (percent : Q) (speed eta : string)
| Finished (path : string)
| Died (e : TaskError).

(** Modelled from the spec: the transition a transfer report causes on a
    [Downloading] item ([Downloading -> Completed | Failed], the error being
    recorded on the item).  The missing part is the back end's download
    task. *)
Definition transfer_update (t : Transfer) (item : QueueItem) : Js.Promise QueueItem :=
  match status item with
  | Downloading =>
      Js.Resolved
        match t with
        | Progressed percent speed' eta' => set_progress percent speed' eta' item
        | Finished path =>
            set_file_path (Some path) (set_progress 100%Q "" "" (set_status Completed item))
        | Died e => set_error (Some (describe e)) (set_status Failed item)
        end
  | _ => Js.Rejected "Item is not downloading"
  end.

(** Modelled from the spec: the [queue-progress] event the back end emits
    for an item. *)
Definition progress_event (message : string) (item : QueueItem) : Event.QueueProgress :=
  {| Event.id := id item; Event.status := status item;
     Event.progress := progress item; Event.speed := speed item;
     Event.eta := eta item; Event.message := message;
     Event.file_path := file_path item |}.

(** *** The application: the back end's list and the front end's copy

    [backend] is the list the back end owns; [queue] is the React state the
    handlers of a render read; [loadQueue] copies the former into the
    latter.  A handler is run to its end, its reload included, before the
    next one starts: interleavings of their awaits are not modelled. *)

Record World := {
  backend : list QueueItem;
  queue : list QueueItem;
  isProcessingQueue : bool;
  settings : AppSettings;
  logs : list Ui.LogEntry
}.

Definition set_backend (b : list QueueItem) (w : World) : World :=
  {| backend := b; queue := queue w; isProcessingQueue := isProcessingQueue w;
     settings := settings w; logs := logs w |}.

Definition setQueue (q : list QueueItem) (w : World) : World :=
  {| backend := backend w; queue := q; isProcessingQueue := isProcessingQueue w;
     settings := settings w; logs := logs w |}.

Definition addLog (t : Ui.LogType) (m : string) (w : World) : World :=
  {| backend := backend w; queue := queue w; isProcessingQueue := isProcessingQueue w;
     settings := settings w; logs := Ui.addLog t m (logs w) |}.

(** Load queue from backend: [setQueue(await invoke("queue_get_items"))]. *)
Definition loadQueue (w : World) : World := setQueue (backend w) w.

(** The loop of [processQueue]: one [await invoke("queue_start_download")]
    per item, the first rejection leaving the loop through [catch]. *)
Fixpoint start_downloads (items : list QueueItem) (b : list QueueItem)
  : list QueueItem * option string :=
  match items with
  | [] => (b, None)
  | item :: rest =>
      match queue_start_download (id item) b with
      | Js.Resolved b' => start_downloads rest b'
      | Js.Rejected e => (b, Some e)
      end
  end.

(** The items a pass of [processQueue] starts, read from the [queue] and the
    [settings] of the render [c] that created the function. *)
Definition pendingItems (c : World) : list QueueItem := filter is_pending (queue c).
Definition activeCount (c : World) : Z :=
  Z.of_nat (List.length (filter is_downloading (queue c))).
Definition availableSlots (c : World) : Z :=
  max_concurrent_downloads (settings c) - activeCount c.
Definition admitted (c : World) : list QueueItem :=
  firstn (Z.to_nat (Z.min (Z.of_nat (List.length (pendingItems c))) (availableSlots c)))
         (pendingItems c).

(** [processQueue], as created by the render [c] and run on the world [w].
    [setIsProcessingQueue(true)] and the [finally] that undoes it leave the
    flag as it was. *)
Definition processQueue (c w : World) : World :=
  if isProcessingQueue c then w
  else
    match start_downloads (admitted c) (backend w) with
    | (b, None) => loadQueue (set_backend b w)
    | (b, Some e) => addLog Ui.LogError ("Queue processing error: " ++ e) (set_backend b w)
    end.

(** Auto-process queue when items are added or status changes: the body of
    the effect on [queue] and the two settings (lines 575 to 582). *)
Definition queue_effect (w : World) : World :=
  let pendingCount := Z.of_nat (List.length (filter is_pending (queue w))) in
  let activeCount := Z.of_nat (List.length (filter is_downloading (queue w))) in
  if ((0 <? pendingCount)%Z && (activeCount <? max_concurrent_downloads (settings w))%Z
      && auto_start_queue (settings w))%bool
  then processQueue w w
  else w.

(** A handler that invokes one command and reloads the queue. *)
Definition command (run : list QueueItem -> Js.Promise (list QueueItem))
    (failure : string) (w : World) : World :=
  match run (backend w) with
  | Js.Resolved b => loadQueue (set_backend b w)
  | Js.Rejected e => addLog Ui.LogError (failure ++ e) w
  end.

Definition removeFromQueue (i : string) : World -> World :=
  command (queue_remove i) "Failed to remove from queue: ".

Definition pauseQueueItem (i : string) : World -> World :=
  command (queue_pause i) "Failed to pause: ".

Definition cancelQueueItem (i : string) : World -> World :=
  command (queue_cancel i) "Failed to cancel: ".

Definition clearCompletedQueue : World -> World :=
  command queue_clear_completed "Failed to clear completed: ".

(** [resumeQueueItem]: the command, the reload, then a pass of the
    [processQueue] of the render the button belongs to. *)
Definition resumeQueueItem (i : string) (w : World) : World :=
  match queue_resume i (backend w) with
  | Js.Resolved b => loadQueue (processQueue w (set_backend b w))
  | Js.Rejected e => addLog Ui.LogError ("Failed to resume: " ++ e) w
  end.

Section Enqueue.

(** Modelled from the spec: the id the back end gives to the item it
    creates.  The missing part is the back end's id generator, a parameter
    here; the spec says of it that the id is new. *)
Variable new_id : list QueueItem -> string.

(** Modelled from the spec: [queue_add] creates the item at the end of
    the list and returns its new id.  The missing part is the back end
    command of that name. *)
Definition queue_add (args : Args.queue_add) (now : string) (items : list QueueItem)
  : Js.Promise (string * list QueueItem) :=
  let i := new_id items in
  Js.Resolved (i, (items ++ [new_item i args now])%list).

(** [addToQueue], for the form [f]; [now] is the back end's clock.  The
    [processQueue] it calls is the one of the render the button belongs to,
    which has not seen the new item; the clearing of the form is left
    out. *)
Definition addToQueue (f : DownloadTab.Form) (now : string) (w : World) : World :=
  match queue_add_request f with
  | None => addLog Ui.LogError "Please fetch video info first" w
  | Some args =>
      match queue_add args now (backend w) with
      | Js.Resolved (_, b) =>
          let shown := match DownloadTab.videoInfo f with
                       | Some videoInfo => DownloadTab.title videoInfo
                       | None => ""
                       end in
          let w' := addLog Ui.LogSuccess ("Added to queue: " ++ shown) (set_backend b w) in
          (* Auto-start if enabled *)
          let w' := if auto_start_queue (settings w) then processQueue w w' else w' in
          loadQueue w'
      | Js.Rejected e => addLog Ui.LogError ("Failed to add to queue: " ++ e) w
      end
  end.

(** Modelled from the spec: a report of a running transfer.  The missing
    part is the back end's download task; it updates its item and emits the
    event, which the listener of the front end merges into [queue]. *)
Definition transfer (i : string) (t : Transfer) (w : World) : World :=
  match with_item i (transfer_update t) (backend w) with
  | Js.Resolved b =>
      match find_item i b with
      | Some item =>
          setQueue (on_queue_progress (progress_event "" item) (queue w)) (set_backend b w)
      | None => set_backend b w
      end
  | Js.Rejected _ => w
  end.

(** What can happen to the application, one step at a time. *)
Inductive Op :=
| AddToQueue (f : DownloadTab.Form) (now : string)
| RemoveFromQueue (i : string)
| PauseQueueItem (i : string)
| ResumeQueueItem (i : string)
| CancelQueueItem (i : string)
| ClearCompletedQueue
| StartQueue
| QueueEffect
| TransferReport (i : string) (t : Transfer).

Definition step (w : World) (op : Op) : World :=
  match op with
  | AddToQueue f now => addToQueue f now w
  | RemoveFromQueue i => removeFromQueue i w
  | PauseQueueItem i => pauseQueueItem i w
  | ResumeQueueItem i => resumeQueueItem i w
  | CancelQueueItem i => cancelQueueItem i w
  | ClearCompletedQueue => clearCompletedQueue w
  | StartQueue => processQueue w w
  | QueueEffect => queue_effect w
  | TransferReport i t => transfer i t w
  end.

Definition run (w : World) (ops : list Op) : World := fold_left step ops w.

End Enqueue.

(** Modelled from the spec: an id generator for the back end.  The missing
    part is the generator of the back end; the spec says only that
    [queue_add] returns a new id, and this one returns an id longer than
    every id in use. *)
Definition fresh_id (items : list QueueItem) : string :=
  fold_right (fun item acc => if (String.length acc <=? String.length (id item))%nat
                              then String "q" (id item) else acc)
             "q" items.

(** *** What the theorems count *)

Definition ids (items : list QueueItem) : list string := map id items.
Definition active (items : list QueueItem) : nat := List.length (filter is_downloading items).
Definition waiting (items : list QueueItem) : nat := List.length (filter is_pending items).
Definition id_status (item : QueueItem) : string * Status := (id item, status item).
Definition status_of (i : string) (items : list QueueItem) : option Status :=
  option_map status (find_item i items).

(** The steps that take items out of the list. *)
Definition removes (op : Op) : bool :=
  match op with
  | RemoveFromQueue _ | ClearCompletedQueue => true
  | _ => false
  end.

(** The step resumes an item that is [Paused] in the back end's list. *)
Definition resumes_paused (w : World) (op : Op) : bool :=
  match op with
  | ResumeQueueItem i =>
      match status_of i (backend w) with
      | Some Paused => true
      | _ => false
      end
  | _ => false
  end.


(** The Retry button of a row. *)
Definition retry_button : Button :=
  {| button_title := "Retry"; onClick := On_resumeQueueItem; disabled := false |}.

(** [j] is the id of one of [items]. *)
Definition among (j : string) (items : list QueueItem) : bool :=
  existsb (String.eqb j) (ids items).

(** The front end's copy shows the ids and statuses of the back end's list,
    in the same order. *)
Definition agrees (w : World) : Prop :=
  map id_status (queue w) = map id_status (backend w).

(** Ids are unique and the copy is up to date. *)
Definition well_formed (w : World) : Prop :=
  NoDup (ids (backend w)) /\ agrees w.

(** No more [Downloading] items than the configured maximum. *)
Definition within_limit (w : World) : Prop :=
  (Z.of_nat (active (backend w)) <= max_concurrent_downloads (settings w))%Z.

(** No [Pending] item is left waiting while a slot is free. *)
Definition saturated (w : World) : Prop :=
  waiting (backend w) = 0%nat
  \/ (max_concurrent_downloads (settings w) <= Z.of_nat (active (backend w)))%Z.

Definition invariant (w : World) : Prop := well_formed w /\ within_limit w.

(** At most [k] items more than the maximum are [Downloading], in a well
    formed world. *)
Definition over_limit_by (k : nat) (w : World) : Prop :=
  well_formed w
  /\ (Z.of_nat (active (backend w))
      <= max_concurrent_downloads (settings w) + Z.of_nat k)%Z.

(** [w'] has the settings and the pass flag of [w]. *)
Definition same_configuration (w w' : World) : Prop :=
  settings w' = settings w /\ isProcessingQueue w' = isProcessingQueue w.

(** The effect of a status change of the item [i] on a list of ids and
    statuses. *)
Definition restatus (i : string) (s : Status) (l : list (string * Status))
  : list (string * Status) :=
  map (fun p => if (fst p =? i) then (fst p, s) else p) l.

End Queue.

(** ** Sample data for running the model *)

Module Examples.

Import Queue.

Definition item (i : string) (s : Status) (path : option string) : QueueItem :=
  {| id := i; url := "https://xn--12ca1ddhqak6ecxc9b.com/v/" ++ i; title := "EP." ++ i;
     thumbnail := ""; quality := "auto"; output_dir := "/d";
     output_filename := i ++ ".mp4"; status := s; progress := 0%Q;
     speed := ""; eta := ""; error := None; file_path := path; added_at := "t0" |}.

Definition completed_a : Event.QueueProgress :=
  {| Event.id := "a"; Event.status := Completed; Event.progress := 100%Q;
     Event.speed := ""; Event.eta := ""; Event.message := "done";
     Event.file_path := None |}.

Definition failed_b : Event.QueueProgress :=
  {| Event.id := "b"; Event.status := Failed; Event.progress := 40%Q;
     Event.speed := ""; Event.eta := ""; Event.message := "failed";
     Event.file_path := None |}.

Definition downloading_a : Event.QueueProgress :=
  {| Event.id := "a"; Event.status := Downloading; Event.progress := 10%Q;
     Event.speed := "1.0 MB/s"; Event.eta := "0:30"; Event.message := "";
     Event.file_path := Some "/d/a.part" |}.

Definition world (items : list QueueItem) (settings : AppSettings) : World :=
  {| backend := items; queue := items; isProcessingQueue := false;
     settings := settings; logs := [] |}.

(** The initial settings with auto-start switched off. *)
Definition manual_settings : AppSettings :=
  {| default_download_dir := ""; default_quality := "auto";
     max_concurrent_downloads := 2; auto_start_queue := false;
     show_notifications := true; minimize_to_tray := false; theme := "dark" |}.

Definition info : DownloadTab.VideoInfo :=
  {| DownloadTab.vi_url := "https://xn--12ca1ddhqak6ecxc9b.com/v/1";
     DownloadTab.title := "EP.1: part 2";
     DownloadTab.thumbnail := "";
     DownloadTab.duration := "";
     DownloadTab.qualities := ["720p"];
     DownloadTab.sources := [] |}.

Definition form (name : string) (vi : option DownloadTab.VideoInfo) : DownloadTab.Form :=
  {| DownloadTab.url := " https://xn--12ca1ddhqak6ecxc9b.com/v/1 ";
     DownloadTab.outputDir := "/d";
     DownloadTab.filename := name;
     DownloadTab.quality := "720p";
     DownloadTab.videoInfo := vi |}.

Definition download_state (name : string) : DownloadTab.State :=
  {| DownloadTab.form := form name None;
     DownloadTab.tracking := DownloadTab.initial_tracking;
     DownloadTab.progress := 0%Q;
     DownloadTab.status := DownloadTab.idle;
     DownloadTab.isDownloading := false;
     DownloadTab.logs := [];
     DownloadTab.effects := [] |}.

(** The download tab after a fetch has found [info]. *)
Definition fetched_state : DownloadTab.State :=
  {| DownloadTab.form := form "EP.1_ part 2.mp4" (Some info);
     DownloadTab.tracking := DownloadTab.initial_tracking;
     DownloadTab.progress := 0%Q;
     DownloadTab.status := DownloadTab.idle;
     DownloadTab.isDownloading := false;
     DownloadTab.logs := [];
     DownloadTab.effects := [] |}.

(** A progress event of a transfer of 10000 bytes. *)
Definition downloading (bytes : Q) : DownloadTab.Event.DownloadProgress :=
  {| DownloadTab.Event.status := "downloading";
     DownloadTab.Event.progress := (bytes / 100)%Q;
     DownloadTab.Event.message := "";
     DownloadTab.Event.filename := None;
     DownloadTab.Event.downloaded_bytes := Some bytes;
     DownloadTab.Event.total_bytes := Some 10000%Q;
     DownloadTab.Event.speed_bps := None |}.

(** A download that has received events at 1, 2 and 3 seconds, each 1000
    bytes further, through the listener [listen]. *)
Definition after_two_seconds
    (listen : Q -> DownloadTab.Event.DownloadProgress -> DownloadTab.State -> DownloadTab.State)
  : DownloadTab.State :=
  listen 2000%Q (downloading 2000%Q)
    (listen 1000%Q (downloading 1000%Q)
       (DownloadTab.handleDownload_begin 0%Q (download_state "a.mp4"))).

Definition after_three_seconds
    (listen : Q -> DownloadTab.Event.DownloadProgress -> DownloadTab.State -> DownloadTab.State)
  : DownloadTab.State :=
  listen 3000%Q (downloading 3000%Q) (after_two_seconds listen).

(** Three items are enqueued, the scheduler runs, the first download is
    paused, the third is admitted in its place, and the first is resumed. *)
Definition busy_day : list Op :=
  [ AddToQueue (form "" (Some info)) "t1";
    AddToQueue (form "" (Some info)) "t2";
    AddToQueue (form "" (Some info)) "t3";
    QueueEffect;
    PauseQueueItem "q";
    QueueEffect;
    ResumeQueueItem "q";
    QueueEffect ].

End Examples.

(** ** The rest of the download tab: clipboard, video info, buttons *)

Module Page.

Import DownloadTab.

Inductive UrlSource := manual | clipboard.

(** The download tab's state: what [DownloadTab.State] holds, and the state
    variables around the URL field and the quality selector. *)
Record State := {
  tab : DownloadTab.State;
  isFetchingInfo : bool;
  availableQualities : list string;
  showQualityDropdown : bool;
  clipboardDetected : bool;
  urlSource : option UrlSource
}.

Definition initial_state : State :=
  {| tab := DownloadTab.initial_state; isFetchingInfo := false;
     availableQualities := ["auto"]; showQualityDropdown := false;
     clipboardDetected := false; urlSource := None |}.

Definition setUrl (v : string) (f : Form) : Form :=
  {| url := v; outputDir := outputDir f; filename := filename f;
     quality := quality f; videoInfo := videoInfo f |}.

Definition setFilename (v : string) (f : Form) : Form :=
  {| url := url f; outputDir := outputDir f; filename := v;
     quality := quality f; videoInfo := videoInfo f |}.

Definition setQuality (v : string) (f : Form) : Form :=
  {| url := url f; outputDir := outputDir f; filename := filename f;
     quality := v; videoInfo := videoInfo f |}.

Definition setVideoInfo (v : option VideoInfo) (f : Form) : Form :=
  {| url := url f; outputDir := outputDir f; filename := filename f;
     quality := quality f; videoInfo := v |}.

Definition withForm (g : Form -> Form) (s : DownloadTab.State) : DownloadTab.State :=
  {| form := g (form s); tracking := tracking s; progress := progress s;
     status := status s; isDownloading := isDownloading s; logs := logs s;
     effects := effects s |}.

Definition withTab (g : DownloadTab.State -> DownloadTab.State) (p : State) : State :=
  {| tab := g (tab p); isFetchingInfo := isFetchingInfo p;
     availableQualities := availableQualities p;
     showQualityDropdown := showQualityDropdown p;
     clipboardDetected := clipboardDetected p; urlSource := urlSource p |}.

Definition setIsFetchingInfo (v : bool) (p : State) : State :=
  {| tab := tab p; isFetchingInfo := v;
     availableQualities := availableQualities p;
     showQualityDropdown := showQualityDropdown p;
     clipboardDetected := clipboardDetected p; urlSource := urlSource p |}.

Definition setAvailableQualities (v : list string) (p : State) : State :=
  {| tab := tab p; isFetchingInfo := isFetchingInfo p;
     availableQualities := v;
     showQualityDropdown := showQualityDropdown p;
     clipboardDetected := clipboardDetected p; urlSource := urlSource p |}.

Definition setClipboardDetected (v : bool) (p : State) : State :=
  {| tab := tab p; isFetchingInfo := isFetchingInfo p;
     availableQualities := availableQualities p;
     showQualityDropdown := showQualityDropdown p;
     clipboardDetected := v; urlSource := urlSource p |}.

Definition setUrlSource (v : option UrlSource) (p : State) : State :=
  {| tab := tab p; isFetchingInfo := isFetchingInfo p;
     availableQualities := availableQualities p;
     showQualityDropdown := showQualityDropdown p;
     clipboardDetected := clipboardDetected p; urlSource := v |}.

(** The URL of the form, and whether [url.trim()] is truthy. *)
Definition url_of (p : State) : string := url (form (tab p)).
Definition has_url (p : State) : bool := negb (Js.trim (url_of p) =? "")%string.

(** [onChange] of the URL field (lines 857 to 861). *)
Definition typeUrl (v : string) (p : State) : State :=
  setClipboardDetected false (setUrlSource (Some manual) (withTab (withForm (setUrl v)) p)).

(** The clear button of the URL field (lines 867 to 872). *)
Definition clearUrl (p : State) : State :=
  setUrlSource None (withTab (withForm (setVideoInfo None)) (withTab (withForm (setUrl "")) p)).

Section Clipboard.

(** The platform's [new URL(str)], as in [Url]. *)
Variable new_URL : string -> option Url.URL.

(** Check clipboard for valid URL (lines 213 to 240), as the render [c]
    creates it: [useCallback] ties the function to the [url],
    [isDownloading] and [isFetchingInfo] of that render, and these are what
    the guard reads.  [clipboardText] is the outcome of
    [navigator.clipboard.readText()], and [p] is the state the setters act
    on once the clipboard has been read; the timer that hides the indicator
    three seconds later is left out. *)
Definition checkClipboard (c : State) (clipboardText : Js.Promise string) (p : State)
  : State :=
  (* Don't check if already has URL or is busy *)
  if (has_url c || isDownloading (tab c) || isFetchingInfo c)%bool then p
  else
    match clipboardText with
    | Js.Rejected _ => p
    | Js.Resolved clipboardText =>
        let trimmed := Js.trim clipboardText in
        if Url.isValidUrl new_URL trimmed then
          let isSupported := Url.isSupportedUrl new_URL trimmed in
          let p := withTab (withForm (setUrl trimmed)) p in
          let p := setUrlSource (Some clipboard) p in
          let p := setClipboardDetected true p in
          if isSupported then
            withTab (addLog Ui.LogInfo "Detected URL from clipboard (supported site)") p
          else
            withTab (addLog Ui.LogInfo "Detected URL from clipboard (may not be supported)") p
        else p
    end.

(** Check on initial load and when the window gains focus (lines 243 to
    257): the effect depends on [checkClipboard], so it runs the function of
    the current render, once itself each time the function changes and
    again on every focus event. *)
Definition handleFocus (clipboardText : Js.Promise string) (p : State) : State :=
  checkClipboard p clipboardText p.

(** Ctrl+V or Cmd+V in [handleKeyDown] (lines 262 to 266).  The default
    paste happens first: when the URL field has the focus it goes through
    [onChange], and [pasted] is then the text of the field after the paste.
    100 ms later the timer calls the [checkClipboard] of the render in which
    the key was pressed. *)
Definition handleKeyDown_paste (pasted : option string)
    (clipboardText : Js.Promise string) (p : State) : State :=
  checkClipboard p clipboardText
    match pasted with
    | Some v => typeUrl v p
    | None => p
    end.

(** The line under the URL field (lines 892 to 906): nothing for a blank
    URL, else whether the site is supported. *)
Definition url_status (p : State) : option bool :=
  if has_url p then Some (Url.isSupportedUrl new_URL (url_of p)) else None.

End Clipboard.

(** [info.qualities[0] || "auto"] *)
Definition first_quality (qualities : list string) : string :=
  match qualities with
  | q :: _ => Js.or_string q "auto"
  | [] => "auto"
  end.

(** [handleFetchInfo] (lines 646 to 670); [result] is the outcome of
    [get_video_info]. *)
Definition handleFetchInfo (result : Js.Promise VideoInfo) (p : State) : State :=
  if has_url p then
    let asked := url_of p in
    let p := setIsFetchingInfo true p in
    let p := withTab (withForm (setVideoInfo None)) p in
    let p := withTab (addLog Ui.LogInfo ("Fetching video info: " ++ asked)) p in
    let p :=
      match result with
      | Js.Resolved info =>
          let p := withTab (withForm (setVideoInfo (Some info))) p in
          let p := setAvailableQualities
                     (if (0 <? List.length (qualities info))%nat
                      then qualities info else ["auto"]) p in
          let p := withTab (withForm (setQuality (first_quality (qualities info)))) p in
          let p := if (title info =? "")%string then p
                   else withTab (withForm
                                   (setFilename (Queue.sanitize (title info) ++ ".mp4"))) p in
          withTab (addLog Ui.LogSuccess ("Found: " ++ title info)) p
      | Js.Rejected e => withTab (addLog Ui.LogError ("Error: " ++ e)) p
      end in
    setIsFetchingInfo false p
  else withTab (addLog Ui.LogError "Please enter a video URL") p.

(** The buttons of the form (lines 879 to 890, 1003 to 1031). *)
Definition fetch_disabled (p : State) : bool :=
  (isDownloading (tab p) || isFetchingInfo p || negb (has_url p))%bool.

Definition download_disabled (p : State) : bool :=
  (isDownloading (tab p) || negb (has_url p))%bool.

Definition shows_add_to_queue (p : State) : bool :=
  match videoInfo (form (tab p)) with
  | Some _ => negb (isDownloading (tab p))
  | None => false
  end.

End Page.

(** ** The header of the queue tab and the settings tab *)

Module QueueTab.

Import Queue.

(** The badge of the Queue tab (lines 816 to 818): the number of items that
    are Pending or Downloading, shown when it is not 0. *)
Definition badge (queue : list QueueItem) : option nat :=
  let n := List.length
             (filter (fun i => (Status_eqb (status i) Pending
                                || Status_eqb (status i) Downloading)%bool) queue) in
  if (0 <? n)%nat then Some n else None.

(** The two buttons of the queue header (lines 1192 to 1203). *)
Definition shows_clear_completed (queue : list QueueItem) : bool :=
  existsb (fun i => (Status_eqb (status i) Completed
                     || Status_eqb (status i) Failed)%bool) queue.

Definition shows_start_queue (queue : list QueueItem) : bool :=
  existsb (fun i => Status_eqb (status i) Pending) queue.

Definition is_pause (h : Handler) : bool :=
  match h with On_pauseQueueItem => true | _ => false end.

(** The rows of the list: [queue.map((item, index) => ...)]. *)
Fixpoint rows_from (index length : nat) (queue : list QueueItem) : list (list Button) :=
  match queue with
  | [] => []
  | item :: rest =>
      queue_item_actions item index length :: rows_from (S index) length rest
  end.

Definition rows (queue : list QueueItem) : list (list Button) :=
  rows_from 0 (List.length queue) queue.

End QueueTab.

Module SettingsTab.

Import Queue.

(** The options of the two selects (lines 1381 to 1405). *)
Inductive QualityOption := Auto | P1080 | P720 | P480 | P360.

Definition quality_value (o : QualityOption) : string :=
  match o with
  | Auto => "auto" | P1080 => "1080p" | P720 => "720p"
  | P480 => "480p" | P360 => "360p"
  end.

(** The values the quality select can give. *)
Definition quality_options : list string :=
  map quality_value [Auto; P1080; P720; P480; P360].

Inductive ConcurrencyOption := One | Two | Three | Four | Five.

(** [parseInt(e.target.value)] on the value of the chosen option. *)
Definition concurrency_value (o : ConcurrencyOption) : Z :=
  match o with
  | One => 1 | Two => 2 | Three => 3 | Four => 4 | Five => 5
  end%Z.

(** What the user can do to the settings in the tab. *)
Inductive Edit :=
| Type_default_download_dir (v : string)
| Pick_default_download_dir (selected : option string)
| Select_default_quality (o : QualityOption)
| Select_max_concurrent_downloads (o : ConcurrencyOption)
| Check_auto_start_queue (checked : bool)
| Check_show_notifications (checked : bool).

(** [setSettings({ ...settings, field: value })] for each control. *)
Definition edit (e : Edit) (settings : AppSettings) : AppSettings :=
  match e with
  | Type_default_download_dir v =>
      {| default_download_dir := v;
         default_quality := default_quality settings;
         max_concurrent_downloads := max_concurrent_downloads settings;
         auto_start_queue := auto_start_queue settings;
         show_notifications := show_notifications settings;
         minimize_to_tray := minimize_to_tray settings;
         theme := theme settings |}
  | Pick_default_download_dir selected =>
      if Js.truthy selected then
        {| default_download_dir := match selected with Some v => v | None => "" end;
           default_quality := default_quality settings;
           max_concurrent_downloads := max_concurrent_downloads settings;
           auto_start_queue := auto_start_queue settings;
           show_notifications := show_notifications settings;
           minimize_to_tray := minimize_to_tray settings;
           theme := theme settings |}
      else settings
  | Select_default_quality o =>
      {| default_download_dir := default_download_dir settings;
         default_quality := quality_value o;
         max_concurrent_downloads := max_concurrent_downloads settings;
         auto_start_queue := auto_start_queue settings;
         show_notifications := show_notifications settings;
         minimize_to_tray := minimize_to_tray settings;
         theme := theme settings |}
  | Select_max_concurrent_downloads o =>
      {| default_download_dir := default_download_dir settings;
         default_quality := default_quality settings;
         max_concurrent_downloads := concurrency_value o;
         auto_start_queue := auto_start_queue settings;
         show_notifications := show_notifications settings;
         minimize_to_tray := minimize_to_tray settings;
         theme := theme settings |}
  | Check_auto_start_queue checked =>
      {| default_download_dir := default_download_dir settings;
         default_quality := default_quality settings;
         max_concurrent_downloads := max_concurrent_downloads settings;
         auto_start_queue := checked;
         show_notifications := show_notifications settings;
         minimize_to_tray := minimize_to_tray settings;
         theme := theme settings |}
  | Check_show_notifications checked =>
      {| default_download_dir := default_download_dir settings;
         default_quality := default_quality settings;
         max_concurrent_downloads := max_concurrent_downloads settings;
         auto_start_queue := auto_start_queue settings;
         show_notifications := checked;
         minimize_to_tray := minimize_to_tray settings;
         theme := theme settings |}
  end.

Definition edits (es : list Edit) (settings : AppSettings) : AppSettings :=
  fold_left (fun s e => edit e s) es settings.

End SettingsTab.

(** * Properties *)

(** ** URL checks *)

Lemma isValidUrl_spec (new_URL : string -> option Url.URL) (str : string) :
  Url.isValidUrl new_URL str = true <->
  exists url, new_URL str = Some url
              /\ (Url.protocol url = "http:" \/ Url.protocol url = "https:").
Proof.
  unfold Url.isValidUrl. destruct (new_URL str) as [url|].
  - rewrite orb_true_iff, !String.eqb_eq. split.
    + intros H. exists url. split; [reflexivity | exact H].
    + intros [url' [E H]]. injection E as ->. exact H.
  - split; [discriminate | intros [url [E _]]; discriminate].
Qed.

Lemma isSupportedUrl_spec (new_URL : string -> option Url.URL) (url : string) :
  Url.isSupportedUrl new_URL url = true <->
  exists urlObj, new_URL url = Some urlObj
                 /\ exists pattern, In pattern Url.SUPPORTED_SITES
                                    /\ Js.test pattern (Url.hostname urlObj) = true.
Proof.
  unfold Url.isSupportedUrl. destruct (new_URL url) as [urlObj|].
  - rewrite existsb_exists. split.
    + intros H. exists urlObj. split; [reflexivity | exact H].
    + intros [u [E H]]. injection E as ->. exact H.
  - split; [discriminate | intros [u [E _]]; discriminate].
Qed.

(** C10: the URL checks are total functions into [bool] whatever the
    platform parser does, a string the parser rejects is neither valid nor
    supported, [isValidUrl] holds exactly for a parsed URL whose protocol is
    [http:] or [https:], and [isSupportedUrl] holds exactly for a parsed URL
    whose host name matches one of the four site patterns. *)
Theorem url_checks_total_and_exact :
  forall new_URL : string -> option Url.URL,
    (forall str, new_URL str = None ->
                 Url.isValidUrl new_URL str = false
                 /\ Url.isSupportedUrl new_URL str = false)
    /\ (forall str, Url.isValidUrl new_URL str = true <->
                    exists url, new_URL str = Some url
                                /\ (Url.protocol url = "http:"
                                    \/ Url.protocol url = "https:"))
    /\ (forall str, Url.isSupportedUrl new_URL str = true <->
                    exists url, new_URL str = Some url
                                /\ exists pattern,
                                    In pattern Url.SUPPORTED_SITES
                                    /\ Js.test pattern (Url.hostname url) = true)
    /\ List.length Url.SUPPORTED_SITES = 4%nat.
Proof.
  intros new_URL. repeat split.
  - unfold Url.isValidUrl. rewrite H. reflexivity.
  - unfold Url.isSupportedUrl. rewrite H. reflexivity.
  - apply isValidUrl_spec.
  - apply isValidUrl_spec.
  - apply isSupportedUrl_spec.
  - apply isSupportedUrl_spec.
Qed.

Lemma url_checks_total_and_exact_witness :
  Url.example_URL "not a url" = None
  /\ Url.isValidUrl Url.example_URL "not a url" = false
  /\ Url.isSupportedUrl Url.example_URL "not a url" = false.
Proof.
  split; [reflexivity|].
  apply (proj1 (url_checks_total_and_exact Url.example_URL) "not a url").
  reflexivity.
Defined.

(** ** The queue-progress listener *)

Lemma or_nullable_keeps (a b : option string) :
  b <> None -> Js.or_nullable a b <> None.
Proof.
  unfold Js.or_nullable. destruct a as [s|]; [|auto].
  destruct (s =? ""); [auto | discriminate].
Qed.

(** C9: a queue-progress event changes only the rows whose id is the id of
    the event; every other row is kept as it is, field for field; the
    listener keeps the length and the ids of the list, and a row that has a
    file path never loses it. *)
Theorem queue_progress_updates_only_its_item :
  forall (data : Queue.Event.QueueProgress) (prev : list Queue.QueueItem),
    List.length (Queue.on_queue_progress data prev) = List.length prev
    /\ (forall n item,
           nth_error prev n = Some item ->
           Queue.id item <> Queue.Event.id data ->
           nth_error (Queue.on_queue_progress data prev) n = Some item)
    /\ (forall n item,
           nth_error prev n = Some item ->
           exists item',
             nth_error (Queue.on_queue_progress data prev) n = Some item'
             /\ Queue.id item' = Queue.id item
             /\ Queue.error item' = Queue.error item
             /\ (Queue.file_path item <> None -> Queue.file_path item' <> None)).
Proof.
  intros data prev. unfold Queue.on_queue_progress. repeat split.
  - apply length_map.
  - intros n item Hn Hid. rewrite nth_error_map, Hn. simpl.
    apply String.eqb_neq in Hid. rewrite Hid. reflexivity.
  - intros n item Hn. rewrite nth_error_map, Hn. simpl.
    destruct (Queue.id item =? Queue.Event.id data).
    + eexists. split; [reflexivity|]. simpl. repeat split.
      apply or_nullable_keeps.
    + exists item. repeat split. auto.
Qed.

Lemma queue_progress_updates_only_its_item_witness :
  nth_error
    (Queue.on_queue_progress Examples.completed_a
       [Examples.item "a" Queue.Downloading (Some "/d/a.mp4");
        Examples.item "b" Queue.Pending None]) 1
  = Some (Examples.item "b" Queue.Pending None).
Proof.
  apply (proj1 (proj2 (queue_progress_updates_only_its_item
                         Examples.completed_a
                         [Examples.item "a" Queue.Downloading (Some "/d/a.mp4");
                          Examples.item "b" Queue.Pending None]))
               1%nat (Examples.item "b" Queue.Pending None)).
  - reflexivity.
  - simpl. discriminate.
Defined.

Example queue_progress_keeps_file_path :
  map Queue.file_path
    (Queue.on_queue_progress Examples.completed_a
       [Examples.item "a" Queue.Downloading (Some "/d/a.mp4");
        Examples.item "b" Queue.Pending None])
  = [Some "/d/a.mp4"; None].
Proof. reflexivity. Qed.

(** ** The smoothed speed, in the arithmetic of the platform *)

Section SpeedFacts.

Import Floats Binary64.
Local Open Scope float_scope.

(** The two weights are the binary64 numbers nearest to 7/10 and 3/10. *)
Example weights :
  Prim2SF 0.7 = S754_finite false 6305039478318694 (-53)
  /\ Prim2SF 0.3 = S754_finite false 5404319552844595 (-54).
Proof. split; reflexivity. Qed.

(** C2: when a progress event yields a speed sample (the transfer is
    downloading, bytes have arrived, an earlier update is on record and more
    than 100 ms have passed since), the speed becomes the sample if the
    previous speed was 0 and [prev * 0.7 + sample * 0.3] otherwise, each
    operation rounded as the platform rounds it; the event becomes the
    update on record. *)
Theorem speed_is_exponential_moving_average :
  forall (now : float) (data : Event.DownloadProgress) (t : Tracking)
         (time bytes : float),
    Event.status data = "downloading"%string ->
    (0 <? or_zero (Event.downloaded_bytes data)) = true ->
    lastProgressUpdate t = Some (time, bytes) ->
    (0.1 <? (now - time) / 1000) = true ->
    let sample := (or_zero (Event.downloaded_bytes data) - bytes)
                  / ((now - time) / 1000) in
    let prev := downloadSpeed t in
    let next := downloadSpeed (on_download_progress now data t) in
    ((prev =? 0) = true -> next = sample)
    /\ ((prev =? 0) = false -> next = prev * 0.7 + sample * 0.3)
    /\ lastProgressUpdate (on_download_progress now data t)
       = Some (now, or_zero (Event.downloaded_bytes data)).
Proof.
  intros now data t time bytes Hs Hb Hl Ht sample prev next.
  assert (E : on_download_progress now data t
              = {| downloadSpeed := smooth sample prev;
                   lastProgressUpdate :=
                     Some (now, or_zero (Event.downloaded_bytes data)) |}).
  { unfold on_download_progress. rewrite Hs. simpl. rewrite Hb.
    unfold update_speed. rewrite Hl, Ht. reflexivity. }
  unfold next. rewrite E. simpl. unfold smooth.
  split; [intros H0; rewrite H0; reflexivity|].
  split; [intros H0; rewrite H0; reflexivity | reflexivity].
Qed.

(** At a previous speed of 1 and a sample of 2 bytes per second. *)
Lemma speed_is_exponential_moving_average_witness :
  downloadSpeed
    (on_download_progress 2000 (downloading 3)
       {| downloadSpeed := 1; lastProgressUpdate := Some (1000, 1) |})
  = 1.2999999999999998.
Proof.
  rewrite (proj1 (proj2 (speed_is_exponential_moving_average
                           2000 (downloading 3)
                           {| downloadSpeed := 1; lastProgressUpdate := Some (1000, 1) |}
                           1000 1 eq_refl eq_refl eq_refl eq_refl)) eq_refl).
  reflexivity.
Defined.

(** An event that reports bytes no more than 100 ms after the update on
    record is ignored by the speed tracking, whatever it reports: the speed
    and the record stay as they are, so the next event is measured against
    the update on record, as if the early one had not arrived. *)
Theorem early_event_is_absorbed :
  forall (now now' : float) (data data' : Event.DownloadProgress) (t : Tracking)
         (time bytes : float),
    Event.status data = "downloading"%string ->
    (0 <? or_zero (Event.downloaded_bytes data)) = true ->
    lastProgressUpdate t = Some (time, bytes) ->
    (0.1 <? (now - time) / 1000) = false ->
    on_download_progress now data t = t
    /\ on_download_progress now' data' (on_download_progress now data t)
       = on_download_progress now' data' t.
Proof.
  intros now now' data data' t time bytes Hs Hb Hl Ht.
  assert (E : on_download_progress now data t = t).
  { unfold on_download_progress. rewrite Hs. simpl. rewrite Hb.
    unfold update_speed. rewrite Hl, Ht. reflexivity. }
  rewrite E. split; reflexivity.
Qed.

(** An event exactly 100 ms after the update on record is an early one. *)
Lemma early_event_is_absorbed_witness :
  on_download_progress 1100 (downloading 5000)
    {| downloadSpeed := 1000; lastProgressUpdate := Some (1000, 1000) |}
  = {| downloadSpeed := 1000; lastProgressUpdate := Some (1000, 1000) |}.
Proof.
  apply (proj1 (early_event_is_absorbed
                  1100 0 (downloading 5000) (downloading 0)
                  {| downloadSpeed := 1000; lastProgressUpdate := Some (1000, 1000) |}
                  1000 1000 eq_refl eq_refl eq_refl eq_refl)).
Defined.

(** Rounding shows: at a steady 3 MiB per second the smoothed speed falls
    below both the previous speed and the sample. *)
Example steady_speed_is_rounded_down :
  smooth 3145728 3145728 = 3145727.9999999995
  /\ (smooth 3145728 3145728 <? 3145728) = true.
Proof. split; reflexivity. Qed.

(** The first sample of a download is taken as it is, and two samples of
    1000 bytes per second leave the speed at 1000. *)
Example first_samples :
  map downloadSpeed
      [ on_download_progress 1000 (downloading 1000) initial_tracking;
        on_download_progress 2000 (downloading 2000)
          (on_download_progress 1000 (downloading 1000) initial_tracking);
        on_download_progress 3000 (downloading 3000)
          (on_download_progress 2000 (downloading 2000)
             (on_download_progress 1000 (downloading 1000) initial_tracking)) ]
  = [0; 1000; 1000].
Proof. reflexivity. Qed.

End SpeedFacts.

(** ** The download tab: speed, ETA and history *)

Section DownloadTabFacts.

Import DownloadTab.
Local Open Scope Q_scope.

Lemma Qltb_lt (a b : Q) : Qltb a b = true <-> a < b.
Proof.
  unfold Qltb. rewrite negb_true_iff. split.
  - intros H. apply Qnot_le_lt. intros Hle.
    apply Qle_bool_iff in Hle. congruence.
  - intros H. destruct (Qle_bool b a) eqn:E; [|reflexivity].
    apply Qle_bool_iff in E. exfalso. exact (Qlt_not_le _ _ H E).
Qed.

Lemma tracking_addLog t m s : tracking (addLog t m s) = tracking s.
Proof. reflexivity. Qed.

Lemma downloadSpeed_update_eta c total cur t :
  downloadSpeed (update_eta c total cur t) = downloadSpeed t.
Proof. unfold update_eta. destruct (_ && _)%bool; reflexivity. Qed.

Lemma lastProgressUpdate_update_eta c total cur t :
  lastProgressUpdate (update_eta c total cur t) = lastProgressUpdate t.
Proof. unfold update_eta. destruct (_ && _)%bool; reflexivity. Qed.

(** The tracking state after a [downloading] event with bytes in it. *)
Lemma tracking_after_bytes captured now data s :
  Event.status data = "downloading"%string ->
  0 < or_zero (Event.downloaded_bytes data) ->
  tracking (on_download_progress captured now data s)
  = update_eta captured (or_zero (Event.total_bytes data))
      (or_zero (Event.downloaded_bytes data))
      (update_speed now (or_zero (Event.downloaded_bytes data))
         (setTotalBytes (or_zero (Event.total_bytes data))
            (setDownloadedBytes (or_zero (Event.downloaded_bytes data))
               (tracking s)))).
Proof.
  intros Hs Hb. unfold on_download_progress. rewrite Hs. simpl.
  apply Qltb_lt in Hb. rewrite Hb.
  destruct (Z.rem _ 10 =? 0)%Z; reflexivity.
Qed.

(** The other source of a speed: an event without bytes that carries the
    back end's own [speed_bps] sets the speed to it, with no smoothing. *)
Lemma speed_bps_is_taken_as_it_is captured now data s v :
  Event.status data = "downloading"%string ->
  or_zero (Event.downloaded_bytes data) <= 0 ->
  Event.speed_bps data = Some v ->
  ~ v == 0 ->
  downloadSpeed (tracking (on_download_progress captured now data s)) = v.
Proof.
  intros Hs Hb Hv Hnz. unfold on_download_progress. rewrite Hs. simpl.
  assert (E : Qltb 0 (or_zero (Event.downloaded_bytes data)) = false).
  { unfold Qltb. apply Qle_bool_iff in Hb. rewrite Hb. reflexivity. }
  rewrite E, Hv. simpl.
  destruct (Qeq_bool v 0) eqn:Ez.
  - apply Qeq_bool_iff in Ez. contradiction.
  - simpl. destruct (Z.rem _ 10 =? 0)%Z; reflexivity.
Qed.

(** An event with bytes that yields no sample (no earlier update on record,
    or no more than 100 ms since it) leaves the speed as it was. *)
Lemma speed_is_kept_without_sample captured now data s :
  Event.status data = "downloading"%string ->
  0 < or_zero (Event.downloaded_bytes data) ->
  match lastProgressUpdate (tracking s) with
  | Some (time, _) => (now - time) / 1000 <= (1 # 10)
  | None => True
  end ->
  downloadSpeed (tracking (on_download_progress captured now data s))
  = downloadSpeed (tracking s).
Proof.
  intros Hs Hb Hl. rewrite (tracking_after_bytes _ _ _ _ Hs Hb).
  rewrite downloadSpeed_update_eta. unfold update_speed. simpl.
  destruct (lastProgressUpdate (tracking s)) as [[time bytes]|]; [|reflexivity].
  assert (E : Qltb (1 # 10) ((now - time) / 1000) = false).
  { unfold Qltb. apply Qle_bool_iff in Hl. rewrite Hl. reflexivity. }
  rewrite E. reflexivity.
Qed.

Lemma eta_update_speed now cur t : eta (update_speed now cur t) = eta t.
Proof.
  unfold update_speed. destruct (lastProgressUpdate t) as [[time bytes]|].
  - destruct (Qltb _ _); reflexivity.
  - reflexivity.
Qed.

(** The listener [App] registers never gives the ETA a value: an event
    leaves it as it was or resets it. *)
Lemma mounted_listener_never_sets_eta now data s :
  eta (tracking (mounted_listener now data s)) = eta (tracking s)
  \/ eta (tracking (mounted_listener now data s)) = None.
Proof.
  unfold mounted_listener, on_download_progress.
  destruct (Event.status data =? "downloading")%string.
  - left.
    destruct (Z.rem _ 10 =? 0)%Z; rewrite ?tracking_addLog;
      (destruct (Qltb 0 (or_zero (Event.downloaded_bytes data)));
       [ simpl; unfold update_eta; simpl; rewrite eta_update_speed; reflexivity
       | destruct (truthy_number _); reflexivity ]).
  - destruct (Event.status data =? "completed")%string; [right; reflexivity|].
    destruct (Event.status data =? "info")%string; [left; reflexivity|].
    destruct (Event.status data =? "error")%string; [right; reflexivity|].
    left; reflexivity.
Qed.

(** C3, on the code as it runs: the ETA keeps no value while the transfer
    has a known total and a positive speed.  After events at 1, 2 and 3
    seconds, each 1000 bytes further into a transfer of 10000 bytes, the
    speed is 1000 bytes per second and 7000 bytes remain, so the claimed
    ETA is 7 seconds; the registered listener leaves it undefined, because
    the [downloadSpeed] it tests is the 0 of the first render, and the
    progress panel shows no ETA label.  The same code reading the current
    speed computes the 7 seconds. *)
Theorem eta_stays_undefined_with_known_speed :
  let s := Examples.after_three_seconds mounted_listener in
  downloadSpeed (tracking s) == 1000
  /\ totalBytes (tracking s) == 10000
  /\ downloadedBytes (tracking s) == 3000
  /\ (totalBytes (tracking s) - downloadedBytes (tracking s))
     / downloadSpeed (tracking s) == 7
  /\ eta (tracking s) = None
  /\ progress_eta s = None
  /\ (exists v, eta (tracking (Examples.after_three_seconds fresh_listener)) = Some v
                /\ v == 7)
  /\ progress_eta (Examples.after_three_seconds fresh_listener)
     = Some "0:07 remaining"%string.
Proof.
  repeat split; try (vm_compute; reflexivity).
  eexists. split; [vm_compute; reflexivity | vm_compute; reflexivity].
Qed.

Example formatEta_examples :
  formatEta None = "--:--"%string
  /\ formatEta (Some 0) = "--:--"%string
  /\ formatEta (Some (15 # 2)) = "0:07"%string
  /\ formatEta (Some 725) = "12:05"%string
  /\ formatEta (Some 3725) = "1:02:05"%string.
Proof. repeat split; vm_compute; reflexivity. Qed.

(** *** [handleDownload] and the history record *)

Lemma history_records_perform e s :
  history_records (perform e s)
  = (history_records s
     ++ match e with Invoke_add_to_history item => [item] | _ => [] end)%list.
Proof.
  unfold history_records, perform. simpl.
  rewrite flat_map_app. simpl. rewrite app_nil_r. reflexivity.
Qed.

(** A download that fails sends no history record. *)
Lemma handleDownload_failure_sends_no_record now e added now_ms now_iso s :
  history_records (handleDownload now (Js.Rejected e) added now_ms now_iso s)
  = history_records s.
Proof.
  unfold handleDownload, handleDownload_begin.
  destruct (Js.trim (url (form s)) =? "")%string; [reflexivity|].
  unfold handleDownload_end, history_records. simpl.
  rewrite flat_map_app. simpl. apply app_nil_r.
Qed.

(** A download that succeeds sends one record, with the nine fields, built
    from the form. *)
Lemma handleDownload_success_sends_one_record now message added now_ms now_iso s :
  Js.trim (url (form s)) <> ""%string ->
  history_records (handleDownload now (Js.Resolved message) added now_ms now_iso s)
  = (history_records s ++ [historyItem (form s) now_ms now_iso])%list.
Proof.
  intros H. apply String.eqb_neq in H.
  unfold handleDownload, handleDownload_begin. rewrite H.
  unfold handleDownload_end, history_records.
  destruct added; simpl; rewrite !flat_map_app; simpl; rewrite !app_nil_r; reflexivity.
Qed.

(** Where the file name of the form is not empty and has no white space
    around it, the recorded path is the output directory, a slash, and the
    file name the download was asked to write. *)
Lemma file_path_of_clean_filename f now_ms now_iso :
  filename f <> ""%string ->
  Js.trim (filename f) = filename f ->
  r_outputFilename (download_request f) = Some (filename f)
  /\ file_path (historyItem f now_ms now_iso)
     = (r_outputDir (download_request f) ++ "/" ++ filename f)%string.
Proof.
  intros Hne Htrim. unfold download_request, historyItem, trimmed_or_null. simpl.
  rewrite Htrim. apply String.eqb_neq in Hne. unfold Js.or_string. rewrite Hne.
  split; reflexivity.
Qed.

(** C7, at the failing inputs: with a space before the file name the
    download is asked to write [a.mp4] in [/d], and the history record
    points at a path with the space in it; with no file name the download
    is given none, and the record points at [video.mp4]. *)
Theorem history_file_path_differs_from_output_file :
  let spaced := handleDownload 0%Q (Js.Resolved "ok") (Js.Resolved tt) 1700000000000%N
                  "2023-11-14T22:13:20.000Z" (Examples.download_state " a.mp4") in
  let unnamed := handleDownload 0%Q (Js.Resolved "ok") (Js.Resolved tt) 1700000000000%N
                   "2023-11-14T22:13:20.000Z" (Examples.download_state "") in
  map (fun r => (r_outputDir r, r_outputFilename r)) (download_requests spaced)
  = [("/d"%string, Some "a.mp4"%string)]
  /\ map file_path (history_records spaced) = ["/d/ a.mp4"%string]
  /\ map (fun r => (r_outputDir r, r_outputFilename r)) (download_requests unnamed)
     = [("/d"%string, None)]
  /\ map file_path (history_records unnamed) = ["/d/video.mp4"%string].
Proof. repeat split. Qed.

End DownloadTabFacts.

(** ** The queue: commands, scheduler passes and their invariants *)

Section QueueFacts.

Import Queue.

Lemma status_of_cons i item rest :
  status_of i (item :: rest)
  = if (id item =? i) then Some (status item) else status_of i rest.
Proof.
  unfold status_of, find_item. simpl. destruct (id item =? i); reflexivity.
Qed.

Lemma status_of_app_l i b1 b2 s :
  status_of i b1 = Some s -> status_of i (b1 ++ b2) = Some s.
Proof.
  induction b1 as [|item rest IH]; [discriminate|].
  simpl. rewrite !status_of_cons. destruct (id item =? i); auto.
Qed.

Lemma status_of_app_r i b1 b2 :
  ~ In i (ids b1) -> status_of i (b1 ++ b2) = status_of i b2.
Proof.
  induction b1 as [|item rest IH]; [reflexivity|].
  simpl. intros H. rewrite status_of_cons.
  destruct (id item =? i) eqn:E.
  - apply String.eqb_eq in E. exfalso. apply H. left. exact E.
  - apply IH. intros Hin. apply H. right. exact Hin.
Qed.

Lemma status_of_in i s b :
  NoDup (ids b) -> In (i, s) (map id_status b) -> status_of i b = Some s.
Proof.
  induction b as [|item rest IH]; [intros _ []|].
  simpl. intros Hnd [Heq | Hin]; rewrite status_of_cons.
  - unfold id_status in Heq. injection Heq as <- <-. rewrite String.eqb_refl. reflexivity.
  - inversion Hnd as [|? ? Hnot Hnd']; subst.
    destruct (id item =? i) eqn:E.
    + apply String.eqb_eq in E. exfalso. apply Hnot. subst i.
      apply in_map_iff in Hin. destruct Hin as [x [Hx Hin]].
      unfold id_status in Hx. injection Hx as Hx _.
      apply in_map_iff. exists x. split; assumption.
    + apply IH; assumption.
Qed.

Lemma status_of_some_in i s b : status_of i b = Some s -> In i (ids b).
Proof.
  induction b as [|item rest IH]; [discriminate|].
  rewrite status_of_cons. simpl. destruct (id item =? i) eqn:E.
  - apply String.eqb_eq in E. auto.
  - auto.
Qed.

Lemma ids_of_id_status b1 b2 :
  map id_status b1 = map id_status b2 -> ids b1 = ids b2.
Proof.
  intros H. unfold ids.
  transitivity (map fst (map id_status b1)).
  - rewrite map_map. reflexivity.
  - rewrite H, map_map. reflexivity.
Qed.

Lemma active_of_id_status b1 b2 :
  map id_status b1 = map id_status b2 -> active b1 = active b2.
Proof.
  revert b2. induction b1 as [|x b1 IH]; intros [|y b2] H; try discriminate.
  - reflexivity.
  - simpl in H. injection H as _ Hs H. unfold active in *. simpl.
    assert (E : is_downloading x = is_downloading y)
      by (unfold is_downloading; rewrite Hs; reflexivity).
    rewrite E. destruct (is_downloading y); simpl; rewrite (IH b2 H); reflexivity.
Qed.

Lemma waiting_of_id_status b1 b2 :
  map id_status b1 = map id_status b2 -> waiting b1 = waiting b2.
Proof.
  revert b2. induction b1 as [|x b1 IH]; intros [|y b2] H; try discriminate.
  - reflexivity.
  - simpl in H. injection H as _ Hs H. unfold waiting in *. simpl.
    assert (E : is_pending x = is_pending y)
      by (unfold is_pending; rewrite Hs; reflexivity).
    rewrite E. destruct (is_pending y); simpl; rewrite (IH b2 H); reflexivity.
Qed.

Lemma Status_eqb_eq a b : Status_eqb a b = true <-> a = b.
Proof. destruct a, b; simpl; split; (reflexivity || discriminate). Qed.

(** *** One admission *)

Lemma queue_start_download_pending i b :
  status_of i b = Some Pending ->
  exists b1,
    queue_start_download i b = Js.Resolved b1
    /\ ids b1 = ids b
    /\ active b1 = S (active b)
    /\ S (waiting b1) = waiting b
    /\ forall j, status_of j b1
                 = if (j =? i) then Some Downloading else status_of j b.
Proof.
  induction b as [|item rest IH]; [discriminate|].
  rewrite status_of_cons. unfold queue_start_download. simpl.
  destruct (id item =? i) eqn:E.
  - intros H. injection H as H. rewrite H.
    eexists. split; [reflexivity|]. apply String.eqb_eq in E.
    unfold active, waiting, is_downloading, is_pending. simpl. rewrite H. simpl.
    repeat split.
    intros j. rewrite !status_of_cons. simpl. rewrite E.
    rewrite (String.eqb_sym j i). destruct (i =? j); [reflexivity|reflexivity].
  - intros H. destruct (IH H) as [r1 [Hr [Hids [Ha [Hw Hs]]]]].
    unfold queue_start_download in Hr. rewrite Hr.
    eexists. split; [reflexivity|].
    unfold active, waiting in *. simpl. rewrite Hids.
    repeat split.
    + destruct (is_downloading item); simpl; rewrite Ha; reflexivity.
    + destruct (is_pending item); simpl; rewrite <- Hw; reflexivity.
    + intros j. rewrite !status_of_cons, Hs.
      destruct (id item =? j) eqn:Ej; [|reflexivity].
      apply String.eqb_eq in Ej. subst j. rewrite E. reflexivity.
Qed.

(** *** Commands that address one item *)

Lemma active_cons item rest :
  active (item :: rest) = (Nat.b2n (is_downloading item) + active rest)%nat.
Proof. unfold active. simpl. destruct (is_downloading item); reflexivity. Qed.

Lemma with_item_ids_active (k : nat) f i :
  (forall item item',
      f item = Js.Resolved item' ->
      id item' = id item
      /\ (Nat.b2n (is_downloading item') <= Nat.b2n (is_downloading item) + k)%nat) ->
  forall b b',
    with_item i f b = Js.Resolved b' ->
    ids b' = ids b /\ (active b' <= active b + k)%nat.
Proof.
  intros Hf. induction b as [|item rest IH]; intros b' H; [discriminate|].
  simpl in H. destruct (id item =? i).
  - destruct (f item) as [item'|] eqn:E; [|discriminate].
    injection H as <-. destruct (Hf _ _ E) as [Hid Hd].
    simpl. rewrite Hid, !active_cons. split; [reflexivity | lia].
  - destruct (with_item i f rest) as [rest'|] eqn:E; [|discriminate].
    injection H as <-. destruct (IH _ eq_refl) as [Hids Ha].
    simpl. rewrite Hids, !active_cons. split; [reflexivity | lia].
Qed.

Lemma queue_start_download_bound i b b' :
  queue_start_download i b = Js.Resolved b' ->
  ids b' = ids b /\ (active b' <= S (active b))%nat.
Proof.
  intros H. rewrite <- Nat.add_1_r.
  apply (with_item_ids_active 1 _ i) with (2 := H).
  intros item item' E. destruct (status item); try discriminate.
  injection E as <-. simpl. split; [reflexivity | lia].
Qed.

Lemma queue_pause_bound i b b' :
  queue_pause i b = Js.Resolved b' ->
  ids b' = ids b /\ (active b' <= active b)%nat.
Proof.
  intros H. rewrite (plus_n_O (active b)).
  apply (with_item_ids_active 0 _ i) with (2 := H).
  intros item item' E. unfold is_downloading.
  destruct (status item) eqn:Es; try discriminate.
  injection E as <-. simpl. rewrite ?Es. simpl. split; [reflexivity | lia].
Qed.

Lemma queue_cancel_bound i b b' :
  queue_cancel i b = Js.Resolved b' ->
  ids b' = ids b /\ (active b' <= active b)%nat.
Proof.
  intros H. rewrite (plus_n_O (active b)).
  apply (with_item_ids_active 0 _ i) with (2 := H).
  intros item item' E. unfold is_downloading.
  destruct (status item) eqn:Es; try discriminate;
    injection E as <-; simpl; rewrite ?Es; simpl; split; (reflexivity || lia).
Qed.

Lemma queue_resume_bound i b b' :
  queue_resume i b = Js.Resolved b' ->
  ids b' = ids b /\ (active b' <= S (active b))%nat.
Proof.
  intros H. rewrite <- Nat.add_1_r.
  apply (with_item_ids_active 1 _ i) with (2 := H).
  intros item item' E. unfold is_downloading.
  destruct (status item) eqn:Es; try discriminate;
    injection E as <-; simpl; rewrite ?Es; simpl; split; (reflexivity || lia).
Qed.

(** Unless the item it addresses is Paused, [queue_resume] starts nothing. *)
Lemma queue_resume_retry_bound i b b' :
  status_of i b <> Some Paused ->
  queue_resume i b = Js.Resolved b' ->
  (active b' <= active b)%nat.
Proof.
  unfold queue_resume. revert b'.
  induction b as [|item rest IH]; intros b' Hs H; [discriminate|].
  rewrite status_of_cons in Hs. simpl in H.
  destruct (id item =? i).
  - destruct (status item) eqn:Es; try discriminate; [congruence|].
    injection H as <-. rewrite !active_cons. unfold is_downloading. simpl.
    rewrite Es. simpl. lia.
  - destruct (with_item i _ rest) as [rest'|] eqn:E; [|discriminate].
    injection H as <-. rewrite !active_cons.
    specialize (IH _ Hs eq_refl). lia.
Qed.

Lemma transfer_update_bound t i b b' :
  with_item i (transfer_update t) b = Js.Resolved b' ->
  ids b' = ids b /\ (active b' <= active b)%nat.
Proof.
  intros H. rewrite (plus_n_O (active b)).
  apply (with_item_ids_active 0 _ i) with (2 := H).
  intros item item' E. unfold transfer_update in E. unfold is_downloading.
  destruct (status item) eqn:Es; try discriminate.
  injection E as <-. destruct t; simpl; rewrite ?Es; simpl; split; (reflexivity || lia).
Qed.

(** *** Removal and clearing *)

(** Filtering a list keeps its ids distinct. *)
Lemma filter_keeps_ids_distinct (keep : QueueItem -> bool) (b : list QueueItem) :
  NoDup (ids b) -> NoDup (ids (filter keep b)).
Proof.
  unfold ids. induction b as [|item rest IH]; simpl; intros Hnd; [constructor|].
  apply NoDup_cons_iff in Hnd. destruct Hnd as [Hnot Hnd].
  destruct (keep item); simpl; [|exact (IH Hnd)].
  apply NoDup_cons_iff. split; [|exact (IH Hnd)].
  intros Hin. apply Hnot. apply in_map_iff in Hin.
  destruct Hin as [other [Hid Hin]]. apply filter_In in Hin.
  apply in_map_iff. exists other. tauto.
Qed.

Lemma In_firstn {A : Type} (n : nat) (l : list A) (x : A) :
  In x (firstn n l) -> In x l.
Proof.
  intros H. rewrite <- (firstn_skipn n l). apply in_or_app. left. exact H.
Qed.

(** So does taking a prefix. *)
Lemma firstn_keeps_ids_distinct (n : nat) (b : list QueueItem) :
  NoDup (ids b) -> NoDup (ids (firstn n b)).
Proof.
  unfold ids. revert n. induction b as [|item rest IH]; intros [|n] Hnd; simpl;
    try constructor; apply NoDup_cons_iff in Hnd; destruct Hnd as [Hnot Hnd].
  - intros Hin. apply Hnot. apply in_map_iff in Hin.
    destruct Hin as [other [Hid Hin]]. apply In_firstn in Hin.
    apply in_map_iff. exists other. tauto.
  - exact (IH n Hnd).
Qed.

Lemma active_filter p b : (active (filter p b) <= active b)%nat.
Proof.
  induction b as [|x b IH]; [apply Nat.le_refl|].
  simpl. destruct (p x); rewrite !active_cons; lia.
Qed.

Lemma queue_remove_bound i b b' :
  queue_remove i b = Js.Resolved b' ->
  (NoDup (ids b) -> NoDup (ids b'))
  /\ (active b' <= active b)%nat
  /\ (forall j, In j (ids b') -> In j (ids b)).
Proof.
  revert b'. induction b as [|item rest IH]; intros b' H; [discriminate|].
  simpl in H. destruct (id item =? i).
  - injection H as <-. rewrite active_cons. repeat split.
    + intros Hnd. inversion Hnd; assumption.
    + lia.
    + intros j Hj. right. exact Hj.
  - destruct (queue_remove i rest) as [rest'|] eqn:E; [|discriminate].
    injection H as <-. destruct (IH _ eq_refl) as [Hnd [Ha Hin]].
    rewrite !active_cons. repeat split.
    + intros Hn. simpl in *. inversion Hn as [|? ? Hnot Hn']; subst.
      constructor; [|auto]. intros Hj. apply Hnot. apply Hin. exact Hj.
    + lia.
    + simpl. intros j [Hj|Hj]; [left; exact Hj | right; apply Hin; exact Hj].
Qed.

(** *** A scheduler pass *)

(** Whatever the list it runs on, the loop keeps the ids and starts at most
    one download per item it was given. *)
Lemma start_downloads_bound items :
  forall b,
    ids (fst (start_downloads items b)) = ids b
    /\ (active (fst (start_downloads items b)) <= active b + List.length items)%nat.
Proof.
  induction items as [|item rest IH]; intros b; simpl.
  - split; [reflexivity | lia].
  - destruct (queue_start_download (id item) b) as [b1|e] eqn:E; simpl.
    + destruct (queue_start_download_bound _ _ _ E) as [Hids Ha].
      destruct (IH b1) as [Hids' Ha']. rewrite Hids', Hids. split; [reflexivity | lia].
    + split; [reflexivity | lia].
Qed.

(** On items with distinct ids that are all [Pending] in the list, the loop
    runs to its end and turns exactly these items to [Downloading]. *)
Lemma start_downloads_pending items :
  forall b,
    NoDup (ids items) ->
    (forall item, In item items -> status_of (id item) b = Some Pending) ->
    exists b',
      start_downloads items b = (b', None)
      /\ ids b' = ids b
      /\ active b' = (active b + List.length items)%nat
      /\ (waiting b' + List.length items)%nat = waiting b
      /\ forall j, status_of j b'
                   = if among j items then Some Downloading else status_of j b.
Proof.
  induction items as [|item rest IH]; intros b Hnd Hp; simpl.
  - exists b. repeat split; lia.
  - destruct (queue_start_download_pending (id item) b) as [b1 [E [Hids [Ha [Hw Hs]]]]].
    { apply Hp. left. reflexivity. }
    rewrite E. simpl in Hnd. inversion Hnd as [|? ? Hnot Hnd']; subst.
    destruct (IH b1 Hnd') as [b' [E' [Hids' [Ha' [Hw' Hs']]]]].
    { intros x Hx. rewrite Hs.
      destruct (id x =? id item) eqn:Ex.
      - apply String.eqb_eq in Ex. exfalso. apply Hnot. rewrite <- Ex.
        apply in_map. exact Hx.
      - apply Hp. right. exact Hx. }
    exists b'. split; [exact E'|]. rewrite Hids', Hids, Ha', Ha. repeat split; try lia.
    intros j. rewrite Hs', Hs. unfold among. simpl.
    destruct (j =? id item); simpl; [|reflexivity].
    destruct (existsb (String.eqb j) (ids rest)); reflexivity.
Qed.


Lemma admitted_length c :
  Z.of_nat (List.length (admitted c))
  = Z.max 0 (Z.min (Z.of_nat (List.length (pendingItems c))) (availableSlots c)).
Proof.
  unfold admitted. rewrite length_firstn. lia.
Qed.

Lemma admitted_are_pending c item :
  In item (admitted c) -> In item (queue c) /\ status item = Pending.
Proof.
  intros H. apply In_firstn in H. unfold pendingItems in H.
  apply filter_In in H. destruct H as [Hin Hp]. split; [exact Hin|].
  apply Status_eqb_eq. exact Hp.
Qed.

Lemma admitted_NoDup c : NoDup (ids (queue c)) -> NoDup (ids (admitted c)).
Proof.
  intros H. unfold admitted, pendingItems.
  apply firstn_keeps_ids_distinct, filter_keeps_ids_distinct. exact H.
Qed.

Lemma activeCount_active c : activeCount c = Z.of_nat (active (queue c)).
Proof. reflexivity. Qed.

(** A pass keeps the ids, the settings and the flag, and starts at most as
    many downloads as the render it comes from sees free slots. *)
Lemma processQueue_bound c w :
  ids (backend (processQueue c w)) = ids (backend w)
  /\ (Z.of_nat (active (backend (processQueue c w)))
      <= Z.of_nat (active (backend w))
         + Z.max 0 (max_concurrent_downloads (settings c) - Z.of_nat (active (queue c))))%Z
  /\ settings (processQueue c w) = settings w
  /\ isProcessingQueue (processQueue c w) = isProcessingQueue w.
Proof.
  unfold processQueue.
  destruct (isProcessingQueue c); [repeat split; lia|].
  pose proof (start_downloads_bound (admitted c) (backend w)) as [Hids Ha].
  pose proof (admitted_length c) as Hlen.
  unfold availableSlots in Hlen. rewrite activeCount_active in Hlen.
  destruct (start_downloads (admitted c) (backend w)) as [b [e|]];
    simpl in *; repeat split; try assumption; lia.
Qed.

(** On a well-formed world, the pass of the current render runs to its end,
    reloads the queue, and admits exactly [admitted w]. *)
Lemma processQueue_current w :
  well_formed w ->
  isProcessingQueue w = false ->
  exists b,
    start_downloads (admitted w) (backend w) = (b, None)
    /\ processQueue w w = loadQueue (set_backend b w)
    /\ ids b = ids (backend w)
    /\ active b = (active (backend w) + List.length (admitted w))%nat
    /\ (waiting b + List.length (admitted w))%nat = waiting (backend w)
    /\ forall j, status_of j b
                 = if among j (admitted w) then Some Downloading
                   else status_of j (backend w).
Proof.
  intros [Hnd Hag] Hflag.
  destruct (start_downloads_pending (admitted w) (backend w)) as [b [E H]].
  - apply admitted_NoDup. rewrite (ids_of_id_status _ _ Hag). exact Hnd.
  - intros item Hin. apply admitted_are_pending in Hin. destruct Hin as [Hin Hs].
    apply status_of_in; [exact Hnd|]. rewrite <- Hag.
    apply in_map_iff. exists item. split; [|exact Hin].
    unfold id_status. rewrite Hs. reflexivity.
  - exists b. split; [exact E|]. split; [|exact H].
    unfold processQueue. rewrite Hflag, E. reflexivity.
Qed.

(** *** Every step keeps the world well formed, and only the resume of a
    paused item can take it over the limit *)

Lemma invariant_over_limit w : invariant w <-> over_limit_by 0 w.
Proof.
  unfold invariant, over_limit_by, within_limit. rewrite Z.add_0_r. reflexivity.
Qed.

Lemma over_limit_by_more k k' w :
  (k <= k')%nat -> over_limit_by k w -> over_limit_by k' w.
Proof. intros Hk [Hwf Hlim]. split; [exact Hwf | lia]. Qed.

Lemma reload_bounded k b w w' :
  NoDup (ids b) ->
  (Z.of_nat (active b) <= max_concurrent_downloads (settings w) + Z.of_nat k)%Z ->
  backend w' = b -> settings w' = settings w ->
  isProcessingQueue w' = isProcessingQueue w ->
  over_limit_by k (loadQueue w') /\ same_configuration w (loadQueue w').
Proof.
  intros Hnd Hmax Hb Hs Hf. unfold over_limit_by, well_formed, agrees,
    same_configuration, loadQueue. simpl. rewrite Hb, Hs, Hf. auto.
Qed.

Lemma command_bounded k run failure w :
  (forall b', run (backend w) = Js.Resolved b' ->
              NoDup (ids b') /\ (active b' <= active (backend w))%nat) ->
  over_limit_by k w ->
  over_limit_by k (command run failure w) /\ same_configuration w (command run failure w).
Proof.
  intros Hrun [Hwf Hlim]. unfold command.
  destruct (run (backend w)) as [b|e].
  - destruct (Hrun b eq_refl) as [Hnd Ha].
    apply reload_bounded with (b := b); try reflexivity; [exact Hnd | lia].
  - split; [split; assumption | split; reflexivity].
Qed.

Lemma active_app b1 b2 : active (b1 ++ b2) = (active b1 + active b2)%nat.
Proof. unfold active. rewrite filter_app, length_app. reflexivity. Qed.

Lemma ids_app b1 b2 : ids (b1 ++ b2) = (ids b1 ++ ids b2)%list.
Proof. apply map_app. Qed.

Lemma NoDup_snoc (l : list string) (x : string) :
  NoDup l -> ~ In x l -> NoDup (l ++ [x]).
Proof.
  intros Hnd Hx. induction Hnd as [|y l Hy Hnd IH]; simpl.
  - constructor; [intros [] | constructor].
  - constructor.
    + intros Hin. apply in_app_or in Hin. destruct Hin as [Hin | [Heq | []]].
      * contradiction.
      * apply Hx. left. symmetry. exact Heq.
    + apply IH. intros Hin. apply Hx. right. exact Hin.
Qed.

Lemma restatus_notin i s l : ~ In i (map fst l) -> restatus i s l = l.
Proof.
  induction l as [|p l IH]; [reflexivity|].
  simpl. intros H. destruct (fst p =? i) eqn:E.
  - apply String.eqb_eq in E. exfalso. apply H. left. exact E.
  - rewrite IH; [reflexivity|]. intros Hin. apply H. right. exact Hin.
Qed.

Lemma on_queue_progress_restatus data q :
  map id_status (on_queue_progress data q)
  = restatus (Event.id data) (Event.status data) (map id_status q).
Proof.
  unfold on_queue_progress, restatus. rewrite !map_map.
  apply map_ext. intros item. simpl.
  destruct (id item =? Event.id data); reflexivity.
Qed.

Lemma with_item_restatus f i :
  (forall item item', f item = Js.Resolved item' -> id item' = id item) ->
  forall b b',
    NoDup (ids b) ->
    with_item i f b = Js.Resolved b' ->
    exists item',
      find_item i b' = Some item'
      /\ id item' = i
      /\ map id_status b' = restatus i (status item') (map id_status b).
Proof.
  intros Hf. induction b as [|item rest IH]; intros b' Hnd H; [discriminate|].
  simpl in H. simpl in Hnd. inversion Hnd as [|? ? Hnot Hnd']; subst.
  destruct (id item =? i) eqn:Ei.
  - destruct (f item) as [item'|] eqn:E; [|discriminate].
    injection H as <-. pose proof (Hf _ _ E) as Hid.
    apply String.eqb_eq in Ei. exists item'.
    unfold find_item. simpl. rewrite Hid, Ei, String.eqb_refl.
    repeat split. unfold id_status at 1. rewrite Hid, Ei. f_equal.
    symmetry. apply restatus_notin. rewrite map_map. subst i. exact Hnot.
  - destruct (with_item i f rest) as [rest'|] eqn:E; [|discriminate].
    injection H as <-. destruct (IH _ Hnd' eq_refl) as [item' [Hfind [Hid Hmap]]].
    exists item'. unfold find_item in *. simpl. rewrite Ei.
    repeat split; try assumption. rewrite Hmap. reflexivity.
Qed.

Lemma transfer_update_id t item item' :
  transfer_update t item = Js.Resolved item' -> id item' = id item.
Proof.
  unfold transfer_update. destruct (status item); try discriminate.
  intros H. injection H as <-. destruct t; reflexivity.
Qed.

Lemma agrees_active w : agrees w -> active (queue w) = active (backend w).
Proof. apply active_of_id_status. Qed.

(** A pass of the render [c], run on a list that has at most [j] downloads
    more than [c] shows, followed by the reload. *)
Lemma pass_then_reload_bounded k j c w :
  over_limit_by k c ->
  NoDup (ids (backend w)) ->
  (active (backend w) <= active (backend c) + j)%nat ->
  settings w = settings c ->
  isProcessingQueue w = isProcessingQueue c ->
  over_limit_by (k + j) (loadQueue (processQueue c w))
  /\ same_configuration c (loadQueue (processQueue c w)).
Proof.
  intros [[Hnd Hag] Hlim] Hndw Hle Hs Hf.
  destruct (processQueue_bound c w) as [Hids [Hmax [Hs' Hf']]].
  rewrite (agrees_active c Hag) in Hmax.
  apply reload_bounded with (b := backend (processQueue c w)).
  - rewrite Hids. exact Hndw.
  - lia.
  - reflexivity.
  - congruence.
  - congruence.
Qed.

Lemma pass_then_reload_invariant c w :
  invariant c ->
  NoDup (ids (backend w)) ->
  (active (backend w) <= active (backend c))%nat ->
  settings w = settings c ->
  isProcessingQueue w = isProcessingQueue c ->
  invariant (loadQueue (processQueue c w))
  /\ same_configuration c (loadQueue (processQueue c w)).
Proof.
  intros Hinv Hnd Hle Hs Hf. apply invariant_over_limit in Hinv.
  destruct (pass_then_reload_bounded 0 0 c w Hinv Hnd) as [H Hc]; try assumption; [lia|].
  split; [apply invariant_over_limit; exact H | exact Hc].
Qed.

(** A resume starts at most one download of its own, and only when its
    item is Paused; the pass it runs afterwards comes from the render that
    shows the item as it was. *)
Lemma resumeQueueItem_bounded k i w :
  over_limit_by k w ->
  over_limit_by (k + Nat.b2n (resumes_paused w (ResumeQueueItem i))) (resumeQueueItem i w)
  /\ same_configuration w (resumeQueueItem i w).
Proof.
  intros Hov. unfold resumeQueueItem.
  destruct (queue_resume i (backend w)) as [b|e] eqn:E.
  - destruct (queue_resume_bound _ _ _ E) as [Hids Ha].
    apply pass_then_reload_bounded; try reflexivity; [exact Hov | |].
    + simpl. rewrite Hids. apply Hov.
    + simpl. unfold resumes_paused.
      destruct (status_of i (backend w)) as [[]|] eqn:Es; simpl;
        try lia;
        (assert (Hle : (active b <= active (backend w))%nat)
           by (apply (queue_resume_retry_bound i _ _) with (2 := E);
               rewrite Es; discriminate); lia).
  - split; [|split; reflexivity].
    apply over_limit_by_more with (k := k); [lia | exact Hov].
Qed.

(** The retry of a Failed item keeps the world within the limit. *)
Lemma retry_invariant i w :
  invariant w ->
  status_of i (backend w) = Some Failed ->
  invariant (resumeQueueItem i w) /\ same_configuration w (resumeQueueItem i w).
Proof.
  intros Hinv Hs. apply invariant_over_limit in Hinv.
  destruct (resumeQueueItem_bounded 0 i w Hinv) as [H Hc].
  unfold resumes_paused in H. rewrite Hs in H.
  split; [apply invariant_over_limit; exact H | exact Hc].
Qed.

Lemma processQueue_bounded k w :
  over_limit_by k w ->
  over_limit_by k (processQueue w w) /\ same_configuration w (processQueue w w).
Proof.
  intros Hov. destruct (isProcessingQueue w) eqn:Hf.
  - unfold processQueue. rewrite Hf. split; [exact Hov | split; reflexivity].
  - destruct (processQueue_current w (proj1 Hov) Hf) as [b [_ [E _]]].
    assert (H := pass_then_reload_bounded k 0 w w Hov (proj1 (proj1 Hov))).
    rewrite !Nat.add_0_r in H. rewrite E in *.
    exact (H (Nat.le_refl _) eq_refl eq_refl).
Qed.

Lemma processQueue_invariant w :
  invariant w ->
  invariant (processQueue w w) /\ same_configuration w (processQueue w w).
Proof.
  intros Hinv. apply invariant_over_limit in Hinv.
  destruct (processQueue_bounded 0 w Hinv) as [H Hc].
  split; [apply invariant_over_limit; exact H | exact Hc].
Qed.

Lemma queue_effect_bounded k w :
  over_limit_by k w ->
  over_limit_by k (queue_effect w) /\ same_configuration w (queue_effect w).
Proof.
  intros Hov. unfold queue_effect.
  destruct (_ && _ && _)%bool.
  - apply processQueue_bounded. exact Hov.
  - split; [exact Hov | split; reflexivity].
Qed.

Lemma queue_effect_invariant w :
  invariant w ->
  invariant (queue_effect w) /\ same_configuration w (queue_effect w).
Proof.
  intros Hinv. apply invariant_over_limit in Hinv.
  destruct (queue_effect_bounded 0 w Hinv) as [H Hc].
  split; [apply invariant_over_limit; exact H | exact Hc].
Qed.

Lemma transfer_bounded k i t w :
  over_limit_by k w ->
  over_limit_by k (transfer i t w) /\ same_configuration w (transfer i t w).
Proof.
  intros [[Hnd Hag] Hlim]. unfold transfer.
  destruct (with_item i (transfer_update t) (backend w)) as [b|e] eqn:E.
  - destruct (transfer_update_bound _ _ _ _ E) as [Hids Ha].
    destruct (with_item_restatus _ i (transfer_update_id t) _ _ Hnd E)
      as [item [Hfind [Hid Hmap]]].
    rewrite Hfind. unfold over_limit_by, well_formed, agrees,
      same_configuration in *. simpl.
    rewrite on_queue_progress_restatus. simpl. rewrite Hids, Hid, Hag, Hmap.
    repeat split; try assumption. lia.
  - split; [split; [split|]; assumption | split; reflexivity].
Qed.

(** Whatever id the back end returns, [addToQueue] leaves a list with one
    more id, at its end. *)
Lemma ids_addToQueue (g : list QueueItem -> string) f now w args :
  queue_add_request f = Some args ->
  ids (backend (addToQueue g f now w)) = (ids (backend w) ++ [g (backend w)])%list.
Proof.
  intros Hreq. unfold addToQueue, queue_add. rewrite Hreq.
  destruct (auto_start_queue (settings w)); cbn [backend loadQueue setQueue].
  - rewrite (proj1 (processQueue_bound _ _)). simpl. rewrite ids_app. reflexivity.
  - simpl. rewrite ids_app. reflexivity.
Qed.

(** From here on the back end's id generator is a parameter, of which the
    spec says that the id it returns is new. *)
Variable new_id : list QueueItem -> string.
Hypothesis new_id_fresh : forall items, ~ In (new_id items) (ids items).

Lemma addToQueue_bounded k f now w :
  over_limit_by k w ->
  over_limit_by k (addToQueue new_id f now w)
  /\ same_configuration w (addToQueue new_id f now w).
Proof.
  intros Hov. unfold addToQueue.
  destruct (queue_add_request f) as [args|];
    [|split; [exact Hov | split; reflexivity]].
  unfold queue_add.
  set (item := new_item (new_id (backend w)) args now).
  assert (Hnd : NoDup (ids (backend w ++ [item]))).
  { rewrite ids_app. apply NoDup_snoc; [apply Hov | apply new_id_fresh]. }
  assert (Ha : active (backend w ++ [item]) = active (backend w)).
  { rewrite active_app. unfold active at 2. simpl. lia. }
  destruct (auto_start_queue (settings w)).
  - assert (H := pass_then_reload_bounded k 0 w
                   (addLog Ui.LogSuccess
                      ("Added to queue: "
                       ++ match DownloadTab.videoInfo f with
                          | Some videoInfo => DownloadTab.title videoInfo
                          | None => ""
                          end)
                      (set_backend (backend w ++ [item])%list w)) Hov).
    rewrite !Nat.add_0_r in H. apply H; try reflexivity; [exact Hnd|].
    simpl. rewrite Ha. lia.
  - apply reload_bounded with (b := (backend w ++ [item])%list); try reflexivity.
    + exact Hnd.
    + rewrite Ha. apply Hov.
Qed.

Lemma addToQueue_invariant f now w :
  invariant w ->
  invariant (addToQueue new_id f now w)
  /\ same_configuration w (addToQueue new_id f now w).
Proof.
  intros Hinv. apply invariant_over_limit in Hinv.
  destruct (addToQueue_bounded 0 f now w Hinv) as [H Hc].
  split; [apply invariant_over_limit; exact H | exact Hc].
Qed.

Lemma step_bounded k w op :
  over_limit_by k w ->
  over_limit_by (k + Nat.b2n (resumes_paused w op)) (step new_id w op)
  /\ same_configuration w (step new_id w op).
Proof.
  intros Hov.
  destruct op; try (simpl resumes_paused; rewrite Nat.add_0_r); simpl step.
  - apply addToQueue_bounded. exact Hov.
  - apply command_bounded; [|exact Hov]. intros b' E.
    destruct (queue_remove_bound _ _ _ E) as [Hnd [Ha _]].
    split; [apply Hnd, Hov | exact Ha].
  - apply command_bounded; [|exact Hov]. intros b' E.
    destruct (queue_pause_bound _ _ _ E) as [Hids Ha].
    split; [rewrite Hids; apply Hov | exact Ha].
  - apply resumeQueueItem_bounded. exact Hov.
  - apply command_bounded; [|exact Hov]. intros b' E.
    destruct (queue_cancel_bound _ _ _ E) as [Hids Ha].
    split; [rewrite Hids; apply Hov | exact Ha].
  - apply command_bounded; [|exact Hov]. intros b' E.
    unfold queue_clear_completed in E. injection E as <-.
    split; [apply filter_keeps_ids_distinct, Hov | apply active_filter].
  - apply processQueue_bounded. exact Hov.
  - apply queue_effect_bounded. exact Hov.
  - apply transfer_bounded. exact Hov.
Qed.

(** Every step keeps the ids distinct and the front end's copy up to
    date. *)
Lemma step_well_formed w op :
  invariant w ->
  well_formed (step new_id w op) /\ same_configuration w (step new_id w op).
Proof.
  intros Hinv. apply invariant_over_limit in Hinv.
  destruct (step_bounded 0 w op Hinv) as [[Hwf _] Hc]. split; assumption.
Qed.



(** *** Saturation: what a pass achieves *)

Lemma waiting_positive i b : status_of i b = Some Pending -> (0 < waiting b)%nat.
Proof.
  induction b as [|item rest IH]; [discriminate|].
  rewrite status_of_cons. unfold waiting in *. simpl.
  destruct (id item =? i).
  - intros H. injection H as H. unfold is_pending. rewrite H. simpl. lia.
  - intros H. specialize (IH H). destruct (is_pending item); simpl; lia.
Qed.

Lemma agrees_waiting w : agrees w -> waiting (queue w) = waiting (backend w).
Proof. apply waiting_of_id_status. Qed.

(** A pass leaves no Pending item waiting beside a free slot, whether or
    not the world was within the limit before it. *)
Lemma processQueue_saturates w :
  well_formed w -> isProcessingQueue w = false -> saturated (processQueue w w).
Proof.
  intros Hwf Hf.
  destruct (processQueue_current w Hwf Hf) as [b [_ [E [_ [Ha [Hw _]]]]]].
  rewrite E. unfold saturated. simpl.
  pose proof (admitted_length w) as Hlen.
  unfold availableSlots, pendingItems in Hlen. rewrite activeCount_active in Hlen.
  destruct Hwf as [_ Hag].
  rewrite (agrees_active _ Hag) in Hlen.
  fold (waiting (queue w)) in Hlen. rewrite (agrees_waiting _ Hag) in Hlen.
  lia.
Qed.

Lemma queue_effect_saturates w :
  well_formed w ->
  auto_start_queue (settings w) = true ->
  isProcessingQueue w = false ->
  saturated (queue_effect w).
Proof.
  intros [Hnd Hag] Hauto Hf. unfold queue_effect. rewrite Hauto, andb_true_r.
  destruct (0 <? Z.of_nat (List.length (filter is_pending (queue w))))%Z eqn:Ep;
    destruct (Z.of_nat (List.length (filter is_downloading (queue w)))
              <? max_concurrent_downloads (settings w))%Z eqn:Ea; simpl.
  - apply processQueue_saturates; [split|]; assumption.
  - right. apply Z.ltb_ge in Ea.
    fold (active (queue w)) in Ea.
    rewrite (agrees_active _ Hag) in Ea. exact Ea.
  - left. apply Z.ltb_ge in Ep.
    fold (waiting (queue w)) in Ep.
    rewrite (agrees_waiting _ Hag) in Ep. lia.
  - left. apply Z.ltb_ge in Ep.
    fold (waiting (queue w)) in Ep.
    rewrite (agrees_waiting _ Hag) in Ep. lia.
Qed.

Lemma queue_effect_manual w :
  auto_start_queue (settings w) = false -> queue_effect w = w.
Proof.
  intros H. unfold queue_effect. rewrite H, andb_false_r. reflexivity.
Qed.

Lemma addToQueue_manual f now w args :
  auto_start_queue (settings w) = false ->
  queue_add_request f = Some args ->
  backend (addToQueue new_id f now w)
  = (backend w ++ [new_item (new_id (backend w)) args now])%list.
Proof.
  intros H E. unfold addToQueue. rewrite E, H. reflexivity.
Qed.

(** C8, as the code has it: with auto-start enabled and no pass in progress,
    the effect that follows an enqueue, or any other step that changes the
    queue, leaves no Pending item waiting while the Downloading count is
    below the maximum.  With auto-start disabled neither [addToQueue] nor
    the effect starts anything: the enqueued item is appended and the list
    is otherwise as it was. *)
Theorem enqueue_is_followed_by_a_pass_when_auto_start :
  forall (w : World),
    invariant w ->
    (auto_start_queue (settings w) = true ->
     isProcessingQueue w = false ->
     (forall f now, saturated (queue_effect (addToQueue new_id f now w)))
     /\ (forall op, saturated (queue_effect (step new_id w op))))
    /\ (auto_start_queue (settings w) = false ->
        forall f now args,
          queue_add_request f = Some args ->
          backend (queue_effect (addToQueue new_id f now w))
          = (backend w ++ [new_item (new_id (backend w)) args now])%list).
Proof.
  intros w Hinv. split.
  - intros Hauto Hf.
    assert (H : forall op, saturated (queue_effect (step new_id w op))).
    { intros op. destruct (step_well_formed w op Hinv) as [Hwf' [Hs Hf']].
      apply queue_effect_saturates; [exact Hwf' | congruence | congruence]. }
    split; [|exact H]. intros f now. apply (H (AddToQueue f now)).
  - intros Hauto f now args E.
    destruct (addToQueue_invariant f now w Hinv) as [_ [Hs _]].
    rewrite queue_effect_manual by congruence.
    apply addToQueue_manual; assumption.
Qed.

(** *** Following one item through the commands *)

Lemma find_item_cons i item rest :
  find_item i (item :: rest) = if (id item =? i) then Some item else find_item i rest.
Proof. reflexivity. Qed.

Lemma with_item_found f i :
  forall b item item',
    find_item i b = Some item ->
    f item = Js.Resolved item' ->
    id item' = id item ->
    exists b',
      with_item i f b = Js.Resolved b'
      /\ ids b' = ids b
      /\ find_item i b' = Some item'
      /\ forall j, j <> i -> find_item j b' = find_item j b.
Proof.
  induction b as [|x rest IH]; intros item item' Hfind Hf Hid; [discriminate|].
  rewrite find_item_cons in Hfind. simpl. destruct (id x =? i) eqn:E.
  - injection Hfind as ->. rewrite Hf. eexists. split; [reflexivity|].
    apply String.eqb_eq in E. simpl. rewrite Hid, E, String.eqb_refl.
    repeat split. intros j Hj.
    apply not_eq_sym in Hj. apply String.eqb_neq in Hj. rewrite Hj. reflexivity.
  - destruct (IH _ _ Hfind Hf Hid) as [rest' [Hr [Hids [Hfound Hother]]]].
    rewrite Hr. eexists. split; [reflexivity|].
    simpl. rewrite Hids, E. repeat split; [exact Hfound|].
    intros j Hj. rewrite (Hother j Hj). reflexivity.
Qed.

Lemma with_item_other f i :
  (forall item item', f item = Js.Resolved item' -> id item' = id item) ->
  forall b b' j,
    j <> i ->
    with_item i f b = Js.Resolved b' ->
    find_item j b' = find_item j b.
Proof.
  intros Hf. induction b as [|x rest IH]; intros b' j Hj H; [discriminate|].
  simpl in H. destruct (id x =? i) eqn:E.
  - destruct (f x) as [x'|] eqn:Ex; [|discriminate]. injection H as <-.
    rewrite !find_item_cons, (Hf _ _ Ex).
    apply String.eqb_eq in E. rewrite E.
    apply not_eq_sym in Hj. apply String.eqb_neq in Hj. rewrite Hj. reflexivity.
  - destruct (with_item i f rest) as [rest'|] eqn:Er; [|discriminate].
    injection H as <-. rewrite !find_item_cons, (IH _ _ Hj eq_refl). reflexivity.
Qed.

Lemma start_downloads_other items :
  forall b j,
    (forall item, In item items -> id item <> j) ->
    find_item j (fst (start_downloads items b)) = find_item j b.
Proof.
  induction items as [|item rest IH]; intros b j H; [reflexivity|].
  simpl. destruct (queue_start_download (id item) b) as [b1|e] eqn:E; [|reflexivity].
  rewrite IH by (intros x Hx; apply H; right; exact Hx).
  unfold queue_start_download in E.
  apply (with_item_other _ (id item)) with (3 := E).
  - intros x x' Hx. destruct (status x); try discriminate. injection Hx as <-. reflexivity.
  - apply not_eq_sym. apply H. left. reflexivity.
Qed.

Lemma backend_processQueue c w :
  backend (processQueue c w)
  = if isProcessingQueue c then backend w
    else fst (start_downloads (admitted c) (backend w)).
Proof.
  unfold processQueue. destruct (isProcessingQueue c); [reflexivity|].
  destruct (start_downloads (admitted c) (backend w)) as [b [e|]]; reflexivity.
Qed.

(** A pass of a render does not touch an item that the render does not show
    as Pending. *)
Lemma processQueue_other c w j :
  (forall item, In item (queue c) -> status item = Pending -> id item <> j) ->
  find_item j (backend (processQueue c w)) = find_item j (backend w).
Proof.
  intros H. rewrite backend_processQueue.
  destruct (isProcessingQueue c); [reflexivity|].
  apply start_downloads_other. intros item Hin.
  apply admitted_are_pending in Hin. destruct Hin as [Hin Hs]. apply H; assumption.
Qed.

Lemma shown_pending_is_pending w item :
  well_formed w -> In item (queue w) -> status item = Pending ->
  status_of (id item) (backend w) = Some Pending.
Proof.
  intros [Hnd Hag] Hin Hs. apply status_of_in; [exact Hnd|].
  rewrite <- Hag. apply in_map_iff. exists item. split; [|exact Hin].
  unfold id_status. rewrite Hs. reflexivity.
Qed.

(** A Pending item is Downloading after a pass, or still Pending with every
    slot taken. *)
Lemma processQueue_readmits w i :
  invariant w -> isProcessingQueue w = false ->
  status_of i (backend w) = Some Pending ->
  status_of i (backend (processQueue w w)) = Some Downloading
  \/ (status_of i (backend (processQueue w w)) = Some Pending
      /\ (max_concurrent_downloads (settings w)
          <= Z.of_nat (active (backend (processQueue w w))))%Z).
Proof.
  intros Hinv Hf Hp.
  pose proof (processQueue_saturates w (proj1 Hinv) Hf) as Hsat.
  destruct (processQueue_invariant w Hinv) as [_ [Hs _]].
  destruct (processQueue_current w (proj1 Hinv) Hf) as [b [_ [E [_ [_ [_ Hst]]]]]].
  rewrite E in *. simpl in *. rewrite Hst.
  destruct (among i (admitted w)) eqn:Ea; [left; reflexivity|].
  right. split; [exact Hp|].
  destruct Hsat as [Hw | Hmax]; [|exact Hmax].
  assert (Hpos : (0 < waiting b)%nat).
  { apply (waiting_positive i). rewrite Hst, Ea. exact Hp. }
  change (waiting b = 0%nat) in Hw. lia.
Qed.

Lemma queue_effect_readmits w i :
  invariant w -> isProcessingQueue w = false ->
  auto_start_queue (settings w) = true ->
  status_of i (backend w) = Some Pending ->
  status_of i (backend (queue_effect w)) = Some Downloading
  \/ (status_of i (backend (queue_effect w)) = Some Pending
      /\ (max_concurrent_downloads (settings w)
          <= Z.of_nat (active (backend (queue_effect w))))%Z).
Proof.
  intros Hinv Hf Hauto Hp.
  pose proof (queue_effect_saturates w (proj1 Hinv) Hauto Hf) as Hsat.
  unfold queue_effect in *.
  destruct (_ && _ && _)%bool.
  - apply processQueue_readmits; assumption.
  - right. split; [exact Hp|].
    destruct Hsat as [Hw | Hmax]; [|exact Hmax].
    pose proof (waiting_positive i _ Hp). lia.
Qed.

Lemma resumed_item_is_hidden_from_the_pass w i s :
  well_formed w ->
  status_of i (backend w) = Some s -> s <> Pending ->
  forall item, In item (queue w) -> status item = Pending -> id item <> i.
Proof.
  intros Hwf Hs Hne item Hin Hp Hid.
  pose proof (shown_pending_is_pending w item Hwf Hin Hp) as H.
  rewrite Hid, Hs in H. injection H as H. contradiction.
Qed.

Lemma status_of_find i b item :
  find_item i b = Some item -> status_of i b = Some (status item).
Proof. unfold status_of. intros ->. reflexivity. Qed.

(** C5: a Failed row has the Retry button, which runs [resumeQueueItem];
    [queue_resume] takes the item to Pending, and it is still Pending, not
    Downloading, when the handler returns; the next scheduler pass (the
    Start Queue button, or the effect when auto-start is on) admits it like
    any Pending item: it is then Downloading, or Pending with every slot
    taken.  A transfer that dies of segment-retry exhaustion leaves its item
    Failed with that error recorded on it. *)
Theorem retry_returns_failed_item_to_pending :
  forall (w : World) (i : string) (item : QueueItem),
    invariant w ->
    find_item i (backend w) = Some item ->
    status item = Failed ->
    (forall index length, In retry_button (queue_item_actions item index length))
    /\ (exists b, queue_resume i (backend w) = Js.Resolved b
                  /\ status_of i b = Some Pending)
    /\ status_of i (backend (resumeQueueItem i w)) = Some Pending
    /\ (isProcessingQueue w = false ->
        let w' := step new_id (resumeQueueItem i w) StartQueue in
        status_of i (backend w') = Some Downloading
        \/ (status_of i (backend w') = Some Pending
            /\ (max_concurrent_downloads (settings w)
                <= Z.of_nat (active (backend w')))%Z))
    /\ (isProcessingQueue w = false ->
        auto_start_queue (settings w) = true ->
        let w' := step new_id (resumeQueueItem i w) QueueEffect in
        status_of i (backend w') = Some Downloading
        \/ (status_of i (backend w') = Some Pending
            /\ (max_concurrent_downloads (settings w)
                <= Z.of_nat (active (backend w')))%Z))
    /\ (forall (w0 : World) (item0 : QueueItem) (index : N),
           find_item i (backend w0) = Some item0 ->
           status item0 = Downloading ->
           exists item1,
             find_item i (backend (transfer i (Died (SegmentFetchExhausted index)) w0))
             = Some item1
             /\ status item1 = Failed
             /\ error item1 = Some (describe (SegmentFetchExhausted index))).
Proof.
  intros w i item Hinv Hfind Hfailed.
  assert (Hres : exists b, queue_resume i (backend w) = Js.Resolved b
                           /\ ids b = ids (backend w)
                           /\ find_item i b
                              = Some (set_progress 0%Q "" "" (set_status Pending item))).
  { destruct (with_item_found
                (fun item => match status item with
                             | Paused => Js.Resolved (set_status Downloading item)
                             | Failed => Js.Resolved (set_progress 0%Q "" ""
                                                        (set_status Pending item))
                             | _ => Js.Rejected "Item is neither paused nor failed"
                             end)
                i (backend w) item
                (set_progress 0%Q "" "" (set_status Pending item)) Hfind)
      as [b [E [Hids [Hf _]]]].
    - rewrite Hfailed. reflexivity.
    - reflexivity.
    - exists b. repeat split; assumption. }
  destruct Hres as [b [E [Hids Hb]]].
  assert (Hafter : status_of i (backend (resumeQueueItem i w)) = Some Pending).
  { unfold resumeQueueItem. rewrite E. simpl.
    unfold status_of. rewrite processQueue_other.
    - simpl. rewrite Hb. reflexivity.
    - apply (resumed_item_is_hidden_from_the_pass w i Failed (proj1 Hinv)).
      + rewrite (status_of_find _ _ _ Hfind), Hfailed. reflexivity.
      + discriminate. }
  destruct (retry_invariant i w Hinv) as [Hinv' [Hs' Hf']].
  { rewrite (status_of_find _ _ _ Hfind), Hfailed. reflexivity. }
  split; [|split; [|split; [|split; [|split]]]].
  - intros index length. unfold queue_item_actions, retry_button.
    rewrite Hfailed. simpl. left. reflexivity.
  - exists b. split; [exact E|]. rewrite (status_of_find _ _ _ Hb). reflexivity.
  - exact Hafter.
  - intros Hflag. simpl. rewrite <- Hs'.
    apply processQueue_readmits; [exact Hinv' | congruence | exact Hafter].
  - intros Hflag Hauto. simpl. rewrite <- Hs'.
    apply queue_effect_readmits; [exact Hinv' | congruence | congruence | exact Hafter].
  - intros w0 item0 index Hfind0 Hdown.
    destruct (with_item_found (transfer_update (Died (SegmentFetchExhausted index)))
                i (backend w0) item0
                (set_error (Some (describe (SegmentFetchExhausted index)))
                           (set_status Failed item0)) Hfind0)
      as [b0 [E0 [_ [Hf0 _]]]].
    + unfold transfer_update. rewrite Hdown. reflexivity.
    + reflexivity.
    + eexists. unfold transfer. rewrite E0, Hf0. simpl. rewrite Hf0.
      repeat split.
Qed.

(** *** Enqueueing *)

Lemma or_string_empty_default s : Js.or_string s "" = s.
Proof. unfold Js.or_string. destruct (s =? "") eqn:E; [|reflexivity].
  apply String.eqb_eq in E. symmetry. exact E. Qed.

Lemma or_string_mp4 s d : Js.or_string (s ++ ".mp4") d = s ++ ".mp4".
Proof. unfold Js.or_string. destruct s; reflexivity. Qed.

Lemma find_item_app_r i b1 b2 :
  ~ In i (ids b1) -> find_item i (b1 ++ b2) = find_item i b2.
Proof.
  induction b1 as [|item rest IH]; [reflexivity|].
  intros H. change ((item :: rest) ++ b2)%list with (item :: (rest ++ b2))%list.
  rewrite find_item_cons.
  destruct (id item =? i) eqn:E.
  - apply String.eqb_eq in E. exfalso. apply H. left. exact E.
  - apply IH. intros Hin. apply H. right. exact Hin.
Qed.

(** The request of [addToQueue], field by field. *)
Lemma queue_add_request_fields f vi :
  DownloadTab.videoInfo f = Some vi ->
  queue_add_request f
  = Some {| Args.url := Js.trim (DownloadTab.url f);
            Args.title := Js.or_string (DownloadTab.title vi) "Unknown";
            Args.thumbnail := DownloadTab.thumbnail vi;
            Args.quality := DownloadTab.quality f;
            Args.outputDir := DownloadTab.outputDir f;
            Args.outputFilename :=
              Js.or_string (DownloadTab.filename f)
                           (sanitize (DownloadTab.title vi) ++ ".mp4") |}.
Proof.
  intros Hvi. unfold queue_add_request. rewrite Hvi.
  rewrite or_string_empty_default, or_string_mp4. reflexivity.
Qed.

(** When [addToQueue] returns, the created item is in the list as
    [queue_add] made it: the pass that may have run comes from a render
    that does not show the item. *)
Lemma addToQueue_creates f now w args :
  invariant w ->
  queue_add_request f = Some args ->
  find_item (new_id (backend w)) (backend (addToQueue new_id f now w))
  = Some (new_item (new_id (backend w)) args now).
Proof.
  intros Hinv Hreq.
  assert (Hfresh : ~ In (new_id (backend w)) (ids (backend w))) by apply new_id_fresh.
  unfold addToQueue. rewrite Hreq. simpl.
  set (i := new_id (backend w)) in *. set (created := new_item i args now).
  assert (Hadd : find_item i (backend w ++ [created]) = Some created).
  { rewrite find_item_app_r by exact Hfresh.
    rewrite find_item_cons. simpl. rewrite String.eqb_refl. reflexivity. }
  destruct (auto_start_queue (settings w)); simpl; [|exact Hadd].
  rewrite processQueue_other; [exact Hadd|].
  intros item Hin _ Hid. apply Hfresh. rewrite <- Hid.
  destruct Hinv as [[_ Hag] _]. rewrite <- (ids_of_id_status _ _ Hag).
  apply in_map. exact Hin.
Qed.

(** *** The buttons of a row, and what stays in the list *)

Lemma ids_processQueue c w : ids (backend (processQueue c w)) = ids (backend w).
Proof.
  rewrite backend_processQueue. destruct (isProcessingQueue c); [reflexivity|].
  apply start_downloads_bound.
Qed.

Lemma queue_processQueue c w :
  queue (processQueue c w) = backend (processQueue c w)
  \/ queue (processQueue c w) = queue w.
Proof.
  unfold processQueue. destruct (isProcessingQueue c); [right; reflexivity|].
  destruct (start_downloads (admitted c) (backend w)) as [b [e|]];
    [right | left]; reflexivity.
Qed.

Lemma ids_on_queue_progress data q : ids (on_queue_progress data q) = ids q.
Proof.
  unfold on_queue_progress, ids. rewrite map_map. apply map_ext.
  intros item. destruct (id item =? Event.id data); reflexivity.
Qed.

Lemma command_keeps_ids run failure w :
  ids (queue w) = ids (backend w) ->
  (forall b, run (backend w) = Js.Resolved b -> ids b = ids (backend w)) ->
  ids (backend (command run failure w)) = ids (backend w)
  /\ ids (queue (command run failure w)) = ids (backend (command run failure w)).
Proof.
  intros Hq Hrun. unfold command. destruct (run (backend w)) as [b|e] eqn:E; simpl.
  - split; [apply Hrun; reflexivity | reflexivity].
  - split; [reflexivity | exact Hq].
Qed.

(** A step that is neither a removal nor a clearing keeps every item in the
    list, and at most appends one. *)
Lemma step_keeps_items w op :
  ids (queue w) = ids (backend w) ->
  removes op = false ->
  (exists more, ids (backend (step new_id w op)) = (ids (backend w) ++ more)%list)
  /\ ids (queue (step new_id w op)) = ids (backend (step new_id w op)).
Proof.
  intros Hq Hop. destruct op; try discriminate; simpl.
  - unfold addToQueue. destruct (queue_add_request f) as [args|]; simpl.
    + destruct (auto_start_queue (settings w)); simpl.
      * rewrite ids_processQueue. simpl. rewrite ids_app.
        split; [eexists; reflexivity | reflexivity].
      * rewrite ids_app. split; [eexists; reflexivity | reflexivity].
    + split; [exists []; rewrite app_nil_r; reflexivity | exact Hq].
  - destruct (command_keeps_ids (queue_pause i) "Failed to pause: " w Hq) as [H1 H2].
    + intros b E. apply (queue_pause_bound _ _ _ E).
    + unfold pauseQueueItem. rewrite H1.
      split; [exists []; rewrite app_nil_r; reflexivity | rewrite H2, H1; reflexivity].
  - unfold resumeQueueItem.
    destruct (queue_resume i (backend w)) as [b|e] eqn:E; simpl.
    + rewrite ids_processQueue. simpl.
      rewrite (proj1 (queue_resume_bound _ _ _ E)).
      split; [exists []; rewrite app_nil_r; reflexivity | reflexivity].
    + split; [exists []; rewrite app_nil_r; reflexivity | exact Hq].
  - destruct (command_keeps_ids (queue_cancel i) "Failed to cancel: " w Hq) as [H1 H2].
    + intros b E. apply (queue_cancel_bound _ _ _ E).
    + unfold cancelQueueItem. rewrite H1.
      split; [exists []; rewrite app_nil_r; reflexivity | rewrite H2, H1; reflexivity].
  - rewrite ids_processQueue.
    split; [exists []; rewrite app_nil_r; reflexivity|].
    destruct (queue_processQueue w w) as [H | H]; rewrite H;
      [rewrite ids_processQueue; reflexivity | exact Hq].
  - unfold queue_effect. destruct (_ && _ && _)%bool.
    + rewrite ids_processQueue.
      split; [exists []; rewrite app_nil_r; reflexivity|].
      destruct (queue_processQueue w w) as [H | H]; rewrite H;
        [rewrite ids_processQueue; reflexivity | exact Hq].
    + split; [exists []; rewrite app_nil_r; reflexivity | exact Hq].
  - unfold transfer.
    destruct (with_item i (transfer_update t) (backend w)) as [b|e] eqn:E.
    + pose proof (proj1 (transfer_update_bound _ _ _ _ E)) as Hids.
      destruct (find_item i b); simpl; rewrite ?ids_on_queue_progress, Hids;
        (split; [exists []; rewrite app_nil_r; reflexivity | exact Hq]).
    + split; [exists []; rewrite app_nil_r; reflexivity | exact Hq].
Qed.

Lemma offers_move item index length :
  offers is_move item index length = true <-> status item = Pending.
Proof.
  unfold offers, queue_item_actions.
  destruct (status item); simpl;
    try (destruct (Js.truthy (file_path item)); simpl);
    split; (reflexivity || discriminate).
Qed.

Lemma offers_cancel item index length :
  offers is_cancel item index length = true
  <-> (status item = Pending \/ status item = Paused).
Proof.
  unfold offers, queue_item_actions.
  destruct (status item); simpl;
    try (destruct (Js.truthy (file_path item)); simpl);
    split; auto; try discriminate; intros [H|H]; discriminate.
Qed.

Lemma offers_remove item index length :
  offers is_remove item index length = true
  <-> (status item = Completed \/ status item = Failed \/ status item = Cancelled).
Proof.
  unfold offers, queue_item_actions.
  destruct (status item); simpl;
    try (destruct (Js.truthy (file_path item)); simpl);
    split; auto; try discriminate; intros [H|[H|H]]; discriminate.
Qed.

(** C4, as the code has it: a row offers the two move buttons exactly when
    its item is Pending, Cancel exactly when it is Pending or Paused, and
    Remove exactly when it is Completed, Failed or Cancelled; and no step
    other than a removal or a clearing takes an item out of the list, so an
    item that is Completed, Failed or Cancelled stays listed until
    then. *)
Theorem row_buttons_by_status_and_items_stay :
  (forall (item : QueueItem) (index length : nat),
      (offers is_move item index length = true <-> status item = Pending)
      /\ (offers is_cancel item index length = true
          <-> (status item = Pending \/ status item = Paused))
      /\ (offers is_remove item index length = true
          <-> (status item = Completed \/ status item = Failed
               \/ status item = Cancelled)))
  /\ (forall (w : World) (op : Op) (j : string),
         ids (queue w) = ids (backend w) ->
         removes op = false ->
         In j (ids (queue w)) ->
         In j (ids (queue (step new_id w op)))
         /\ In j (ids (backend (step new_id w op)))).
Proof.
  split.
  - intros item index length.
    split; [apply offers_move | split; [apply offers_cancel | apply offers_remove]].
  - intros w op j Hq Hop Hj.
    destruct (step_keeps_items w op Hq Hop) as [[more Hb] Hq'].
    rewrite Hq', Hb. rewrite Hq in Hj.
    split; apply in_or_app; left; exact Hj.
Qed.

End QueueFacts.

(** ** The model at work *)

Section Runs.

Import Queue.

Lemma fresh_id_longer items :
  forall item, In item items ->
               (String.length (id item) < String.length (fresh_id items))%nat.
Proof.
  induction items as [|x rest IH]; intros item Hin; [destruct Hin|].
  simpl. destruct (String.length (fresh_id rest) <=? String.length (id x))%nat eqn:E.
  - apply Nat.leb_le in E. destruct Hin as [<- | Hin]; simpl; [lia|].
    specialize (IH _ Hin). lia.
  - apply Nat.leb_gt in E. destruct Hin as [<- | Hin]; [exact E | apply IH; exact Hin].
Qed.

Lemma fresh_id_is_new items : ~ In (fresh_id items) (ids items).
Proof.
  intros Hin. apply in_map_iff in Hin. destruct Hin as [item [Hid Hin]].
  pose proof (fresh_id_longer items item Hin) as H. rewrite Hid in H. lia.
Qed.

Lemma world_invariant items settings :
  NoDup (ids items) ->
  (Z.of_nat (active items) <= max_concurrent_downloads settings)%Z ->
  invariant (Examples.world items settings).
Proof.
  intros Hnd Hmax. split; [split; [exact Hnd | reflexivity] | exact Hmax].
Qed.

Lemma empty_world_invariant : invariant (Examples.world [] initial_settings).
Proof. apply world_invariant; [constructor | simpl; lia]. Qed.



Example paused_item_waits_for_no_slot :
  map id_status
      (backend (run fresh_id (Examples.world [] initial_settings)
                    (firstn 6 Examples.busy_day)))
  = [("q", Paused); ("qq", Downloading); ("qqq", Downloading)].
Proof. vm_compute. reflexivity. Qed.

(** C8, as stated, fails when auto-start is off: after an enqueue and the
    effect that follows it, the item is Pending, nothing is Downloading, and
    the maximum is 2. *)
Lemma enqueue_without_auto_start_starts_nothing :
  let w := run fresh_id (Examples.world [] Examples.manual_settings)
               [AddToQueue (Examples.form "" (Some Examples.info)) "t1"; QueueEffect] in
  map id_status (backend w) = [("q", Pending)]
  /\ active (backend w) = 0%nat
  /\ max_concurrent_downloads (settings w) = 2%Z
  /\ ~ saturated w.
Proof.
  repeat split. intros [H | H]; [discriminate H | vm_compute in H; apply H; reflexivity].
Qed.

Lemma enqueue_is_followed_by_a_pass_when_auto_start_witness :
  saturated (queue_effect
               (addToQueue fresh_id (Examples.form "" (Some Examples.info)) "t1"
                           (Examples.world [] initial_settings))).
Proof.
  exact (proj1 (proj1 (enqueue_is_followed_by_a_pass_when_auto_start
                         fresh_id fresh_id_is_new
                         (Examples.world [] initial_settings)
                         empty_world_invariant)
                      eq_refl eq_refl)
               (Examples.form "" (Some Examples.info)) "t1").
Defined.

Example enqueue_with_auto_start_admits :
  map id_status
      (backend (queue_effect
                  (addToQueue fresh_id (Examples.form "" (Some Examples.info)) "t1"
                              (Examples.world [] initial_settings))))
  = [("q", Downloading)].
Proof. vm_compute. reflexivity. Qed.

(** C4, as stated, fails: a Paused row offers neither the move buttons nor
    Remove, and a Completed row offers Remove. *)
Lemma paused_row_offers_neither_move_nor_remove :
  ~ (forall (item : QueueItem) (index length : nat),
        (offers is_remove item index length = true
         <-> (status item = Pending \/ status item = Paused))
        /\ (offers is_move item index length = true
            <-> (status item = Pending \/ status item = Paused))).
Proof.
  intros H.
  destruct (H (Examples.item "a" Paused None) 0%nat 1%nat) as [_ [_ Hmove]].
  specialize (Hmove (or_intror eq_refl)). discriminate Hmove.
Qed.

Example row_buttons :
  map button_title (queue_item_actions (Examples.item "a" Paused None) 0 1)
  = ["Resume"; "Cancel"]
  /\ map button_title (queue_item_actions (Examples.item "a" Pending None) 0 1)
     = ["Move up"; "Move down"; "Cancel"]
  /\ map button_title
         (queue_item_actions (Examples.item "a" Completed (Some "/d/a.mp4")) 0 1)
     = ["Play"; "Remove"]
  /\ map button_title (queue_item_actions (Examples.item "a" Failed None) 0 1)
     = ["Retry"; "Remove"].
Proof. repeat split. Qed.

Lemma row_buttons_by_status_and_items_stay_witness :
  In "a" (ids (queue (step fresh_id
                           (Examples.world [Examples.item "a" Completed (Some "/d/a.mp4");
                                            Examples.item "b" Pending None]
                                           initial_settings)
                           QueueEffect))).
Proof.
  apply (proj2 (row_buttons_by_status_and_items_stay fresh_id)
               (Examples.world [Examples.item "a" Completed (Some "/d/a.mp4");
                                Examples.item "b" Pending None]
                               initial_settings)
               QueueEffect "a").
  - reflexivity.
  - reflexivity.
  - simpl. left. reflexivity.
Defined.

Lemma failed_world_invariant :
  invariant (Examples.world [Examples.item "a" Failed None] initial_settings).
Proof.
  apply world_invariant; [|simpl; lia].
  constructor; [intros [] | constructor].
Qed.

Lemma retry_returns_failed_item_to_pending_witness :
  status_of "a"
    (backend (resumeQueueItem "a"
                (Examples.world [Examples.item "a" Failed None] initial_settings)))
  = Some Pending.
Proof.
  exact (proj1 (proj2 (proj2 (retry_returns_failed_item_to_pending
                                fresh_id
                                (Examples.world [Examples.item "a" Failed None]
                                                initial_settings)
                                "a" (Examples.item "a" Failed None)
                                failed_world_invariant eq_refl eq_refl)))).
Defined.

Example retry_then_effect_downloads :
  map id_status
      (backend (run fresh_id
                    (Examples.world [Examples.item "a" Failed None] initial_settings)
                    [ResumeQueueItem "a"; QueueEffect]))
  = [("a", Downloading)].
Proof. vm_compute. reflexivity. Qed.

(** C6: the request of [addToQueue] has the six fields, computed from the
    form; [queue_add] creates the item with the id the generator returns,
    the fields of the request and the status Pending; the modelled generator
    returns an id that no item of the list has; when [addToQueue] returns,
    the item is in the list, unchanged and therefore still Pending, and the
    ids of the list are distinct.  For any generator, the ids stay distinct
    exactly when the returned id is new. *)
Theorem enqueue_creates_pending_item_with_new_id :
  forall (w : World) (f : DownloadTab.Form) (vi : DownloadTab.VideoInfo) (now : string),
    invariant w ->
    DownloadTab.videoInfo f = Some vi ->
    let args :=
      {| Args.url := Js.trim (DownloadTab.url f);
         Args.title := Js.or_string (DownloadTab.title vi) "Unknown";
         Args.thumbnail := DownloadTab.thumbnail vi;
         Args.quality := DownloadTab.quality f;
         Args.outputDir := DownloadTab.outputDir f;
         Args.outputFilename :=
           Js.or_string (DownloadTab.filename f)
                        (sanitize (DownloadTab.title vi) ++ ".mp4") |} in
    let i := fresh_id (backend w) in
    let created := new_item i args now in
    queue_add_request f = Some args
    /\ queue_add fresh_id args now (backend w)
       = Js.Resolved (i, (backend w ++ [created])%list)
    /\ ~ In i (ids (backend w))
    /\ id created = i
    /\ status created = Pending
    /\ (url created, title created, thumbnail created, quality created,
        output_dir created, output_filename created)
       = (Args.url args, Args.title args, Args.thumbnail args, Args.quality args,
          Args.outputDir args, Args.outputFilename args)
    /\ find_item i (backend (addToQueue fresh_id f now w)) = Some created
    /\ NoDup (ids (backend (addToQueue fresh_id f now w)))
    /\ (forall new_id : list QueueItem -> string,
           NoDup (ids (backend (addToQueue new_id f now w)))
           <-> ~ In (new_id (backend w)) (ids (backend w))).
Proof.
  intros w f vi now Hinv Hvi args i created.
  pose proof (queue_add_request_fields f vi Hvi) as Hreq. fold args in Hreq.
  assert (Hsame : forall g, NoDup (ids (backend (addToQueue g f now w)))
                            <-> ~ In (g (backend w)) (ids (backend w))).
  { intros g. rewrite (ids_addToQueue g f now w args Hreq). split.
    - intros Hnd Hin. apply NoDup_remove_2 in Hnd. apply Hnd.
      rewrite app_nil_r. exact Hin.
    - intros Hnot. apply NoDup_snoc; [apply Hinv | exact Hnot]. }
  assert (Hfresh : ~ In i (ids (backend w))) by apply fresh_id_is_new.
  split; [exact Hreq|]. split; [reflexivity|]. split; [exact Hfresh|].
  split; [reflexivity|]. split; [reflexivity|]. split; [reflexivity|].
  split; [|split; [|exact Hsame]].
  - apply (addToQueue_creates fresh_id fresh_id_is_new); assumption.
  - apply Hsame. exact Hfresh.
Qed.

Lemma enqueue_creates_pending_item_with_new_id_witness :
  option_map status
    (find_item "q"
       (backend (addToQueue fresh_id (Examples.form "" (Some Examples.info)) "t1"
                            (Examples.world [] initial_settings))))
  = Some Pending.
Proof.
  destruct (enqueue_creates_pending_item_with_new_id
              (Examples.world [] initial_settings)
              (Examples.form "" (Some Examples.info)) Examples.info "t1"
              empty_world_invariant eq_refl)
    as [_ [_ [_ [_ [_ [_ [H _]]]]]]].
  exact (f_equal (option_map status) H).
Defined.

Example enqueue_request :
  queue_add_request (Examples.form "" (Some Examples.info))
  = Some {| Args.url := "https://xn--12ca1ddhqak6ecxc9b.com/v/1";
            Args.title := "EP.1: part 2";
            Args.thumbnail := "";
            Args.quality := "720p";
            Args.outputDir := "/d";
            Args.outputFilename := "EP.1_ part 2.mp4" |}.
Proof. reflexivity. Qed.

End Runs.

(** ** The helpers at work *)

Example trim_example : Js.trim "  a b.mp4 " = "a b.mp4".
Proof. reflexivity. Qed.

(** A no-break space, an ideographic space and a byte order mark are
    stripped like the ASCII white space; a zero width space is not. *)
Example trim_unicode_example :
  Js.trim (Js.bytes [194; 160; 227; 128; 128; 97; 32; 98; 239; 187; 191; 10])
  = "a b"
  /\ Js.trim (Js.bytes [226; 128; 139; 97]) = Js.bytes [226; 128; 139; 97].
Proof. split; reflexivity. Qed.

Example test_example :
  Js.test {| Js.literal := "xn--12ca1ddhqak6ecxc9b.com" |} "WWW.XN--12CA1DDHQAK6ECXC9B.COM"
  = true.
Proof. reflexivity. Qed.

Example isSupportedUrl_example :
  Url.isSupportedUrl Url.example_URL "https://xn--12ca1ddhqak6ecxc9b.com/video/1" = true
  /\ Url.isSupportedUrl Url.example_URL "ftp://example.org/x" = false
  /\ Url.isValidUrl Url.example_URL "https://example.org/x" = true
  /\ Url.isValidUrl Url.example_URL "ftp://example.org/x" = false
  /\ Url.isValidUrl Url.example_URL "not a url" = false.
Proof. repeat split; reflexivity. Qed.

(** * Further properties of the code *)

(** ** The queue-progress listener as an operation on the list *)

Section QueueProgressFacts.

Import Queue.

Lemma or_nullable_assoc (a b c : option string) :
  Js.or_nullable a (Js.or_nullable b c) = Js.or_nullable (Js.or_nullable a b) c.
Proof.
  unfold Js.or_nullable. destruct a as [x|]; [|reflexivity].
  destruct (x =? "") eqn:E; simpl; rewrite ?E; reflexivity.
Qed.

Lemma or_nullable_twice (a b : option string) :
  Js.or_nullable a (Js.or_nullable a b) = Js.or_nullable a b.
Proof.
  unfold Js.or_nullable. destruct a as [x|]; [|reflexivity].
  destruct (x =? "") eqn:E; simpl; rewrite ?E; reflexivity.
Qed.

(** An event for an id that no row has leaves the list as it is. *)
Theorem queue_progress_for_unknown_id_changes_nothing :
  forall (data : Event.QueueProgress) (prev : list QueueItem),
    ~ In (Event.id data) (ids prev) ->
    on_queue_progress data prev = prev.
Proof.
  intros data prev. unfold on_queue_progress.
  induction prev as [|item rest IH]; intros Hnot; [reflexivity|].
  simpl. destruct (id item =? Event.id data) eqn:E.
  - apply String.eqb_eq in E. exfalso. apply Hnot. left. exact E.
  - f_equal. apply IH. intros Hin. apply Hnot. right. exact Hin.
Qed.

Lemma queue_progress_for_unknown_id_changes_nothing_witness :
  on_queue_progress Examples.completed_a [Examples.item "b" Pending None]
  = [Examples.item "b" Pending None].
Proof.
  apply queue_progress_for_unknown_id_changes_nothing.
  simpl. intros [H | []]. discriminate H.
Defined.

(** Delivering the same event twice is delivering it once. *)
Theorem queue_progress_is_idempotent :
  forall (data : Event.QueueProgress) (prev : list QueueItem),
    on_queue_progress data (on_queue_progress data prev) = on_queue_progress data prev.
Proof.
  intros data prev. unfold on_queue_progress. rewrite map_map.
  apply map_ext. intros item.
  destruct (id item =? Event.id data) eqn:E; simpl; rewrite E; [|reflexivity].
  unfold merge_progress. simpl. rewrite or_nullable_twice. reflexivity.
Qed.

(** Events of two different items can be delivered in either order. *)
Theorem queue_progress_of_different_items_commute :
  forall (d1 d2 : Event.QueueProgress) (prev : list QueueItem),
    Event.id d1 <> Event.id d2 ->
    on_queue_progress d1 (on_queue_progress d2 prev)
    = on_queue_progress d2 (on_queue_progress d1 prev).
Proof.
  intros d1 d2 prev Hne. unfold on_queue_progress. rewrite !map_map.
  apply map_ext. intros item.
  destruct (id item =? Event.id d2) eqn:E2; destruct (id item =? Event.id d1) eqn:E1;
    simpl; rewrite ?E1, ?E2; try reflexivity.
  apply String.eqb_eq in E1. apply String.eqb_eq in E2. congruence.
Qed.

Lemma queue_progress_of_different_items_commute_witness :
  on_queue_progress Examples.completed_a
    (on_queue_progress Examples.failed_b
       [Examples.item "a" Downloading None; Examples.item "b" Downloading None])
  = on_queue_progress Examples.failed_b
      (on_queue_progress Examples.completed_a
         [Examples.item "a" Downloading None; Examples.item "b" Downloading None]).
Proof.
  apply queue_progress_of_different_items_commute. simpl. discriminate.
Defined.

(** Two events of the same item amount to the later one, except that the
    file path of the earlier one is kept when the later one has none. *)
Theorem queue_progress_later_event_wins :
  forall (d1 d2 : Event.QueueProgress) (prev : list QueueItem),
    Event.id d1 = Event.id d2 ->
    on_queue_progress d2 (on_queue_progress d1 prev)
    = on_queue_progress
        {| Event.id := Event.id d2; Event.status := Event.status d2;
           Event.progress := Event.progress d2; Event.speed := Event.speed d2;
           Event.eta := Event.eta d2; Event.message := Event.message d2;
           Event.file_path := Js.or_nullable (Event.file_path d2) (Event.file_path d1) |}
        prev.
Proof.
  intros d1 d2 prev Hid. unfold on_queue_progress. rewrite map_map.
  apply map_ext. intros item. simpl. rewrite Hid.
  destruct (id item =? Event.id d2) eqn:E; simpl; rewrite E; [|reflexivity].
  unfold merge_progress. simpl. rewrite or_nullable_assoc. reflexivity.
Qed.

Lemma queue_progress_later_event_wins_witness :
  map (fun i => (status i, file_path i))
    (on_queue_progress Examples.completed_a
       (on_queue_progress Examples.downloading_a [Examples.item "a" Pending None]))
  = [(Completed, Some "/d/a.part")].
Proof.
  rewrite (queue_progress_later_event_wins Examples.downloading_a Examples.completed_a
             [Examples.item "a" Pending None] eq_refl).
  reflexivity.
Defined.

End QueueProgressFacts.

(** ** File names, video info and the buttons of the download tab *)

Section PageFacts.

Import DownloadTab Page.

Lemma chars_append (a b : string) :
  list_ascii_of_string (a ++ b)
  = (list_ascii_of_string a ++ list_ascii_of_string b)%list.
Proof. induction a as [|c a IH]; simpl; [reflexivity | rewrite IH; reflexivity]. Qed.

Lemma sanitize_is_clean (s : string) :
  Forall (fun c => Queue.is_reserved c = false) (list_ascii_of_string (Queue.sanitize s)).
Proof.
  induction s as [|c s IH]; simpl; constructor; [|exact IH].
  destruct (Queue.is_reserved c) eqn:E; [reflexivity | exact E].
Qed.

Lemma sanitize_of_clean (s : string) :
  Forall (fun c => Queue.is_reserved c = false) (list_ascii_of_string s) ->
  Queue.sanitize s = s.
Proof.
  induction s as [|c s IH]; simpl; intros H; [reflexivity|].
  inversion H as [|? ? Hc Hs]; subst. rewrite Hc, (IH Hs). reflexivity.
Qed.

(** The replacement of reserved characters keeps the length of a name,
    leaves none of the nine reserved characters in it, changes nothing in a
    name that has none, and so changes nothing when applied again. *)
Theorem sanitized_names_have_no_reserved_character :
  forall s : string,
    String.length (Queue.sanitize s) = String.length s
    /\ Forall (fun c => Queue.is_reserved c = false)
              (list_ascii_of_string (Queue.sanitize s))
    /\ (Forall (fun c => Queue.is_reserved c = false) (list_ascii_of_string s) ->
        Queue.sanitize s = s)
    /\ Queue.sanitize (Queue.sanitize s) = Queue.sanitize s.
Proof.
  intros s. split; [|split; [|split]].
  - induction s as [|c s IH]; simpl; [reflexivity | rewrite IH; reflexivity].
  - apply sanitize_is_clean.
  - apply sanitize_of_clean.
  - apply sanitize_of_clean, sanitize_is_clean.
Qed.

Lemma sanitized_names_have_no_reserved_character_witness :
  Queue.sanitize "EP.1 part 2" = "EP.1 part 2".
Proof.
  apply (proj1 (proj2 (proj2 (sanitized_names_have_no_reserved_character "EP.1 part 2")))).
  repeat constructor.
Defined.

Lemma first_quality_available (qualities : list string) :
  ~ In ""%string qualities ->
  In (first_quality qualities)
     (if (0 <? List.length qualities)%nat then qualities else ["auto"%string]).
Proof.
  destruct qualities as [|q rest]; simpl; intros H; [left; reflexivity|].
  left. unfold Js.or_string. destruct (q =? "")%string eqn:E; [|reflexivity].
  apply String.eqb_eq in E. exfalso. apply H. left. exact E.
Qed.

(** A fetch that succeeds fills the form: the info is shown, the list of
    qualities is not empty, the selected quality is one of the list when no
    label of the info is empty, and a non-empty title proposes the file name
    [title.mp4] with its reserved characters replaced; the URL and the
    folder are kept. *)
Theorem fetched_info_fills_the_form :
  forall (info : VideoInfo) (p : State),
    has_url p = true ->
    let p' := handleFetchInfo (Js.Resolved info) p in
    videoInfo (form (tab p')) = Some info
    /\ isFetchingInfo p' = false
    /\ availableQualities p' <> []
    /\ (~ In ""%string (qualities info) ->
        In (quality (form (tab p'))) (availableQualities p'))
    /\ (title info <> ""%string ->
        filename (form (tab p')) = (Queue.sanitize (title info) ++ ".mp4")%string
        /\ Forall (fun c => Queue.is_reserved c = false)
                  (list_ascii_of_string (filename (form (tab p')))))
    /\ (title info = ""%string -> filename (form (tab p')) = filename (form (tab p)))
    /\ url (form (tab p')) = url (form (tab p))
    /\ outputDir (form (tab p')) = outputDir (form (tab p)).
Proof.
  intros info p Hurl p'. unfold p', handleFetchInfo. rewrite Hurl.
  destruct (title info =? "")%string eqn:Et; simpl.
  - apply String.eqb_eq in Et.
    repeat split; try contradiction;
      [destruct (qualities info); simpl; discriminate | apply first_quality_available].
  - apply String.eqb_neq in Et.
    repeat split; try contradiction;
      [destruct (qualities info); simpl; discriminate | apply first_quality_available |].
    rewrite chars_append. apply Forall_app. split; [apply sanitize_is_clean|].
    repeat constructor.
Qed.

Lemma fetched_info_fills_the_form_witness :
  filename (form (tab (handleFetchInfo (Js.Resolved Examples.info)
                         (withTab (fun _ => Examples.download_state "") initial_state))))
  = "EP.1_ part 2.mp4"%string.
Proof.
  destruct (fetched_info_fills_the_form Examples.info
              (withTab (fun _ => Examples.download_state "") initial_state) eq_refl)
    as [_ [_ [_ [_ [H _]]]]].
  destruct H as [H _]; [discriminate|]. rewrite H. reflexivity.
Defined.

(** A fetch that fails drops the info shown before it, and with it the Add
    to Queue button; the rest of the form is kept. *)
Theorem failed_fetch_drops_the_preview :
  forall (e : string) (p : State),
    has_url p = true ->
    let p' := handleFetchInfo (Js.Rejected e) p in
    videoInfo (form (tab p')) = None
    /\ shows_add_to_queue p' = false
    /\ isFetchingInfo p' = false
    /\ (url (form (tab p')), outputDir (form (tab p')), filename (form (tab p')),
        quality (form (tab p')))
       = (url (form (tab p)), outputDir (form (tab p)), filename (form (tab p)),
          quality (form (tab p)))
    /\ availableQualities p' = availableQualities p.
Proof.
  intros e p Hurl p'. unfold p', handleFetchInfo, shows_add_to_queue.
  rewrite Hurl. simpl. repeat split.
Qed.

Lemma failed_fetch_drops_the_preview_witness :
  shows_add_to_queue
    (handleFetchInfo (Js.Rejected "timeout")
       (withTab (fun _ => Examples.fetched_state) initial_state))
  = false
  /\ shows_add_to_queue (withTab (fun _ => Examples.fetched_state) initial_state) = true.
Proof.
  split; [|reflexivity].
  apply (failed_fetch_drops_the_preview "timeout"
           (withTab (fun _ => Examples.fetched_state) initial_state) eq_refl).
Defined.

(** *** [handleDownload] from start to end *)

Lemma download_requests_perform e s :
  download_requests (perform e s)
  = (download_requests s
     ++ match e with Invoke_download_video r => [r] | _ => [] end)%list.
Proof.
  unfold download_requests, perform. simpl.
  rewrite flat_map_app. simpl. rewrite app_nil_r. reflexivity.
Qed.



Lemma handleDownload_sends_one_request now result added now_ms now_iso s :
  Js.trim (url (form s)) <> ""%string ->
  download_requests (handleDownload now result added now_ms now_iso s)
  = (download_requests s ++ [download_request (form s)])%list.
Proof.
  intros H. apply String.eqb_neq in H.
  unfold handleDownload, handleDownload_begin. rewrite H.
  unfold handleDownload_end, download_requests.
  destruct result as [m|e]; [destruct added as [u|e]|]; simpl;
    rewrite !flat_map_app; simpl; rewrite ?app_nil_r; reflexivity.
Qed.

Lemma handleFetchInfo_ends result p :
  has_url p = true ->
  isFetchingInfo (handleFetchInfo result p) = false
  /\ videoInfo (form (tab (handleFetchInfo result p)))
     = match result with
       | Js.Resolved info => Some info
       | Js.Rejected _ => None
       end.
Proof.
  intros H. unfold handleFetchInfo. rewrite H.
  destruct result as [info|e]; [|split; reflexivity].
  destruct (title info =? "")%string; split; reflexivity.
Qed.

(** The buttons are rendered so that their handlers do not meet the input
    they reject: where Add to Queue is shown the request can be built, where
    Download is enabled the request is sent, and where the fetch button is
    enabled the fetch runs and ends with [isFetchingInfo] off. *)
Theorem buttons_guard_their_handlers :
  forall p : State,
    (shows_add_to_queue p = true ->
     exists args, Queue.queue_add_request (form (tab p)) = Some args)
    /\ (download_disabled p = false ->
        forall now result added now_ms now_iso,
          download_requests (handleDownload now result added now_ms now_iso (tab p))
          = (download_requests (tab p) ++ [download_request (form (tab p))])%list)
    /\ (fetch_disabled p = false ->
        forall result,
          isFetchingInfo (handleFetchInfo result p) = false
          /\ videoInfo (form (tab (handleFetchInfo result p)))
             = match result with
               | Js.Resolved info => Some info
               | Js.Rejected _ => None
               end).
Proof.
  intros p. split; [|split].
  - unfold shows_add_to_queue, Queue.queue_add_request.
    destruct (videoInfo (form (tab p))); [eexists; reflexivity | discriminate].
  - unfold download_disabled. intros H now result added now_ms now_iso.
    apply orb_false_iff in H. destruct H as [_ H]. apply negb_false_iff in H.
    unfold has_url, url_of in H. apply negb_true_iff, String.eqb_neq in H.
    apply handleDownload_sends_one_request. exact H.
  - unfold fetch_disabled. intros H result.
    apply orb_false_iff in H. destruct H as [_ H]. apply negb_false_iff in H.
    apply handleFetchInfo_ends. exact H.
Qed.

Lemma buttons_guard_their_handlers_witness :
  exists args,
    Queue.queue_add_request
      (form (tab (withTab (fun _ => Examples.fetched_state) initial_state)))
    = Some args.
Proof.
  apply (proj1 (buttons_guard_their_handlers
                  (withTab (fun _ => Examples.fetched_state) initial_state))).
  reflexivity.
Defined.

End PageFacts.

(** ** The clipboard check and the site check *)

Section ClipboardFacts.

Import DownloadTab Page.

(** *** [trim] strips all the white space at both ends, and nothing else *)

Lemma prefix_app (w x r : string) :
  String.prefix w x = true -> String.prefix w (x ++ r) = true.
Proof.
  revert x. induction w as [|a w IH]; intros x H;
    [destruct x; simpl; [destruct r|]; reflexivity|].
  destruct x as [|b x]; [discriminate H|].
  simpl in *. destruct (ascii_dec a b); [apply IH; exact H | discriminate H].
Qed.

Lemma prefix_drop (w x : string) :
  String.prefix w x = true -> x = (w ++ Js.drop (String.length w) x)%string.
Proof.
  revert x. induction w as [|a w IH]; intros x H; [destruct x; reflexivity|].
  destruct x as [|b x]; [discriminate H|].
  simpl in *. destruct (ascii_dec a b) as [->|]; [|discriminate H].
  f_equal. apply IH. exact H.
Qed.

Lemma length_drop (n : nat) (x : string) :
  String.length (Js.drop n x) = (String.length x - n)%nat.
Proof.
  revert x. induction n as [|n IH]; intros [|c x]; simpl; auto with arith.
Qed.

Lemma white_space_not_empty (w : string) :
  In w Js.white_space -> (0 < String.length w)%nat.
Proof.
  intros H. assert (Hall : forallb (fun w => Nat.ltb 0 (String.length w)) Js.white_space
                           = true) by reflexivity.
  rewrite forallb_forall in Hall. apply Nat.ltb_lt. apply Hall. exact H.
Qed.

Lemma leading_white_space_found (s w : string) :
  Js.leading_white_space s = Some w ->
  In w Js.white_space /\ String.prefix w s = true.
Proof. intros H. apply find_some in H. exact H. Qed.

(** The loop of [trimStart] has fuel enough: its result does not start with
    white space. *)
Lemma trimStart_loop_ends (fuel : nat) :
  forall s, (String.length s <= fuel)%nat ->
            Js.leading_white_space (Js.trimStart_loop fuel s) = None.
Proof.
  induction fuel as [|fuel IH]; intros s Hlen.
  - destruct s; [reflexivity | simpl in Hlen; lia].
  - simpl. destruct (Js.leading_white_space s) as [w|] eqn:E; [|exact E].
    apply IH. destruct (leading_white_space_found s w E) as [Hin Hp].
    pose proof (white_space_not_empty w Hin). rewrite length_drop. lia.
Qed.

Lemma trimStart_ends (s : string) : Js.leading_white_space (Js.trimStart s) = None.
Proof. apply trimStart_loop_ends. apply Nat.le_refl. Qed.

Lemma trimStart_fixed (s : string) :
  Js.leading_white_space s = None -> Js.trimStart s = s.
Proof.
  intros H. unfold Js.trimStart. destruct (String.length s); [reflexivity|].
  simpl. rewrite H. reflexivity.
Qed.

(** What [trimStart] strips is white space, code point by code point. *)
Lemma trimStart_loop_strips (fuel : nat) :
  forall s, exists stripped,
    s = fold_right String.append (Js.trimStart_loop fuel s) stripped
    /\ Forall (fun w => In w Js.white_space) stripped.
Proof.
  induction fuel as [|fuel IH]; intros s; [exists []; split; [reflexivity | constructor]|].
  simpl. destruct (Js.leading_white_space s) as [w|] eqn:E;
    [|exists []; split; [reflexivity | constructor]].
  destruct (leading_white_space_found s w E) as [Hin Hp].
  destruct (IH (Js.drop (String.length w) s)) as [stripped [Hs Hall]].
  exists (w :: stripped). split; [|constructor; assumption].
  simpl. rewrite <- Hs. apply prefix_drop. exact Hp.
Qed.

Lemma trimEnd_prefix (s : string) : exists r, s = (Js.trimEnd s ++ r)%string.
Proof.
  induction s as [|c s [r IH]]; [exists EmptyString; reflexivity|].
  simpl. destruct (Js.is_white_space (String c (Js.trimEnd s))).
  - exists (String c s). reflexivity.
  - exists r. simpl. rewrite <- IH. reflexivity.
Qed.

Lemma trimEnd_twice (s : string) : Js.trimEnd (Js.trimEnd s) = Js.trimEnd s.
Proof.
  induction s as [|c s IH]; [reflexivity|].
  simpl. destruct (Js.is_white_space (String c (Js.trimEnd s))) eqn:E; [reflexivity|].
  simpl. rewrite IH, E. reflexivity.
Qed.

(** [trimEnd] leaves no white space at the start of a string that had
    none. *)
Lemma trimEnd_keeps_start (s : string) :
  Js.leading_white_space s = None -> Js.leading_white_space (Js.trimEnd s) = None.
Proof.
  intros H. destruct (Js.leading_white_space (Js.trimEnd s)) as [w|] eqn:E; [|reflexivity].
  destruct (leading_white_space_found _ w E) as [Hin Hp].
  destruct (trimEnd_prefix s) as [r Hr].
  apply (prefix_app w _ r) in Hp. rewrite <- Hr in Hp.
  unfold Js.leading_white_space in H.
  pose proof (find_none _ _ H w Hin) as Hn. simpl in Hn. congruence.
Qed.

(** The model of [trim] has the fixed point of the platform's: trimming a
    trimmed string changes nothing. *)
Lemma trim_twice (s : string) : Js.trim (Js.trim s) = Js.trim s.
Proof.
  unfold Js.trim.
  rewrite (trimStart_fixed (Js.trimEnd (Js.trimStart s))).
  - apply trimEnd_twice.
  - apply trimEnd_keeps_start, trimStart_ends.
Qed.

Variable new_URL : string -> option Url.URL.

(** The clipboard check is guarded by the render that created it: it leaves
    the page alone when that render shows a URL that is not blank, a
    download or a fetch running, and when the clipboard cannot be read; when
    it does change the URL, the new URL is the trimmed clipboard text, it
    parses with protocol [http:] or [https:], and the field is marked as
    filled from the clipboard.  The rest of the form and the download state
    are never touched.  The check that a focus event runs belongs to the
    current render, and so fills only a blank field. *)
Theorem clipboard_check_is_guarded_by_its_render :
  forall (c : State) (text : Js.Promise string) (p : State),
    let p' := checkClipboard new_URL c text p in
    ((has_url c = true \/ isDownloading (tab c) = true \/ isFetchingInfo c = true
      \/ (exists e, text = Js.Rejected e)) ->
     p' = p)
    /\ (url_of p' <> url_of p ->
        exists t parsed,
          text = Js.Resolved t
          /\ url_of p' = Js.trim t
          /\ new_URL (url_of p') = Some parsed
          /\ (Url.protocol parsed = "http:"%string
              \/ Url.protocol parsed = "https:"%string)
          /\ urlSource p' = Some clipboard
          /\ clipboardDetected p' = true
          /\ Js.trim (url_of c) = ""%string
          /\ isDownloading (tab c) = false
          /\ isFetchingInfo c = false)
    /\ (outputDir (form (tab p')), filename (form (tab p')), quality (form (tab p')),
        videoInfo (form (tab p')))
       = (outputDir (form (tab p)), filename (form (tab p)), quality (form (tab p)),
          videoInfo (form (tab p)))
    /\ (tracking (tab p'), progress (tab p'), status (tab p'), isDownloading (tab p'),
        effects (tab p'), isFetchingInfo p')
       = (tracking (tab p), progress (tab p), status (tab p), isDownloading (tab p),
          effects (tab p), isFetchingInfo p)
    /\ (url_of (handleFocus new_URL text p) <> url_of p ->
        Js.trim (url_of p) = ""%string).
Proof.
  intros c text p p'.
  assert (Hmain :
    ((has_url c = true \/ isDownloading (tab c) = true \/ isFetchingInfo c = true
      \/ (exists e, text = Js.Rejected e)) ->
     p' = p)
    /\ (url_of p' <> url_of p ->
        exists t parsed,
          text = Js.Resolved t
          /\ url_of p' = Js.trim t
          /\ new_URL (url_of p') = Some parsed
          /\ (Url.protocol parsed = "http:"%string
              \/ Url.protocol parsed = "https:"%string)
          /\ urlSource p' = Some clipboard
          /\ clipboardDetected p' = true
          /\ has_url c = false
          /\ isDownloading (tab c) = false
          /\ isFetchingInfo c = false)
    /\ (outputDir (form (tab p')), filename (form (tab p')), quality (form (tab p')),
        videoInfo (form (tab p')))
       = (outputDir (form (tab p)), filename (form (tab p)), quality (form (tab p)),
          videoInfo (form (tab p)))
    /\ (tracking (tab p'), progress (tab p'), status (tab p'), isDownloading (tab p'),
        effects (tab p'), isFetchingInfo p')
       = (tracking (tab p), progress (tab p), status (tab p), isDownloading (tab p),
          effects (tab p), isFetchingInfo p)).
  { unfold p', checkClipboard.
    destruct (has_url c) eqn:Hu; simpl;
      [repeat split; congruence|].
    destruct (isDownloading (tab c)) eqn:Hd; simpl; [repeat split; congruence|].
    destruct (isFetchingInfo c) eqn:Hf; simpl; [repeat split; congruence|].
    destruct text as [t|e]; [|repeat split; congruence].
    destruct (Url.isValidUrl new_URL (Js.trim t)) eqn:Hv; [|split;
      [intros [H|[H|[H|[e H]]]]; (discriminate H || reflexivity)
      | repeat split; congruence]].
    split; [intros [H|[H|[H|[e H]]]]; discriminate H|].
    apply isValidUrl_spec in Hv. destruct Hv as [parsed [Hparse Hproto]].
    destruct (Url.isSupportedUrl new_URL (Js.trim t)); simpl;
      (split; [intros _; exists t, parsed; repeat split; assumption
              | split; reflexivity]). }
  assert (Hblank : forall q, has_url q = false -> Js.trim (url_of q) = ""%string).
  { intros q H. unfold has_url in H. apply negb_false_iff, String.eqb_eq in H. exact H. }
  destruct Hmain as [H1 [H2 [H3 H4]]].
  split; [exact H1|]. split; [|split; [exact H3|split; [exact H4|]]].
  - intros Hne. destruct (H2 Hne) as [t [parsed [Ht [Hu [Hp [Hpr [Hs [Hc [Hb [Hd Hf]]]]]]]]]].
    exists t, parsed. repeat split; try assumption. apply Hblank. exact Hb.
  - intros Hne. apply Hblank. unfold handleFocus, checkClipboard in Hne.
    destruct (has_url p); [|reflexivity]. simpl in Hne. exfalso. apply Hne. reflexivity.
Qed.

(** Checking the clipboard again, with the same text in it, changes nothing
    more: the first check has filled the field, or none will. *)
Theorem clipboard_check_is_idempotent :
  forall (t : string) (p : State),
    Js.trim t <> ""%string ->
    handleFocus new_URL (Js.Resolved t) (handleFocus new_URL (Js.Resolved t) p)
    = handleFocus new_URL (Js.Resolved t) p.
Proof.
  intros t p Ht.
  assert (Hcases : handleFocus new_URL (Js.Resolved t) p = p
                   \/ url_of (handleFocus new_URL (Js.Resolved t) p) = Js.trim t).
  { unfold handleFocus, checkClipboard.
    destruct (has_url p || isDownloading (tab p) || isFetchingInfo p)%bool;
      [left; reflexivity|].
    destruct (Url.isValidUrl new_URL (Js.trim t)); [|left; reflexivity].
    right. destruct (Url.isSupportedUrl new_URL (Js.trim t)); reflexivity. }
  destruct Hcases as [Hsame | Hfilled].
  - rewrite Hsame. exact Hsame.
  - set (p1 := handleFocus new_URL (Js.Resolved t) p) in *.
    assert (Hu : has_url p1 = true).
    { unfold has_url. rewrite Hfilled, trim_twice.
      apply negb_true_iff, String.eqb_neq. exact Ht. }
    unfold handleFocus at 1. unfold checkClipboard. rewrite Hu. reflexivity.
Qed.

Lemma trim_example_not_blank : Js.trim " https://example.org/v " <> ""%string.
Proof. vm_compute. discriminate. Qed.

(** The check that the paste shortcut schedules belongs to the render in
    which the key was pressed.  If that render shows a blank field and
    nothing running, and the clipboard holds a valid URL, the check replaces
    whatever text the paste has put in the field by the trimmed clipboard
    text and marks the field as filled from the clipboard; if that render
    shows a URL that is not blank, the check leaves the pasted text alone.
    A check made by a render that shows the typed text leaves it alone as
    well, and the status line judges the typed text itself (not its trimmed
    form). *)
Theorem paste_shortcut_check_replaces_the_pasted_text :
  forall (v t : string) (p : State),
    (has_url p = false -> isDownloading (tab p) = false -> isFetchingInfo p = false ->
     Url.isValidUrl new_URL (Js.trim t) = true ->
     let p' := handleKeyDown_paste new_URL (Some v) (Js.Resolved t) p in
     url_of p' = Js.trim t
     /\ urlSource p' = Some clipboard
     /\ clipboardDetected p' = true)
    /\ (has_url p = true ->
        handleKeyDown_paste new_URL (Some v) (Js.Resolved t) p = typeUrl v p)
    /\ (Js.trim v <> ""%string ->
        handleFocus new_URL (Js.Resolved t) (typeUrl v p) = typeUrl v p
        /\ urlSource (typeUrl v p) = Some manual
        /\ clipboardDetected (typeUrl v p) = false
        /\ url_status new_URL (typeUrl v p) = Some (Url.isSupportedUrl new_URL v)).
Proof.
  intros v t p. split; [|split].
  - intros Hu Hd Hf Hv. unfold handleKeyDown_paste, checkClipboard.
    rewrite Hu, Hd, Hf, Hv. simpl.
    destruct (Url.isSupportedUrl new_URL (Js.trim t)); repeat split.
  - intros Hu. unfold handleKeyDown_paste, checkClipboard. rewrite Hu. reflexivity.
  - intros Hv.
    assert (Hu : has_url (typeUrl v p) = true).
    { unfold has_url, url_of, typeUrl. simpl.
      apply negb_true_iff, String.eqb_neq. exact Hv. }
    split; [unfold handleFocus, checkClipboard; rewrite Hu; reflexivity|].
    split; [reflexivity|]. split; [reflexivity|].
    unfold url_status. rewrite Hu. reflexivity.
Qed.

End ClipboardFacts.

Lemma clipboard_check_is_guarded_by_its_render_witness :
  Page.checkClipboard Url.example_URL
    (Page.withTab (fun _ => Examples.fetched_state) Page.initial_state)
    (Js.Resolved "https://example.org/v") Page.initial_state
  = Page.initial_state.
Proof.
  apply (proj1 (clipboard_check_is_guarded_by_its_render
                  Url.example_URL
                  (Page.withTab (fun _ => Examples.fetched_state) Page.initial_state)
                  (Js.Resolved "https://example.org/v") Page.initial_state)).
  left. reflexivity.
Defined.

Lemma clipboard_check_is_idempotent_witness :
  Page.handleFocus Url.example_URL (Js.Resolved " https://example.org/v ")
    (Page.handleFocus Url.example_URL (Js.Resolved " https://example.org/v ")
       Page.initial_state)
  = Page.handleFocus Url.example_URL (Js.Resolved " https://example.org/v ")
      Page.initial_state.
Proof.
  apply clipboard_check_is_idempotent. exact trim_example_not_blank.
Defined.

Lemma paste_shortcut_check_replaces_the_pasted_text_witness :
  Page.url_of (Page.handleKeyDown_paste Url.example_URL (Some "see https://example.org/v")
                 (Js.Resolved " https://example.org/v ") Page.initial_state)
  = "https://example.org/v".
Proof.
  apply (proj1 (paste_shortcut_check_replaces_the_pasted_text
                  Url.example_URL "see https://example.org/v" " https://example.org/v "
                  Page.initial_state));
    reflexivity.
Defined.

Example clipboard_fills_the_field :
  Page.url_of (Page.handleFocus Url.example_URL (Js.Resolved " https://example.org/v ")
                 Page.initial_state)
  = "https://example.org/v"
  /\ Page.url_of (Page.handleFocus Url.example_URL (Js.Resolved "ftp://example.org/v")
                    Page.initial_state)
     = "".
Proof. split; reflexivity. Qed.

(** ** The URL field and the request of Add to Queue *)

Section UrlFieldFacts.

Import DownloadTab Page.

Variable new_URL : string -> option Url.URL.

Lemma append_not_empty (a b : string) : b <> ""%string -> (a ++ b)%string <> ""%string.
Proof. intros Hb H. destruct a; simpl in H; [exact (Hb H) | discriminate H]. Qed.

Lemma or_string_not_empty (a b : string) : b <> ""%string -> Js.or_string a b <> ""%string.
Proof.
  intros Hb. unfold Js.or_string. destruct (a =? "")%string eqn:E; [exact Hb|].
  apply String.eqb_neq. exact E.
Qed.

(** The clear button leaves a form on which Fetch and Download are disabled,
    Add to Queue and the status line are gone, and [handleFetchInfo] would
    only log; the file name, the quality and the list of qualities of the
    cleared video stay as they were. *)
Theorem clearing_the_url_disables_the_form :
  forall (result : Js.Promise VideoInfo) (p : State),
    let p' := clearUrl p in
    fetch_disabled p' = true
    /\ download_disabled p' = true
    /\ shows_add_to_queue p' = false
    /\ url_status new_URL p' = None
    /\ Queue.queue_add_request (form (tab p')) = None
    /\ form (tab (handleFetchInfo result p')) = form (tab p')
    /\ (filename (form (tab p')), quality (form (tab p')), availableQualities p',
        clipboardDetected p')
       = (filename (form (tab p)), quality (form (tab p)), availableQualities p,
          clipboardDetected p).
Proof.
  intros result p p'. unfold p'.
  assert (Hu : has_url (clearUrl p) = false) by reflexivity.
  unfold fetch_disabled, download_disabled, url_status, handleFetchInfo.
  rewrite Hu. rewrite !orb_true_r.
  repeat split.
Qed.

(** Editing the URL keeps the fetched video: Add to Queue then sends the
    newly typed address together with the title and the file name of the
    video fetched before. *)
Theorem edited_url_is_enqueued_with_the_fetched_title :
  forall (v : string) (info : VideoInfo) (p : State),
    videoInfo (form (tab p)) = Some info ->
    exists args,
      Queue.queue_add_request (form (tab (typeUrl v p))) = Some args
      /\ Queue.Args.url args = Js.trim v
      /\ Queue.Args.title args = Js.or_string (title info) "Unknown"
      /\ (filename (form (tab p)) <> ""%string ->
          Queue.Args.outputFilename args = filename (form (tab p)))
      /\ shows_add_to_queue (typeUrl v p) = shows_add_to_queue p.
Proof.
  intros v info p Hvi.
  unfold Queue.queue_add_request, shows_add_to_queue, typeUrl. simpl.
  rewrite Hvi. eexists. split; [reflexivity|]. simpl.
  split; [reflexivity|]. split; [reflexivity|]. split; [|reflexivity].
  intros Hf. apply String.eqb_neq in Hf. unfold Js.or_string at 1.
  rewrite Hf. reflexivity.
Qed.

(** A [queue_add] request never carries an empty title or an empty file
    name, and its last fallback is never taken: with no file name in the
    form the request names the file after the sanitised title, whatever the
    title is. *)
Theorem enqueue_request_names_title_and_file :
  forall (f : Form) (args : Queue.Args.queue_add),
    Queue.queue_add_request f = Some args ->
    exists info,
      videoInfo f = Some info
      /\ Queue.Args.title args <> ""%string
      /\ Queue.Args.outputFilename args <> ""%string
      /\ Queue.Args.outputFilename args
         = (if (filename f =? "")%string
            then (Queue.sanitize (title info) ++ ".mp4")%string
            else filename f).
Proof.
  intros f args H. unfold Queue.queue_add_request in H.
  destruct (videoInfo f) as [info|] eqn:Hvi; [|discriminate H].
  injection H as H. subst args. simpl. exists info.
  assert (Hext : (Queue.sanitize (title info) ++ ".mp4")%string <> ""%string)
    by (apply append_not_empty; discriminate).
  split; [reflexivity|].
  split; [apply or_string_not_empty; discriminate|].
  split; [apply or_string_not_empty, or_string_not_empty; discriminate|].
  unfold Js.or_string at 1. destruct (filename f =? "")%string; [|reflexivity].
  unfold Js.or_string. apply String.eqb_neq in Hext. rewrite Hext. reflexivity.
Qed.

End UrlFieldFacts.

Lemma edited_url_is_enqueued_with_the_fetched_title_witness :
  exists args,
    Queue.queue_add_request
      (DownloadTab.form
         (Page.tab (Page.typeUrl " https://example.org/other "
                      (Page.withTab (fun _ => Examples.fetched_state) Page.initial_state))))
    = Some args
    /\ Queue.Args.url args = "https://example.org/other"
    /\ Queue.Args.title args = "EP.1: part 2".
Proof.
  destruct (edited_url_is_enqueued_with_the_fetched_title
              " https://example.org/other " Examples.info
              (Page.withTab (fun _ => Examples.fetched_state) Page.initial_state)
              eq_refl) as [args [H1 [H2 [H3 _]]]].
  exists args. split; [exact H1|]. split; [exact H2 | exact H3].
Defined.

Lemma enqueue_request_names_title_and_file_witness :
  exists args,
    Queue.queue_add_request (Examples.form "" (Some Examples.info)) = Some args
    /\ Queue.Args.outputFilename args = "EP.1_ part 2.mp4".
Proof.
  eexists. split; [reflexivity|].
  destruct (enqueue_request_names_title_and_file
              (Examples.form "" (Some Examples.info)) _ eq_refl)
    as [info [Hi [_ [_ H]]]].
  injection Hi as Hi. subst info. exact H.
Defined.

Section SiteCheckFacts.

Lemma prefix_ci_app (p s post : string) :
  Js.prefix_ci p s = true -> Js.prefix_ci p (s ++ post) = true.
Proof.
  revert s. induction p as [|a p IH]; intros s H; [reflexivity|].
  destruct s as [|b s]; [discriminate|].
  simpl in *. apply andb_true_iff in H. destruct H as [Hab H].
  rewrite Hab, (IH _ H). reflexivity.
Qed.

Lemma test_from_app_r (p s post : string) :
  Js.test_from p s = true -> Js.test_from p (s ++ post) = true.
Proof.
  induction s as [|b s IH]; intros H.
  - simpl in H. rewrite orb_false_r in H.
    destruct p; [|discriminate]. destruct post; reflexivity.
  - simpl in H. apply orb_true_iff in H.
    change (String b s ++ post) with (String b (s ++ post)).
    cbn [Js.test_from]. apply orb_true_iff. destruct H as [H | H].
    + left. apply (prefix_ci_app p (String b s) post H).
    + right. apply IH. exact H.
Qed.

Lemma test_from_app_l (p pre s : string) :
  Js.test_from p s = true -> Js.test_from p (pre ++ s) = true.
Proof.
  intros H. induction pre as [|b pre IH]; [exact H|].
  change (String b pre ++ s) with (String b (pre ++ s)).
  cbn [Js.test_from]. rewrite IH. apply orb_true_r.
Qed.

(** The site check looks for a pattern anywhere in the host name: a host
    that contains the host of a supported URL, with anything before or after
    it, is supported as well. *)
Theorem supported_site_check_is_a_substring_match :
  forall (new_URL : string -> option Url.URL) (url1 url2 : string)
         (parsed1 parsed2 : Url.URL) (before after : string),
    new_URL url1 = Some parsed1 ->
    new_URL url2 = Some parsed2 ->
    Url.hostname parsed2 = before ++ Url.hostname parsed1 ++ after ->
    Url.isSupportedUrl new_URL url1 = true ->
    Url.isSupportedUrl new_URL url2 = true.
Proof.
  intros new_URL url1 url2 parsed1 parsed2 before after H1 H2 Hhost.
  unfold Url.isSupportedUrl. rewrite H1, H2, Hhost, !existsb_exists.
  intros [pattern [Hin Ht]]. exists pattern. split; [exact Hin|].
  unfold Js.test in *. apply test_from_app_l, test_from_app_r. exact Ht.
Qed.

Lemma supported_site_check_is_a_substring_match_witness :
  Url.isSupportedUrl Url.example_URL
    "http://not-xn--12ca1ddhqak6ecxc9b.com.example.net/v"
  = true.
Proof.
  apply (supported_site_check_is_a_substring_match Url.example_URL
           "https://xn--12ca1ddhqak6ecxc9b.com/v"
           "http://not-xn--12ca1ddhqak6ecxc9b.com.example.net/v"
           {| Url.protocol := "https:"; Url.hostname := "xn--12ca1ddhqak6ecxc9b.com" |}
           {| Url.protocol := "http:";
              Url.hostname := "not-xn--12ca1ddhqak6ecxc9b.com.example.net" |}
           "not-" ".example.net");
    reflexivity.
Defined.

End SiteCheckFacts.

(** ** The ETA label, the smoothed speed and the history ids *)

Section NumberFacts.

Import DownloadTab.
Local Open Scope Q_scope.

Lemma to_uint_nonnil (n : N) : N.to_uint n <> Nil.
Proof.
  destruct n as [|p]; [discriminate|]. apply DecimalPos.Unsigned.to_uint_nonnil.
Qed.

Lemma toString_starts_with_a_digit (n : N) :
  exists c r, Js.toString n = String c r /\ c <> "-"%char.
Proof.
  unfold Js.toString. pose proof (to_uint_nonnil n) as H.
  destruct (N.to_uint n); try contradiction;
    eexists; eexists; (split; [reflexivity | discriminate]).
Qed.

Lemma toString_injective (n n' : N) : Js.toString n = Js.toString n' -> n = n'.
Proof.
  unfold Js.toString. intros H.
  apply DecimalN.Unsigned.to_uint_inj.
  pose proof (NilZero.usu (N.to_uint n) (to_uint_nonnil n)) as E.
  pose proof (NilZero.usu (N.to_uint n') (to_uint_nonnil n')) as E'.
  rewrite H in E. congruence.
Qed.

(** The placeholder is what [formatEta] returns for no ETA and for an ETA
    that is not positive, and for nothing else. *)
Theorem formatEta_placeholder :
  forall seconds : option Q,
    formatEta seconds = "--:--"%string
    <-> (seconds = None \/ exists s, seconds = Some s /\ s <= 0).
Proof.
  intros [s|]; [|split; [left; reflexivity | reflexivity]].
  unfold formatEta. destruct (Qle_bool s 0) eqn:E.
  - apply Qle_bool_iff in E. split; [|reflexivity].
    intros _. right. exists s. split; [reflexivity | exact E].
  - split.
    + intros H. exfalso.
      destruct (0 <? Qfloor (s / 3600))%Z;
        [ destruct (toString_starts_with_a_digit (Z.to_N (Qfloor (s / 3600))))
            as [c [r [Ec Hc]]]
        | destruct (toString_starts_with_a_digit
                      (Z.to_N (Qfloor (remainder s 3600 / 60))))
            as [c [r [Ec Hc]]] ];
        rewrite Ec in H; simpl in H; injection H as H _; contradiction.
    + intros [H | [s' [H Hle]]]; [discriminate|].
      injection H as <-. apply Qle_bool_iff in Hle. congruence.
Qed.

Lemma Qfloor_div_positive (x : Q) (k : positive) :
  Qfloor (x / (Zpos k # 1)) = (Qfloor x / Zpos k)%Z.
Proof.
  destruct x as [a b]. unfold Qdiv, Qmult, Qinv, Qfloor. simpl.
  rewrite Z.mul_1_r, Pos2Z.inj_mul, Z.div_div; [reflexivity | discriminate | reflexivity].
Qed.

Lemma Qfloor_remainder (x : Q) (k : positive) :
  Qfloor (remainder x (Zpos k # 1)) = (Qfloor x mod Zpos k)%Z.
Proof.
  unfold remainder. rewrite Qfloor_div_positive.
  destruct x as [a b]. unfold Qminus, Qplus, Qopp, Qmult, inject_Z, Qfloor.
  cbn [Qnum Qden]. set (q := (a / Zpos b / Zpos k)%Z).
  rewrite !Pos.mul_1_r, Z.mul_1_r, Z.div_add by discriminate.
  rewrite Z.mod_eq by discriminate. unfold q. lia.
Qed.

Lemma Qfloor_remainder_minutes (x : Q) :
  Qfloor (remainder x 3600 / 60) = ((Qfloor x mod 3600) / 60)%Z.
Proof.
  change 60 with (Zpos 60 # 1) at 1. rewrite Qfloor_div_positive.
  change 3600 with (Zpos 3600 # 1). rewrite Qfloor_remainder. reflexivity.
Qed.

Lemma pad2_has_two_characters (n : Z) :
  (0 <= n < 100)%Z -> String.length (pad2 n) = 2%nat.
Proof.
  intros H.
  assert (Hall : forallb (fun k => Nat.eqb (String.length (pad2 (Z.of_nat k))) 2)
                         (seq 0 100) = true) by (vm_compute; reflexivity).
  rewrite forallb_forall in Hall.
  specialize (Hall (Z.to_nat n)). rewrite Z2Nat.id in Hall by lia.
  apply Nat.eqb_eq, Hall. apply in_seq. lia.
Qed.

(** For a positive ETA below 2^53 seconds, the range in which the rounded
    quotients of the platform have the integer parts of the exact ones,
    [formatEta] shows the whole seconds of it, split into hours, minutes and
    seconds: the minutes and the seconds are below 60 and take two
    characters each, and the three fields add up to the whole seconds. *)
Theorem formatEta_shows_the_whole_seconds :
  forall s : Q,
    0 < s ->
    s < inject_Z (2 ^ 53) ->
    let whole := Qfloor s in
    let hours := (whole / 3600)%Z in
    let minutes := ((whole mod 3600) / 60)%Z in
    let secs := (whole mod 60)%Z in
    formatEta (Some s)
    = (if (0 <? hours)%Z
       then Js.toString (Z.to_N hours) ++ ":" ++ pad2 minutes ++ ":" ++ pad2 secs
       else Js.toString (Z.to_N minutes) ++ ":" ++ pad2 secs)%string
    /\ (0 <= hours /\ 0 <= minutes < 60 /\ 0 <= secs < 60)%Z
    /\ (whole = 3600 * hours + 60 * minutes + secs)%Z
    /\ String.length (pad2 minutes) = 2%nat
    /\ String.length (pad2 secs) = 2%nat.
Proof.
  intros s Hs _ whole hours minutes secs.
  assert (Hw : (0 <= whole)%Z).
  { unfold whole. rewrite <- (Qfloor_Z 0). apply Qfloor_resp_le.
    apply Qlt_le_weak. exact Hs. }
  assert (Hm : (0 <= minutes < 60)%Z).
  { unfold minutes. pose proof (Z.mod_pos_bound whole 3600 eq_refl) as Hb.
    split; [apply Z.div_pos; lia | apply Z.div_lt_upper_bound; lia]. }
  assert (Hsec : (0 <= secs < 60)%Z) by (apply Z.mod_pos_bound; reflexivity).
  split; [|split; [|split; [|split]]].
  - unfold formatEta.
    assert (E : Qle_bool s 0 = false).
    { destruct (Qle_bool s 0) eqn:E; [|reflexivity].
      apply Qle_bool_iff in E. exfalso. exact (Qlt_not_le _ _ Hs E). }
    rewrite E, Qfloor_remainder_minutes.
    change 3600 with (Zpos 3600 # 1). rewrite Qfloor_div_positive.
    change 60 with (Zpos 60 # 1). rewrite Qfloor_remainder. reflexivity.
  - split; [apply Z.div_pos; lia | split; assumption].
  - unfold hours, minutes, secs.
    pose proof (Z.div_mod whole 3600 ltac:(discriminate)) as H1.
    pose proof (Z.div_mod (whole mod 3600) 60 ltac:(discriminate)) as H2.
    assert (H3 : ((whole mod 3600) mod 60 = whole mod 60)%Z).
    { apply Z.mod_mod_divide. exists 60%Z. reflexivity. }
    lia.
  - apply pad2_has_two_characters. lia.
  - apply pad2_has_two_characters. lia.
Qed.

Lemma formatEta_shows_the_whole_seconds_witness :
  formatEta (Some (7451 # 2)) = "1:02:05"%string.
Proof.
  rewrite (proj1 (formatEta_shows_the_whole_seconds (7451 # 2) eq_refl eq_refl)).
  reflexivity.
Defined.

Lemma smooth_non_negative sample prev : 0 <= sample -> 0 <= prev -> 0 <= smooth sample prev.
Proof.
  intros Hs Hp. unfold smooth. destruct (Qeq_bool prev 0); [exact Hs | lra].
Qed.

(** The speed never becomes negative: an event keeps it at 0 or above when
    the bytes it reports are not below those of the last recorded update and
    the speed it carries, if any, is not negative. *)
Theorem speed_stays_non_negative :
  forall (captured now : Q) (data : Event.DownloadProgress) (s : State),
    0 <= downloadSpeed (tracking s) ->
    (forall time bytes,
        lastProgressUpdate (tracking s) = Some (time, bytes) ->
        bytes <= or_zero (Event.downloaded_bytes data)) ->
    (forall v, Event.speed_bps data = Some v -> 0 <= v) ->
    0 <= downloadSpeed (tracking (on_download_progress captured now data s)).
Proof.
  intros captured now data s Hprev Hbytes Hbps. unfold on_download_progress.
  destruct (Event.status data =? "downloading")%string.
  - assert (Hgoal : 0 <= downloadSpeed (tracking
              (if Qltb 0 (or_zero (Event.downloaded_bytes data))
               then withTracking
                      (update_eta captured (or_zero (Event.total_bytes data))
                                  (or_zero (Event.downloaded_bytes data)))
                      (withTracking
                         (update_speed now (or_zero (Event.downloaded_bytes data)))
                         (withTracking (setTotalBytes (or_zero (Event.total_bytes data)))
                            (withTracking
                               (setDownloadedBytes (or_zero (Event.downloaded_bytes data)))
                               (setProgress (Event.progress data) s))))
               else if truthy_number (Event.speed_bps data)
                    then withTracking
                           (setDownloadSpeed (fun _ => or_zero (Event.speed_bps data)))
                           (setProgress (Event.progress data) s)
                    else setProgress (Event.progress data) s))).
    { destruct (Qltb 0 (or_zero (Event.downloaded_bytes data))).
      - simpl. rewrite downloadSpeed_update_eta. unfold update_speed. simpl.
        destruct (lastProgressUpdate (tracking s)) as [[time bytes]|] eqn:El;
          [|exact Hprev].
        destruct (Qltb (1 # 10) ((now - time) / 1000)) eqn:Et; [|exact Hprev].
        simpl. apply smooth_non_negative; [|exact Hprev].
        apply Qltb_lt in Et. apply Qle_shift_div_l; [lra|].
        specialize (Hbytes time bytes eq_refl). lra.
      - destruct (truthy_number (Event.speed_bps data)); [|exact Hprev].
        simpl. destruct (Event.speed_bps data) as [v|]; simpl;
          [apply Hbps; reflexivity | lra]. }
    destruct (Z.rem _ 10 =? 0)%Z; exact Hgoal.
  - destruct (Event.status data =? "completed")%string; [simpl; lra|].
    destruct (Event.status data =? "info")%string; [exact Hprev|].
    destruct (Event.status data =? "error")%string; [simpl; lra | exact Hprev].
Qed.

Lemma speed_stays_non_negative_witness :
  0 <= downloadSpeed
         (tracking (mounted_listener 3000 (Examples.downloading 4000)
                      (Examples.after_two_seconds mounted_listener))).
Proof.
  apply speed_stays_non_negative.
  - vm_compute. discriminate.
  - intros time bytes H. vm_compute in H. injection H as <- <-.
    vm_compute. discriminate.
  - intros v H. discriminate H.
Defined.

(** Two history records have the same id exactly when they were built in
    the same millisecond. *)
Theorem history_ids_differ_with_the_clock :
  forall (f f' : Form) (now_ms now_ms' : N) (now_iso now_iso' : string),
    id (historyItem f now_ms now_iso) = id (historyItem f' now_ms' now_iso')
    <-> now_ms = now_ms'.
Proof.
  intros f f' n n' iso iso'. simpl. split.
  - apply toString_injective.
  - intros ->. reflexivity.
Qed.

End NumberFacts.

(** ** The queue tab: badge, header buttons, rows and passes *)

Section QueueTabFacts.

Import Queue QueueTab.

Lemma unfinished_count (queue : list QueueItem) :
  List.length
    (filter (fun i => (Status_eqb (status i) Pending
                       || Status_eqb (status i) Downloading)%bool) queue)
  = (waiting queue + active queue)%nat.
Proof.
  unfold waiting, active, is_pending, is_downloading.
  induction queue as [|item rest IH]; [reflexivity|].
  simpl. destruct (status item); simpl; rewrite IH; lia.
Qed.

(** The badge of the Queue tab counts the Pending and the Downloading items
    together, and is hidden exactly when there is none of either; it never
    counts more than the list holds. *)
Theorem badge_counts_unfinished_items :
  forall queue : list QueueItem,
    badge queue = (if (0 <? waiting queue + active queue)%nat
                   then Some (waiting queue + active queue)%nat else None)
    /\ (badge queue = None <-> waiting queue = 0%nat /\ active queue = 0%nat)
    /\ (forall n, badge queue = Some n -> (0 < n <= List.length queue)%nat).
Proof.
  intros queue. unfold badge. rewrite unfinished_count.
  assert (Hle : (waiting queue + active queue <= List.length queue)%nat).
  { rewrite <- unfinished_count. apply filter_length_le. }
  destruct (0 <? waiting queue + active queue)%nat eqn:E.
  - apply Nat.ltb_lt in E. split; [reflexivity|]. split.
    + split; [discriminate | lia].
    + intros n H. injection H as <-. lia.
  - apply Nat.ltb_ge in E. split; [reflexivity|]. split.
    + split; [lia | reflexivity].
    + intros n H. discriminate H.
Qed.

Lemma badge_counts_unfinished_items_witness :
  (0 < 2 <= 3)%nat.
Proof.
  apply (proj2 (proj2 (badge_counts_unfinished_items
                         [Examples.item "a" Downloading None;
                          Examples.item "b" Completed (Some "/d/b.mp4");
                          Examples.item "c" Pending None])) 2%nat).
  reflexivity.
Defined.

Lemma offers_pause item index length :
  offers is_pause item index length = true <-> status item = Downloading.
Proof.
  unfold offers, queue_item_actions.
  destruct (status item); simpl;
    try (destruct (Js.truthy (file_path item)); simpl);
    split; (reflexivity || discriminate).
Qed.

(** Every row has exactly one way out of its state among Pause, Cancel and
    Remove: Pause for a Downloading item, Cancel for a Pending or Paused one,
    Remove for the others; a Downloading row offers nothing but Pause, and
    the resume handler is offered exactly for Paused and Failed items. *)
Theorem each_row_has_one_way_out :
  forall (item : QueueItem) (index length : nat),
    (Nat.b2n (offers is_pause item index length)
     + Nat.b2n (offers is_cancel item index length)
     + Nat.b2n (offers is_remove item index length) = 1)%nat
    /\ (status item = Downloading ->
        map onClick (queue_item_actions item index length) = [On_pauseQueueItem])
    /\ (offers is_resume item index length = true
        <-> (status item = Paused \/ status item = Failed)).
Proof.
  intros item index length. unfold offers, queue_item_actions.
  destruct (status item); simpl;
    try (destruct (Js.truthy (file_path item)); simpl);
    repeat split; auto; try discriminate;
    try (intros [H | H]; discriminate H).
Qed.

Lemma each_row_has_one_way_out_witness :
  map onClick (queue_item_actions (Examples.item "a" Downloading None) 0 1)
  = [On_pauseQueueItem].
Proof.
  apply (proj1 (proj2 (each_row_has_one_way_out (Examples.item "a" Downloading None) 0 1))).
  reflexivity.
Defined.

Lemma rows_from_items index length queue row :
  In row (rows_from index length queue) ->
  exists item n, In item queue /\ row = queue_item_actions item n length.
Proof.
  revert index. induction queue as [|item rest IH]; intros index H; [destruct H|].
  simpl in H. destruct H as [<- | H].
  - exists item, index. split; [left; reflexivity | reflexivity].
  - destruct (IH _ H) as [x [n [Hin Hrow]]]. exists x, n. split; [right|]; assumption.
Qed.

Lemma items_rows_from index length queue item :
  In item queue ->
  exists n, In (queue_item_actions item n length) (rows_from index length queue).
Proof.
  revert index. induction queue as [|x rest IH]; intros index H; [destruct H|].
  simpl. destruct H as [-> | H].
  - exists index. left. reflexivity.
  - destruct (IH (S index) H) as [n Hn]. exists n. right. exact Hn.
Qed.

(** The header follows the rows: Start Queue is shown exactly when some row
    has the move buttons, that is when some item is Pending, and wherever
    Clear Completed is shown some row has a Remove button. *)
Theorem header_buttons_follow_the_rows :
  forall queue : list QueueItem,
    (shows_start_queue queue = true
     <-> exists row, In row (rows queue)
                     /\ existsb (fun b => is_move (onClick b)) row = true)
    /\ (shows_start_queue queue = true <-> (0 < waiting queue)%nat)
    /\ (shows_clear_completed queue = true ->
        exists row, In row (rows queue)
                    /\ existsb (fun b => is_remove (onClick b)) row = true).
Proof.
  intros queue. unfold shows_start_queue, shows_clear_completed, rows.
  split; [|split].
  - rewrite existsb_exists. split.
    + intros [item [Hin Hs]]. apply Status_eqb_eq in Hs.
      destruct (items_rows_from 0 (List.length queue) queue item Hin) as [n Hn].
      eexists. split; [exact Hn|]. apply (offers_move item n). exact Hs.
    + intros [row [Hin Hm]]. apply rows_from_items in Hin.
      destruct Hin as [item [n [Hin ->]]]. exists item. split; [exact Hin|].
      apply Status_eqb_eq. apply (offers_move item n (List.length queue)). exact Hm.
  - unfold waiting. induction queue as [|item rest IH]; simpl.
    + split; [discriminate | lia].
    + unfold is_pending at 1. destruct (Status_eqb (status item) Pending); simpl.
      * split; [lia | reflexivity].
      * exact IH.
  - rewrite existsb_exists. intros [item [Hin Hs]].
    destruct (items_rows_from 0 (List.length queue) queue item Hin) as [n Hn].
    eexists. split; [exact Hn|]. apply (offers_remove item n).
    apply orb_true_iff in Hs. destruct Hs as [Hs | Hs]; apply Status_eqb_eq in Hs; auto.
Qed.

Lemma header_buttons_follow_the_rows_witness :
  exists row, In row (rows [Examples.item "a" Failed None])
              /\ existsb (fun b => is_remove (onClick b)) row = true.
Proof.
  apply (proj2 (proj2 (header_buttons_follow_the_rows [Examples.item "a" Failed None]))).
  reflexivity.
Defined.

(** *** Passes without effect, and the guard of the effect *)

Lemma admitted_nil_iff c :
  admitted c = [] <-> (pendingItems c = [] \/ (availableSlots c <= 0)%Z).
Proof.
  pose proof (admitted_length c) as Hlen. split.
  - intros H. rewrite H in Hlen. simpl in Hlen.
    destruct (pendingItems c) as [|x rest]; [left; reflexivity|].
    right. simpl List.length in Hlen. lia.
  - intros [H | H].
    + unfold admitted. rewrite H. apply firstn_nil.
    + destruct (admitted c); [reflexivity|]. simpl List.length in Hlen. lia.
Qed.

(** A pass admits nothing exactly when no item is Pending or no slot is
    free, which includes a maximum at or below the number of downloads the
    render shows; such a pass, and any pass started while another is in
    progress, leaves the back end's list as it is. *)
Theorem pass_without_free_slot_starts_nothing :
  forall c w : World,
    (admitted c = []
     <-> (filter is_pending (queue c) = []
          \/ (max_concurrent_downloads (settings c)
              <= Z.of_nat (List.length (filter is_downloading (queue c))))%Z))
    /\ (admitted c = [] -> backend (processQueue c w) = backend w)
    /\ (isProcessingQueue c = true -> processQueue c w = w).
Proof.
  intros c w. split; [|split].
  - rewrite admitted_nil_iff. unfold pendingItems, availableSlots, activeCount.
    split; (intros [H | H]; [left; exact H | right; lia]).
  - intros H. rewrite backend_processQueue, H. destruct (isProcessingQueue c); reflexivity.
  - intros H. unfold processQueue. rewrite H. reflexivity.
Qed.

Lemma pass_without_free_slot_starts_nothing_witness :
  backend (processQueue
             (Examples.world [Examples.item "a" Downloading None;
                              Examples.item "b" Downloading None;
                              Examples.item "c" Pending None] initial_settings)
             (Examples.world [Examples.item "a" Downloading None;
                              Examples.item "b" Downloading None;
                              Examples.item "c" Pending None] initial_settings))
  = [Examples.item "a" Downloading None; Examples.item "b" Downloading None;
     Examples.item "c" Pending None].
Proof.
  apply (proj1 (proj2 (pass_without_free_slot_starts_nothing
                         (Examples.world [Examples.item "a" Downloading None;
                                          Examples.item "b" Downloading None;
                                          Examples.item "c" Pending None]
                                         initial_settings)
                         (Examples.world [Examples.item "a" Downloading None;
                                          Examples.item "b" Downloading None;
                                          Examples.item "c" Pending None]
                                         initial_settings)))).
  reflexivity.
Defined.

Lemma queue_effect_cases :
  forall w : World,
    ((admitted w = [] \/ auto_start_queue (settings w) = false) -> queue_effect w = w)
    /\ (admitted w <> [] -> auto_start_queue (settings w) = true ->
        queue_effect w = processQueue w w).
Proof.
  intros w. pose proof (admitted_nil_iff w) as Hnil.
  unfold pendingItems, availableSlots, activeCount in Hnil. unfold queue_effect.
  destruct (0 <? Z.of_nat (List.length (filter is_pending (queue w))))%Z eqn:Ep;
    destruct (Z.of_nat (List.length (filter is_downloading (queue w)))
              <? max_concurrent_downloads (settings w))%Z eqn:Ea; simpl;
    try (apply Z.ltb_lt in Ep); try (apply Z.ltb_ge in Ep);
    try (apply Z.ltb_lt in Ea); try (apply Z.ltb_ge in Ea).
  - split.
    + intros [H | H]; [|rewrite H; reflexivity].
      apply Hnil in H. destruct H as [H | H]; [rewrite H in Ep; simpl in Ep|]; lia.
    + intros _ H. rewrite H. reflexivity.
  - split; [reflexivity|]. intros H. exfalso. apply H, Hnil. right. lia.
  - split; [reflexivity|]. intros H. exfalso. apply H, Hnil. left.
    destruct (filter is_pending (queue w)); [reflexivity | simpl in Ep; lia].
  - split; [reflexivity|]. intros H. exfalso. apply H, Hnil. right. lia.
Qed.

(** The effect starts a pass exactly when auto-start is on and the pass
    would admit an item: its guard is the condition under which
    [processQueue] has something to start, so the effect never runs an empty
    pass (whose reload would fire the effect again). *)
Theorem effect_runs_only_passes_that_admit :
  forall w : World,
    ((admitted w = [] \/ auto_start_queue (settings w) = false) -> queue_effect w = w)
    /\ (admitted w <> [] -> auto_start_queue (settings w) = true ->
        queue_effect w = processQueue w w).
Proof.
  intros w. destruct (queue_effect_cases w) as [Hidle Hrun].
  split; [exact Hidle | exact Hrun].
Qed.

Lemma effect_runs_only_passes_that_admit_witness :
  queue_effect (Examples.world [Examples.item "a" Pending None] Examples.manual_settings)
  = Examples.world [Examples.item "a" Pending None] Examples.manual_settings.
Proof.
  apply (proj1 (effect_runs_only_passes_that_admit
                  (Examples.world [Examples.item "a" Pending None]
                                  Examples.manual_settings))).
  right. reflexivity.
Defined.

(** On a well-formed world within the limit the effect settles at once:
    after it has fired, firing it again changes nothing.  (The admissions go
    through [queue_start_download], which is modelled from the
    specification.) *)
Theorem effect_settles_after_one_firing :
  forall w : World,
    invariant w ->
    queue_effect (queue_effect w) = queue_effect w.
Proof.
  intros w Hinv.
  destruct (queue_effect_cases w) as [Hidle Hrun].
  assert (Hdec : admitted w = [] \/ admitted w <> [])
    by (destruct (admitted w); [left; reflexivity | right; discriminate]).
  destruct Hdec as [Hnil | Hnot];
    [rewrite (Hidle (or_introl Hnil)); apply Hidle; left; exact Hnil|].
  destruct (auto_start_queue (settings w)) eqn:Hauto;
    [|rewrite (Hidle (or_intror eq_refl)); apply Hidle; right; reflexivity].
  rewrite (Hrun Hnot eq_refl).
  destruct (isProcessingQueue w) eqn:Hflag.
  - assert (E : processQueue w w = w) by (unfold processQueue; rewrite Hflag; reflexivity).
    rewrite E. rewrite (Hrun Hnot eq_refl). exact E.
  - destruct (processQueue_invariant w Hinv) as [[[Hnd Hag] Hlim] [Hs Hf]].
    pose proof (processQueue_saturates w (proj1 Hinv) Hflag) as Hsat.
    apply (proj1 (queue_effect_cases (processQueue w w))).
    left. apply admitted_nil_iff.
    unfold pendingItems, availableSlots. rewrite activeCount_active.
    rewrite (agrees_active _ Hag).
    destruct Hsat as [Hw | Hmax]; [left | right; lia].
    fold (waiting (queue (processQueue w w))) in *.
    rewrite <- (agrees_waiting _ Hag) in Hw. unfold waiting in Hw.
    destruct (filter is_pending (queue (processQueue w w))); [reflexivity | discriminate].
Qed.

End QueueTabFacts.

Lemma effect_settles_after_one_firing_witness :
  Queue.queue_effect
    (Queue.queue_effect
       (Examples.world [Examples.item "a" Queue.Pending None;
                        Examples.item "b" Queue.Pending None;
                        Examples.item "c" Queue.Pending None] Queue.initial_settings))
  = Queue.queue_effect
      (Examples.world [Examples.item "a" Queue.Pending None;
                       Examples.item "b" Queue.Pending None;
                       Examples.item "c" Queue.Pending None] Queue.initial_settings).
Proof.
  apply effect_settles_after_one_firing. apply world_invariant.
  - repeat constructor; simpl; intuition discriminate.
  - simpl. lia.
Defined.

(** ** Settings, and what no step of the queue touches *)

Section SettingsFacts.

Import Queue SettingsTab.

Lemma edit_stays_within_the_options e s :
  ((1 <= max_concurrent_downloads s <= 5)%Z ->
   (1 <= max_concurrent_downloads (edit e s) <= 5)%Z)
  /\ (In (default_quality s) quality_options ->
      In (default_quality (edit e s)) quality_options)
  /\ theme (edit e s) = theme s
  /\ minimize_to_tray (edit e s) = minimize_to_tray s.
Proof.
  destruct e as [v | selected | o | o | checked | checked]; simpl;
    try (destruct (Js.truthy selected)); simpl;
    (split; [|split; [|split]]); auto; intros _; destruct o; simpl;
    (lia || auto 10).
Qed.

(** Whatever the user does in the settings tab, the maximum of concurrent
    downloads stays between 1 and 5 and the default quality stays one of the
    five options, if they were so before; the theme and the tray setting are
    never changed there. *)
Theorem settings_edits_stay_within_the_options :
  forall (es : list Edit) (s : AppSettings),
    ((1 <= max_concurrent_downloads s <= 5)%Z ->
     (1 <= max_concurrent_downloads (edits es s) <= 5)%Z)
    /\ (In (default_quality s) quality_options ->
        In (default_quality (edits es s)) quality_options)
    /\ theme (edits es s) = theme s
    /\ minimize_to_tray (edits es s) = minimize_to_tray s.
Proof.
  unfold edits. induction es as [|e es IH]; intros s; simpl.
  - split; [|split; [|split]]; auto.
  - destruct (edit_stays_within_the_options e s) as [H1 [H2 [H3 H4]]].
    destruct (IH (edit e s)) as [I1 [I2 [I3 I4]]].
    split; [|split; [|split]];
      [intros H; apply I1, H1, H | intros H; apply I2, H2, H | congruence | congruence].
Qed.

Lemma settings_edits_stay_within_the_options_witness :
  (1 <= max_concurrent_downloads
          (edits [Select_max_concurrent_downloads Five; Check_auto_start_queue false;
                  Pick_default_download_dir None; Select_max_concurrent_downloads Three]
                 initial_settings) <= 5)%Z.
Proof.
  apply (proj1 (settings_edits_stay_within_the_options
                  [Select_max_concurrent_downloads Five; Check_auto_start_queue false;
                   Pick_default_download_dir None; Select_max_concurrent_downloads Three]
                  initial_settings)).
  simpl. lia.
Defined.

(** With a maximum of at least 1, as every option of the settings tab gives,
    a pass on a queue that shows no download admits the first Pending item
    of the list. *)
Theorem idle_queue_admits_the_first_pending_item :
  forall (c : World) (first : QueueItem) (rest : list QueueItem),
    (1 <= max_concurrent_downloads (settings c))%Z ->
    filter is_downloading (queue c) = [] ->
    filter is_pending (queue c) = first :: rest ->
    exists more, admitted c = first :: more.
Proof.
  intros c first rest Hmax Hidle Hpending.
  unfold admitted, availableSlots, activeCount, pendingItems.
  rewrite Hidle, Hpending. simpl List.length.
  destruct (Z.to_nat (Z.min (Z.of_nat (S (List.length rest)))
                            (max_concurrent_downloads (settings c) - Z.of_nat 0)))
    as [|n] eqn:E; [lia|].
  simpl. eexists. reflexivity.
Qed.

Lemma idle_queue_admits_the_first_pending_item_witness :
  exists more,
    admitted (Examples.world [Examples.item "a" Completed None;
                              Examples.item "b" Pending None;
                              Examples.item "c" Pending None] initial_settings)
    = Examples.item "b" Pending None :: more.
Proof.
  apply (idle_queue_admits_the_first_pending_item
           (Examples.world [Examples.item "a" Completed None;
                            Examples.item "b" Pending None;
                            Examples.item "c" Pending None] initial_settings)
           (Examples.item "b" Pending None) [Examples.item "c" Pending None]).
  - simpl. lia.
  - reflexivity.
  - reflexivity.
Defined.

Lemma logs_addLog t m w : logs (addLog t m w) = (logs w ++ [Ui.Build_LogEntry t m])%list.
Proof. reflexivity. Qed.

Lemma processQueue_keeps c w :
  settings (processQueue c w) = settings w
  /\ isProcessingQueue (processQueue c w) = isProcessingQueue w
  /\ exists more, logs (processQueue c w) = (logs w ++ more)%list.
Proof.
  unfold processQueue. destruct (isProcessingQueue c).
  - repeat split. exists []. rewrite app_nil_r. reflexivity.
  - destruct (start_downloads (admitted c) (backend w)) as [b [e|]]; simpl;
      repeat split; eexists; [reflexivity | rewrite app_nil_r; reflexivity].
Qed.

Lemma command_keeps run failure w :
  settings (command run failure w) = settings w
  /\ isProcessingQueue (command run failure w) = isProcessingQueue w
  /\ exists more, logs (command run failure w) = (logs w ++ more)%list.
Proof.
  unfold command. destruct (run (backend w)); simpl; repeat split;
    eexists; [rewrite app_nil_r; reflexivity | reflexivity].
Qed.

(** No step of the queue changes the settings or the pass flag, and none
    removes or rewrites a log entry: the log after a step is the log before
    it, with entries added at the end. *)
Theorem steps_keep_settings_and_only_append_logs :
  forall (new_id : list QueueItem -> string) (w : World) (op : Op),
    settings (step new_id w op) = settings w
    /\ isProcessingQueue (step new_id w op) = isProcessingQueue w
    /\ exists more, logs (step new_id w op) = (logs w ++ more)%list.
Proof.
  intros new_id w op.
  destruct op as [f now | i | i | i | i | | | | i t]; cbn [step].
  - unfold addToQueue. destruct (queue_add_request f) as [args|]; simpl.
    + destruct (auto_start_queue (settings w)); simpl.
      * match goal with
        | |- context [processQueue w ?x] =>
            destruct (processQueue_keeps w x) as [Hs [Hf [more Hl]]]
        end.
        rewrite Hs, Hf, Hl. simpl. repeat split.
        eexists. unfold Ui.addLog. rewrite <- app_assoc. reflexivity.
      * repeat split. eexists. reflexivity.
    + repeat split. eexists. reflexivity.
  - apply command_keeps.
  - apply command_keeps.
  - unfold resumeQueueItem. destruct (queue_resume i (backend w)) as [b|e]; simpl.
    + destruct (processQueue_keeps w (set_backend b w)) as [Hs [Hf [more Hl]]].
      rewrite Hs, Hf, Hl. simpl. repeat split. eexists. reflexivity.
    + repeat split. eexists. reflexivity.
  - apply command_keeps.
  - apply command_keeps.
  - apply processQueue_keeps.
  - unfold queue_effect.
    destruct (0 <? Z.of_nat (List.length (filter is_pending (queue w))))%Z;
      destruct (Z.of_nat (List.length (filter is_downloading (queue w)))
                <? max_concurrent_downloads (settings w))%Z;
      destruct (auto_start_queue (settings w)); cbn [andb];
      try apply processQueue_keeps;
      (repeat split; exists []; rewrite app_nil_r; reflexivity).
  - unfold transfer. destruct (with_item i (transfer_update t) (backend w)) as [b|e].
    + destruct (find_item i b); simpl; repeat split;
        exists []; rewrite app_nil_r; reflexivity.
    + repeat split. exists []. rewrite app_nil_r. reflexivity.
Qed.

End SettingsFacts.
